(** * TrackerMinerFS: work queues, processing pool and throttle

    A shallow embedding of [src/libtracker-miner/tracker-miner-fs.c].
    The private structure of the miner becomes a record, every C function
    that touches it becomes a function from state to state, and what the
    miner asks of its collaborators (signal handlers, the store, the file
    system, the crawler) is read from an environment record.  Calls the
    miner makes to the outside are appended to a trace.

    Scope.  Each callback is taken as one uninterrupted step.  The source
    waits for the store in nested runs of the default main loop
    ([item_query_exists], [item_move]); what that loop would dispatch to
    other callbacks during such a wait is left out: the answer is read
    from the environment at once.  Every statement below is about what the
    code of a callback does by itself under that reading.  The throttle is
    a binary64 value; the progress, a quotient of two 32-bit integers, is
    kept as the exact rational. *)

From Stdlib Require Import List ZArith QArith Qround String Ascii Bool Lia.
From Stdlib Require Import Floats.SpecFloat.
Import ListNotations.

Local Open Scope string_scope.
Local Open Scope list_scope.
Local Open Scope Z_scope.
Local Infix "+++" := String.append (right associativity, at level 60).

(** ** GLib values *)

(** [guint]: 32-bit unsigned arithmetic wraps. *)
Definition guint (z : Z) : Z := z mod 2 ^ 32.

(** [gdouble]: IEEE 754 binary64, as the Standard Library specifies it. *)
Definition gdouble : Type := spec_float.

Definition gdouble_mul (x y : gdouble) : gdouble := SFmul 53 1024 x y.

(** An integer converted to [gdouble]; exact below 2^53. *)
Definition gdouble_of_int (z : Z) : gdouble :=
  binary_normalize 53 1024 z 0 false.

Definition gdouble_zero : gdouble := S754_zero false.
Definition gdouble_one : gdouble := gdouble_of_int 1.

(** A [GFile] is identified by its path, kept as the list of path elements
    below the root. *)
Definition GFile : Type := list string.

Definition g_file_equal (a b : GFile) : bool :=
  if list_eq_dec string_dec a b then true else false.

Fixpoint path_starts_with (prefix file : GFile) : bool :=
  match prefix, file with
  | [], _ => true
  | p :: ps, f :: fs => String.eqb p f && path_starts_with ps fs
  | _ :: _, [] => false
  end.

(** [g_file_has_prefix file prefix]: only whole path elements match, and a
    file is not a prefix of itself. *)
Definition g_file_has_prefix (file prefix : GFile) : bool :=
  path_starts_with prefix file && (List.length prefix <? List.length file)%nat.

Definition g_file_get_uri (f : GFile) : string :=
  match f with
  | [] => "file:///"
  | _ => "file://" +++ String.concat EmptyString (map (fun c => "/" +++ c) f)
  end.

Definition g_file_get_path (f : GFile) : string :=
  match f with
  | [] => "/"
  | _ => String.concat EmptyString (map (fun c => "/" +++ c) f)
  end.

Definition g_str_has_prefix (s prefix : string) : bool := String.prefix prefix s.

Definition g_str_has_suffix (s suffix : string) : bool :=
  (String.length suffix <=? String.length s)%nat
  && String.eqb
       (String.substring (String.length s - String.length suffix)
                         (String.length suffix) s)
       suffix.

(** [s + n] on a C string: the characters from offset [n] on. *)
Definition str_offset (s : string) (n : nat) : string :=
  String.substring n (String.length s - n) s.

Definition dquote : string := String (ascii_of_nat 34) EmptyString.

(** [GError]: only the code is looked at. *)
Definition GError : Type := Z.
Definition G_IO_ERROR_NOT_FOUND : GError := 1.

(** ** The structures of the miner *)

Record ItemMovedData : Type := {
  imd_file : GFile;
  imd_source_file : GFile
}.

Record DirectoryData : Type := {
  dd_file : GFile;
  dd_recurse : bool
}.

(** [pd_data] stands for the address of the slice: the pool is searched
    and pruned by pointer.  [pd_cancellable] is [None] for a NULL
    cancellable and otherwise holds the cancelled flag of the object the
    extractor shares with the pool. *)
Record ProcessData : Type := {
  pd_data : nat;
  pd_file : GFile;
  pd_cancellable : option bool;
  pd_builder : bool
}.

Record RecursiveMoveData : Type := {
  rmd_level : Z;
  rmd_sparql : string;
  rmd_source_uri : string;
  rmd_uri : string
}.

Inductive Queue : Type :=
| QUEUE_NONE
| QUEUE_CREATED
| QUEUE_UPDATED
| QUEUE_DELETED
| QUEUE_MOVED.

(** Main-loop sources: what [g_idle_add] and [g_timeout_add] installed. *)
Inductive SourceFunc : Type :=
| item_queue_handlers_cb_func
| crawl_directories_cb_func.

Inductive Source : Type :=
| IdleSource (func : SourceFunc)
| TimeoutSource (interval : Z) (func : SourceFunc).

(** Calls that leave the miner. *)
Inductive Out : Type :=
| ProcessFile (file : GFile)
| BatchUpdate (text : string) (data : nat)
| Commit
| Finished (dirs_found dirs_ignored files_found files_ignored : Z)
| CrawlerStart (file : GFile) (recurse : bool)
| CrawlerStop
| CrawlerPause
| CrawlerResume
| MonitorAdd (file : GFile)
| Critical (message : string)
| Warning (message : string).

(** [TrackerMinerFSPrivate], with what the code keeps next to it:
    [time_last], the static variable of [item_queue_handlers_cb]; [status]
    and [progress], the properties of the [TrackerMiner] the miner sets;
    [progress_reports], every value given to the progress property so
    far, oldest first; [next_data], the address of the next [ProcessData];
    [trace], the calls that left the miner, oldest first. *)
Record TrackerMinerFSPrivate : Type := mkPrivate {
  items_created : list GFile;
  items_updated : list GFile;
  items_deleted : list GFile;
  items_moved : list ItemMovedData;
  directories : list DirectoryData;
  current_directory : option DirectoryData;
  timer : bool;
  crawl_directories_id : option Source;
  item_queues_handler_id : option Source;
  throttle : gdouble;
  processing_pool : list ProcessData;
  pool_limit : Z;
  been_started : bool;
  been_crawled : bool;
  shown_totals : bool;
  is_paused : bool;
  is_crawling : bool;
  total_directories_found : Z;
  total_directories_ignored : Z;
  total_files_found : Z;
  total_files_ignored : Z;
  directories_found : Z;
  directories_ignored : Z;
  files_found : Z;
  files_ignored : Z;
  time_last : Z;
  status : string;
  progress : Q;
  progress_reports : list Q;
  next_data : nat;
  trace : list Out
}.

Definition set_items_created (v : list GFile) (fs : TrackerMinerFSPrivate) :=
  mkPrivate v (items_updated fs) (items_deleted fs) (items_moved fs)
    (directories fs) (current_directory fs) (timer fs) (crawl_directories_id
    fs) (item_queues_handler_id fs) (throttle fs) (processing_pool fs)
    (pool_limit fs) (been_started fs) (been_crawled fs) (shown_totals fs)
    (is_paused fs) (is_crawling fs) (total_directories_found fs)
    (total_directories_ignored fs) (total_files_found fs) (total_files_ignored
    fs) (directories_found fs) (directories_ignored fs) (files_found fs)
    (files_ignored fs) (time_last fs) (status fs) (progress fs)
    (progress_reports fs) (next_data fs) (trace fs).

Definition set_items_updated (v : list GFile) (fs : TrackerMinerFSPrivate) :=
  mkPrivate (items_created fs) v (items_deleted fs) (items_moved fs)
    (directories fs) (current_directory fs) (timer fs) (crawl_directories_id
    fs) (item_queues_handler_id fs) (throttle fs) (processing_pool fs)
    (pool_limit fs) (been_started fs) (been_crawled fs) (shown_totals fs)
    (is_paused fs) (is_crawling fs) (total_directories_found fs)
    (total_directories_ignored fs) (total_files_found fs) (total_files_ignored
    fs) (directories_found fs) (directories_ignored fs) (files_found fs)
    (files_ignored fs) (time_last fs) (status fs) (progress fs)
    (progress_reports fs) (next_data fs) (trace fs).

Definition set_items_deleted (v : list GFile) (fs : TrackerMinerFSPrivate) :=
  mkPrivate (items_created fs) (items_updated fs) v (items_moved fs)
    (directories fs) (current_directory fs) (timer fs) (crawl_directories_id
    fs) (item_queues_handler_id fs) (throttle fs) (processing_pool fs)
    (pool_limit fs) (been_started fs) (been_crawled fs) (shown_totals fs)
    (is_paused fs) (is_crawling fs) (total_directories_found fs)
    (total_directories_ignored fs) (total_files_found fs) (total_files_ignored
    fs) (directories_found fs) (directories_ignored fs) (files_found fs)
    (files_ignored fs) (time_last fs) (status fs) (progress fs)
    (progress_reports fs) (next_data fs) (trace fs).

Definition set_items_moved (v : list ItemMovedData) (fs : TrackerMinerFSPrivate) :=
  mkPrivate (items_created fs) (items_updated fs) (items_deleted fs) v
    (directories fs) (current_directory fs) (timer fs) (crawl_directories_id
    fs) (item_queues_handler_id fs) (throttle fs) (processing_pool fs)
    (pool_limit fs) (been_started fs) (been_crawled fs) (shown_totals fs)
    (is_paused fs) (is_crawling fs) (total_directories_found fs)
    (total_directories_ignored fs) (total_files_found fs) (total_files_ignored
    fs) (directories_found fs) (directories_ignored fs) (files_found fs)
    (files_ignored fs) (time_last fs) (status fs) (progress fs)
    (progress_reports fs) (next_data fs) (trace fs).

Definition set_directories (v : list DirectoryData) (fs : TrackerMinerFSPrivate) :=
  mkPrivate (items_created fs) (items_updated fs) (items_deleted fs)
    (items_moved fs) v (current_directory fs) (timer fs) (crawl_directories_id
    fs) (item_queues_handler_id fs) (throttle fs) (processing_pool fs)
    (pool_limit fs) (been_started fs) (been_crawled fs) (shown_totals fs)
    (is_paused fs) (is_crawling fs) (total_directories_found fs)
    (total_directories_ignored fs) (total_files_found fs) (total_files_ignored
    fs) (directories_found fs) (directories_ignored fs) (files_found fs)
    (files_ignored fs) (time_last fs) (status fs) (progress fs)
    (progress_reports fs) (next_data fs) (trace fs).

Definition set_current_directory (v : option DirectoryData) (fs : TrackerMinerFSPrivate) :=
  mkPrivate (items_created fs) (items_updated fs) (items_deleted fs)
    (items_moved fs) (directories fs) v (timer fs) (crawl_directories_id fs)
    (item_queues_handler_id fs) (throttle fs) (processing_pool fs) (pool_limit
    fs) (been_started fs) (been_crawled fs) (shown_totals fs) (is_paused fs)
    (is_crawling fs) (total_directories_found fs) (total_directories_ignored
    fs) (total_files_found fs) (total_files_ignored fs) (directories_found fs)
    (directories_ignored fs) (files_found fs) (files_ignored fs) (time_last
    fs) (status fs) (progress fs) (progress_reports fs) (next_data fs) (trace
    fs).

Definition set_timer (v : bool) (fs : TrackerMinerFSPrivate) :=
  mkPrivate (items_created fs) (items_updated fs) (items_deleted fs)
    (items_moved fs) (directories fs) (current_directory fs) v
    (crawl_directories_id fs) (item_queues_handler_id fs) (throttle fs)
    (processing_pool fs) (pool_limit fs) (been_started fs) (been_crawled fs)
    (shown_totals fs) (is_paused fs) (is_crawling fs) (total_directories_found
    fs) (total_directories_ignored fs) (total_files_found fs)
    (total_files_ignored fs) (directories_found fs) (directories_ignored fs)
    (files_found fs) (files_ignored fs) (time_last fs) (status fs) (progress
    fs) (progress_reports fs) (next_data fs) (trace fs).

Definition set_crawl_directories_id (v : option Source) (fs : TrackerMinerFSPrivate) :=
  mkPrivate (items_created fs) (items_updated fs) (items_deleted fs)
    (items_moved fs) (directories fs) (current_directory fs) (timer fs) v
    (item_queues_handler_id fs) (throttle fs) (processing_pool fs) (pool_limit
    fs) (been_started fs) (been_crawled fs) (shown_totals fs) (is_paused fs)
    (is_crawling fs) (total_directories_found fs) (total_directories_ignored
    fs) (total_files_found fs) (total_files_ignored fs) (directories_found fs)
    (directories_ignored fs) (files_found fs) (files_ignored fs) (time_last
    fs) (status fs) (progress fs) (progress_reports fs) (next_data fs) (trace
    fs).

Definition set_item_queues_handler_id (v : option Source) (fs : TrackerMinerFSPrivate) :=
  mkPrivate (items_created fs) (items_updated fs) (items_deleted fs)
    (items_moved fs) (directories fs) (current_directory fs) (timer fs)
    (crawl_directories_id fs) v (throttle fs) (processing_pool fs) (pool_limit
    fs) (been_started fs) (been_crawled fs) (shown_totals fs) (is_paused fs)
    (is_crawling fs) (total_directories_found fs) (total_directories_ignored
    fs) (total_files_found fs) (total_files_ignored fs) (directories_found fs)
    (directories_ignored fs) (files_found fs) (files_ignored fs) (time_last
    fs) (status fs) (progress fs) (progress_reports fs) (next_data fs) (trace
    fs).

Definition set_throttle (v : gdouble) (fs : TrackerMinerFSPrivate) :=
  mkPrivate (items_created fs) (items_updated fs) (items_deleted fs)
    (items_moved fs) (directories fs) (current_directory fs) (timer fs)
    (crawl_directories_id fs) (item_queues_handler_id fs) v (processing_pool
    fs) (pool_limit fs) (been_started fs) (been_crawled fs) (shown_totals fs)
    (is_paused fs) (is_crawling fs) (total_directories_found fs)
    (total_directories_ignored fs) (total_files_found fs) (total_files_ignored
    fs) (directories_found fs) (directories_ignored fs) (files_found fs)
    (files_ignored fs) (time_last fs) (status fs) (progress fs)
    (progress_reports fs) (next_data fs) (trace fs).

Definition set_processing_pool (v : list ProcessData) (fs : TrackerMinerFSPrivate) :=
  mkPrivate (items_created fs) (items_updated fs) (items_deleted fs)
    (items_moved fs) (directories fs) (current_directory fs) (timer fs)
    (crawl_directories_id fs) (item_queues_handler_id fs) (throttle fs) v
    (pool_limit fs) (been_started fs) (been_crawled fs) (shown_totals fs)
    (is_paused fs) (is_crawling fs) (total_directories_found fs)
    (total_directories_ignored fs) (total_files_found fs) (total_files_ignored
    fs) (directories_found fs) (directories_ignored fs) (files_found fs)
    (files_ignored fs) (time_last fs) (status fs) (progress fs)
    (progress_reports fs) (next_data fs) (trace fs).

Definition set_pool_limit (v : Z) (fs : TrackerMinerFSPrivate) :=
  mkPrivate (items_created fs) (items_updated fs) (items_deleted fs)
    (items_moved fs) (directories fs) (current_directory fs) (timer fs)
    (crawl_directories_id fs) (item_queues_handler_id fs) (throttle fs)
    (processing_pool fs) v (been_started fs) (been_crawled fs) (shown_totals
    fs) (is_paused fs) (is_crawling fs) (total_directories_found fs)
    (total_directories_ignored fs) (total_files_found fs) (total_files_ignored
    fs) (directories_found fs) (directories_ignored fs) (files_found fs)
    (files_ignored fs) (time_last fs) (status fs) (progress fs)
    (progress_reports fs) (next_data fs) (trace fs).

Definition set_been_started (v : bool) (fs : TrackerMinerFSPrivate) :=
  mkPrivate (items_created fs) (items_updated fs) (items_deleted fs)
    (items_moved fs) (directories fs) (current_directory fs) (timer fs)
    (crawl_directories_id fs) (item_queues_handler_id fs) (throttle fs)
    (processing_pool fs) (pool_limit fs) v (been_crawled fs) (shown_totals fs)
    (is_paused fs) (is_crawling fs) (total_directories_found fs)
    (total_directories_ignored fs) (total_files_found fs) (total_files_ignored
    fs) (directories_found fs) (directories_ignored fs) (files_found fs)
    (files_ignored fs) (time_last fs) (status fs) (progress fs)
    (progress_reports fs) (next_data fs) (trace fs).

Definition set_been_crawled (v : bool) (fs : TrackerMinerFSPrivate) :=
  mkPrivate (items_created fs) (items_updated fs) (items_deleted fs)
    (items_moved fs) (directories fs) (current_directory fs) (timer fs)
    (crawl_directories_id fs) (item_queues_handler_id fs) (throttle fs)
    (processing_pool fs) (pool_limit fs) (been_started fs) v (shown_totals fs)
    (is_paused fs) (is_crawling fs) (total_directories_found fs)
    (total_directories_ignored fs) (total_files_found fs) (total_files_ignored
    fs) (directories_found fs) (directories_ignored fs) (files_found fs)
    (files_ignored fs) (time_last fs) (status fs) (progress fs)
    (progress_reports fs) (next_data fs) (trace fs).

Definition set_shown_totals (v : bool) (fs : TrackerMinerFSPrivate) :=
  mkPrivate (items_created fs) (items_updated fs) (items_deleted fs)
    (items_moved fs) (directories fs) (current_directory fs) (timer fs)
    (crawl_directories_id fs) (item_queues_handler_id fs) (throttle fs)
    (processing_pool fs) (pool_limit fs) (been_started fs) (been_crawled fs) v
    (is_paused fs) (is_crawling fs) (total_directories_found fs)
    (total_directories_ignored fs) (total_files_found fs) (total_files_ignored
    fs) (directories_found fs) (directories_ignored fs) (files_found fs)
    (files_ignored fs) (time_last fs) (status fs) (progress fs)
    (progress_reports fs) (next_data fs) (trace fs).

Definition set_is_paused (v : bool) (fs : TrackerMinerFSPrivate) :=
  mkPrivate (items_created fs) (items_updated fs) (items_deleted fs)
    (items_moved fs) (directories fs) (current_directory fs) (timer fs)
    (crawl_directories_id fs) (item_queues_handler_id fs) (throttle fs)
    (processing_pool fs) (pool_limit fs) (been_started fs) (been_crawled fs)
    (shown_totals fs) v (is_crawling fs) (total_directories_found fs)
    (total_directories_ignored fs) (total_files_found fs) (total_files_ignored
    fs) (directories_found fs) (directories_ignored fs) (files_found fs)
    (files_ignored fs) (time_last fs) (status fs) (progress fs)
    (progress_reports fs) (next_data fs) (trace fs).

Definition set_is_crawling (v : bool) (fs : TrackerMinerFSPrivate) :=
  mkPrivate (items_created fs) (items_updated fs) (items_deleted fs)
    (items_moved fs) (directories fs) (current_directory fs) (timer fs)
    (crawl_directories_id fs) (item_queues_handler_id fs) (throttle fs)
    (processing_pool fs) (pool_limit fs) (been_started fs) (been_crawled fs)
    (shown_totals fs) (is_paused fs) v (total_directories_found fs)
    (total_directories_ignored fs) (total_files_found fs) (total_files_ignored
    fs) (directories_found fs) (directories_ignored fs) (files_found fs)
    (files_ignored fs) (time_last fs) (status fs) (progress fs)
    (progress_reports fs) (next_data fs) (trace fs).

Definition set_total_directories_found (v : Z) (fs : TrackerMinerFSPrivate) :=
  mkPrivate (items_created fs) (items_updated fs) (items_deleted fs)
    (items_moved fs) (directories fs) (current_directory fs) (timer fs)
    (crawl_directories_id fs) (item_queues_handler_id fs) (throttle fs)
    (processing_pool fs) (pool_limit fs) (been_started fs) (been_crawled fs)
    (shown_totals fs) (is_paused fs) (is_crawling fs) v
    (total_directories_ignored fs) (total_files_found fs) (total_files_ignored
    fs) (directories_found fs) (directories_ignored fs) (files_found fs)
    (files_ignored fs) (time_last fs) (status fs) (progress fs)
    (progress_reports fs) (next_data fs) (trace fs).

Definition set_total_directories_ignored (v : Z) (fs : TrackerMinerFSPrivate) :=
  mkPrivate (items_created fs) (items_updated fs) (items_deleted fs)
    (items_moved fs) (directories fs) (current_directory fs) (timer fs)
    (crawl_directories_id fs) (item_queues_handler_id fs) (throttle fs)
    (processing_pool fs) (pool_limit fs) (been_started fs) (been_crawled fs)
    (shown_totals fs) (is_paused fs) (is_crawling fs) (total_directories_found
    fs) v (total_files_found fs) (total_files_ignored fs) (directories_found
    fs) (directories_ignored fs) (files_found fs) (files_ignored fs)
    (time_last fs) (status fs) (progress fs) (progress_reports fs) (next_data
    fs) (trace fs).

Definition set_total_files_found (v : Z) (fs : TrackerMinerFSPrivate) :=
  mkPrivate (items_created fs) (items_updated fs) (items_deleted fs)
    (items_moved fs) (directories fs) (current_directory fs) (timer fs)
    (crawl_directories_id fs) (item_queues_handler_id fs) (throttle fs)
    (processing_pool fs) (pool_limit fs) (been_started fs) (been_crawled fs)
    (shown_totals fs) (is_paused fs) (is_crawling fs) (total_directories_found
    fs) (total_directories_ignored fs) v (total_files_ignored fs)
    (directories_found fs) (directories_ignored fs) (files_found fs)
    (files_ignored fs) (time_last fs) (status fs) (progress fs)
    (progress_reports fs) (next_data fs) (trace fs).

Definition set_total_files_ignored (v : Z) (fs : TrackerMinerFSPrivate) :=
  mkPrivate (items_created fs) (items_updated fs) (items_deleted fs)
    (items_moved fs) (directories fs) (current_directory fs) (timer fs)
    (crawl_directories_id fs) (item_queues_handler_id fs) (throttle fs)
    (processing_pool fs) (pool_limit fs) (been_started fs) (been_crawled fs)
    (shown_totals fs) (is_paused fs) (is_crawling fs) (total_directories_found
    fs) (total_directories_ignored fs) (total_files_found fs) v
    (directories_found fs) (directories_ignored fs) (files_found fs)
    (files_ignored fs) (time_last fs) (status fs) (progress fs)
    (progress_reports fs) (next_data fs) (trace fs).

Definition set_directories_found (v : Z) (fs : TrackerMinerFSPrivate) :=
  mkPrivate (items_created fs) (items_updated fs) (items_deleted fs)
    (items_moved fs) (directories fs) (current_directory fs) (timer fs)
    (crawl_directories_id fs) (item_queues_handler_id fs) (throttle fs)
    (processing_pool fs) (pool_limit fs) (been_started fs) (been_crawled fs)
    (shown_totals fs) (is_paused fs) (is_crawling fs) (total_directories_found
    fs) (total_directories_ignored fs) (total_files_found fs)
    (total_files_ignored fs) v (directories_ignored fs) (files_found fs)
    (files_ignored fs) (time_last fs) (status fs) (progress fs)
    (progress_reports fs) (next_data fs) (trace fs).

Definition set_directories_ignored (v : Z) (fs : TrackerMinerFSPrivate) :=
  mkPrivate (items_created fs) (items_updated fs) (items_deleted fs)
    (items_moved fs) (directories fs) (current_directory fs) (timer fs)
    (crawl_directories_id fs) (item_queues_handler_id fs) (throttle fs)
    (processing_pool fs) (pool_limit fs) (been_started fs) (been_crawled fs)
    (shown_totals fs) (is_paused fs) (is_crawling fs) (total_directories_found
    fs) (total_directories_ignored fs) (total_files_found fs)
    (total_files_ignored fs) (directories_found fs) v (files_found fs)
    (files_ignored fs) (time_last fs) (status fs) (progress fs)
    (progress_reports fs) (next_data fs) (trace fs).

Definition set_files_found (v : Z) (fs : TrackerMinerFSPrivate) :=
  mkPrivate (items_created fs) (items_updated fs) (items_deleted fs)
    (items_moved fs) (directories fs) (current_directory fs) (timer fs)
    (crawl_directories_id fs) (item_queues_handler_id fs) (throttle fs)
    (processing_pool fs) (pool_limit fs) (been_started fs) (been_crawled fs)
    (shown_totals fs) (is_paused fs) (is_crawling fs) (total_directories_found
    fs) (total_directories_ignored fs) (total_files_found fs)
    (total_files_ignored fs) (directories_found fs) (directories_ignored fs) v
    (files_ignored fs) (time_last fs) (status fs) (progress fs)
    (progress_reports fs) (next_data fs) (trace fs).

Definition set_files_ignored (v : Z) (fs : TrackerMinerFSPrivate) :=
  mkPrivate (items_created fs) (items_updated fs) (items_deleted fs)
    (items_moved fs) (directories fs) (current_directory fs) (timer fs)
    (crawl_directories_id fs) (item_queues_handler_id fs) (throttle fs)
    (processing_pool fs) (pool_limit fs) (been_started fs) (been_crawled fs)
    (shown_totals fs) (is_paused fs) (is_crawling fs) (total_directories_found
    fs) (total_directories_ignored fs) (total_files_found fs)
    (total_files_ignored fs) (directories_found fs) (directories_ignored fs)
    (files_found fs) v (time_last fs) (status fs) (progress fs)
    (progress_reports fs) (next_data fs) (trace fs).

Definition set_time_last (v : Z) (fs : TrackerMinerFSPrivate) :=
  mkPrivate (items_created fs) (items_updated fs) (items_deleted fs)
    (items_moved fs) (directories fs) (current_directory fs) (timer fs)
    (crawl_directories_id fs) (item_queues_handler_id fs) (throttle fs)
    (processing_pool fs) (pool_limit fs) (been_started fs) (been_crawled fs)
    (shown_totals fs) (is_paused fs) (is_crawling fs) (total_directories_found
    fs) (total_directories_ignored fs) (total_files_found fs)
    (total_files_ignored fs) (directories_found fs) (directories_ignored fs)
    (files_found fs) (files_ignored fs) v (status fs) (progress fs)
    (progress_reports fs) (next_data fs) (trace fs).

Definition set_status (v : string) (fs : TrackerMinerFSPrivate) :=
  mkPrivate (items_created fs) (items_updated fs) (items_deleted fs)
    (items_moved fs) (directories fs) (current_directory fs) (timer fs)
    (crawl_directories_id fs) (item_queues_handler_id fs) (throttle fs)
    (processing_pool fs) (pool_limit fs) (been_started fs) (been_crawled fs)
    (shown_totals fs) (is_paused fs) (is_crawling fs) (total_directories_found
    fs) (total_directories_ignored fs) (total_files_found fs)
    (total_files_ignored fs) (directories_found fs) (directories_ignored fs)
    (files_found fs) (files_ignored fs) (time_last fs) v (progress fs)
    (progress_reports fs) (next_data fs) (trace fs).

Definition set_progress (v : Q) (fs : TrackerMinerFSPrivate) :=
  mkPrivate (items_created fs) (items_updated fs) (items_deleted fs)
    (items_moved fs) (directories fs) (current_directory fs) (timer fs)
    (crawl_directories_id fs) (item_queues_handler_id fs) (throttle fs)
    (processing_pool fs) (pool_limit fs) (been_started fs) (been_crawled fs)
    (shown_totals fs) (is_paused fs) (is_crawling fs) (total_directories_found
    fs) (total_directories_ignored fs) (total_files_found fs)
    (total_files_ignored fs) (directories_found fs) (directories_ignored fs)
    (files_found fs) (files_ignored fs) (time_last fs) (status fs) v
    (progress_reports fs) (next_data fs) (trace fs).

Definition set_progress_reports (v : list Q) (fs : TrackerMinerFSPrivate) :=
  mkPrivate (items_created fs) (items_updated fs) (items_deleted fs)
    (items_moved fs) (directories fs) (current_directory fs) (timer fs)
    (crawl_directories_id fs) (item_queues_handler_id fs) (throttle fs)
    (processing_pool fs) (pool_limit fs) (been_started fs) (been_crawled fs)
    (shown_totals fs) (is_paused fs) (is_crawling fs) (total_directories_found
    fs) (total_directories_ignored fs) (total_files_found fs)
    (total_files_ignored fs) (directories_found fs) (directories_ignored fs)
    (files_found fs) (files_ignored fs) (time_last fs) (status fs) (progress
    fs) v (next_data fs) (trace fs).

Definition set_next_data (v : nat) (fs : TrackerMinerFSPrivate) :=
  mkPrivate (items_created fs) (items_updated fs) (items_deleted fs)
    (items_moved fs) (directories fs) (current_directory fs) (timer fs)
    (crawl_directories_id fs) (item_queues_handler_id fs) (throttle fs)
    (processing_pool fs) (pool_limit fs) (been_started fs) (been_crawled fs)
    (shown_totals fs) (is_paused fs) (is_crawling fs) (total_directories_found
    fs) (total_directories_ignored fs) (total_files_found fs)
    (total_files_ignored fs) (directories_found fs) (directories_ignored fs)
    (files_found fs) (files_ignored fs) (time_last fs) (status fs) (progress
    fs) (progress_reports fs) v (trace fs).

Definition set_trace (v : list Out) (fs : TrackerMinerFSPrivate) :=
  mkPrivate (items_created fs) (items_updated fs) (items_deleted fs)
    (items_moved fs) (directories fs) (current_directory fs) (timer fs)
    (crawl_directories_id fs) (item_queues_handler_id fs) (throttle fs)
    (processing_pool fs) (pool_limit fs) (been_started fs) (been_crawled fs)
    (shown_totals fs) (is_paused fs) (is_crawling fs) (total_directories_found
    fs) (total_directories_ignored fs) (total_files_found fs)
    (total_files_ignored fs) (directories_found fs) (directories_ignored fs)
    (files_found fs) (files_ignored fs) (time_last fs) (status fs) (progress
    fs) (progress_reports fs) (next_data fs) v.

(** What a [::process-file] handler did before it returned: whether it
    called [tracker_miner_fs_notify_file] on the file from inside the
    emission (and with which error), and the boolean it returned. *)
Record ProcessAnswer : Type := {
  sync_notify : option (option GError);
  processing : bool
}.

(** The collaborators.  [store_exists] is the answer [item_query_exists]
    waits for in its own main loop; the wait is taken as one step.
    [store_children] answers the query for the resources whose
    [nfo:belongsToContainer] is the given URI: [None] is a query that
    failed with an error, [Some rows] one that succeeded (a NULL result is
    the empty list: the callback treats the two alike). *)
Record Env : Type := {
  check_file : GFile -> bool;
  check_directory : GFile -> bool;
  monitor_directory : GFile -> bool;
  process_file : GFile -> ProcessAnswer;
  builder_get_result : GFile -> string;
  store_exists : GFile -> bool;
  store_children : string -> option (list string);
  tracker_file_is_locked : GFile -> bool;
  query_display_name : GFile -> option string;
  g_strescape : string -> string;
  tracker_crawler_start : GFile -> bool -> bool;
  time_now : Z
}.

Definition emit (o : Out) (fs : TrackerMinerFSPrivate) : TrackerMinerFSPrivate :=
  set_trace (trace fs ++ [o]) fs.

(** [tracker_miner_fs_init] followed by the construct-time property, the
    pool limit. *)
Definition tracker_miner_fs_init (limit : Z) : TrackerMinerFSPrivate :=
  mkPrivate [] [] [] [] [] None false None None gdouble_zero [] limit
            false false false false false 0 0 0 0 0 0 0 0 0 EmptyString 0%Q []
            O [].

(** [g_object_set (fs, "progress", v, ...)]: the value is stored and the
    listeners of the property are told; [progress_reports] keeps, in
    order, every value they were told. *)
Definition g_object_set_progress (v : Q) (fs : TrackerMinerFSPrivate) :=
  set_progress_reports (progress_reports fs ++ [v]) (set_progress v fs).

Definition g_list_length {A : Type} (l : list A) : Z :=
  guint (Z.of_nat (List.length l)).

Definition g_queue_get_length {A : Type} (q : list A) : Z :=
  guint (Z.of_nat (List.length q)).

(** [g_list_remove] on the pool: drops the first link holding the pointer. *)
Fixpoint g_list_remove (l : list ProcessData) (data : nat) : list ProcessData :=
  match l with
  | [] => []
  | d :: l' => if Nat.eqb (pd_data d) data then l' else d :: g_list_remove l' data
  end.

(** Conversion of a [gdouble] to [guint]: the fraction is cut off.  C
    leaves the conversion undefined for a value that does not fit, for an
    infinity and for NaN; here the first wraps and the others give 0. *)
Definition double_to_guint (x : gdouble) : Z :=
  match x with
  | S754_finite s m e =>
    let magnitude := if 0 <=? e then Z.pos m * 2 ^ e
                     else Z.pos m / 2 ^ (- e) in
    guint (if s then - magnitude else magnitude)
  | _ => 0
  end.

(** The macro [CLAMP]: a comparison with NaN is false, so NaN passes. *)
Definition CLAMP (x low high : gdouble) : gdouble :=
  if SFltb high x then high
  else if SFltb x low then low else x.

(** ** The miner *)

Section Miner.

(** [MAX_TIMEOUT_INTERVAL] is defined in a header that is not among the
    sources at hand; everything below is parametric in it. *)
Variable MAX_TIMEOUT_INTERVAL : Z.

Definition process_data_new (fs : TrackerMinerFSPrivate) (file : GFile)
    (cancellable : option bool) (builder : bool)
  : ProcessData * TrackerMinerFSPrivate :=
  ({| pd_data := next_data fs; pd_file := file;
      pd_cancellable := cancellable; pd_builder := builder |},
   set_next_data (S (next_data fs)) fs).

Definition process_data_find (fs : TrackerMinerFSPrivate) (file : GFile)
  : option ProcessData :=
  find (fun data => g_file_equal (pd_file data) file) (processing_pool fs).

Definition process_print_stats (fs : TrackerMinerFSPrivate) :=
  if negb (shown_totals fs) then set_shown_totals true fs else fs.

Definition tracker_miner_commit (fs : TrackerMinerFSPrivate) := emit Commit fs.

Definition process_stop (fs : TrackerMinerFSPrivate) :=
  let fs := process_print_stats fs in
  let fs := tracker_miner_commit fs in
  let fs := set_status "Idle" (g_object_set_progress 1%Q fs) in
  let fs := emit (Finished (total_directories_found fs)
                           (total_directories_ignored fs)
                           (total_files_found fs)
                           (total_files_ignored fs)) fs in
  let fs := if timer fs then set_timer false fs else fs in
  let fs := set_total_directories_found 0 fs in
  let fs := set_total_directories_ignored 0 fs in
  let fs := set_total_files_found 0 fs in
  let fs := set_total_files_ignored 0 fs in
  set_been_crawled true fs.

Definition _tracker_idle_add (fs : TrackerMinerFSPrivate) (func : SourceFunc)
  : Source :=
  let interval :=
    double_to_guint
      (gdouble_mul (gdouble_of_int MAX_TIMEOUT_INTERVAL) (throttle fs)) in
  if interval =? 0 then IdleSource func else TimeoutSource interval func.

Definition item_queue_handlers_set_up (fs : TrackerMinerFSPrivate) :=
  match item_queues_handler_id fs with
  | Some _ => fs
  | None =>
    if is_paused fs then fs
    else if g_list_length (processing_pool fs) >=? pool_limit fs then fs
    else
      let fs := if negb (String.eqb (status fs) "Processing files")
                then set_status "Processing files" fs else fs in
      set_item_queues_handler_id
        (Some (_tracker_idle_add fs item_queue_handlers_cb_func)) fs
  end.

(** [data] is the pointer handed to the batch update as user data. *)
Definition sparql_update_cb (fs : TrackerMinerFSPrivate) (data : nat)
    (error : option GError) :=
  let fs := match error with
            | Some _ => emit (Critical "Could not execute sparql") fs
            | None => if been_crawled fs then tracker_miner_commit fs else fs
            end in
  let fs := set_processing_pool (g_list_remove (processing_pool fs) data) fs in
  item_queue_handlers_set_up fs.

Definition item_add_or_update_cb (env : Env) (fs : TrackerMinerFSPrivate)
    (data : ProcessData) (error : option GError) :=
  let uri := g_file_get_uri (pd_file data) in
  match error with
  | Some e =>
    let fs := if e =? G_IO_ERROR_NOT_FOUND then fs
              else emit (Critical ("Could not process '" +++ uri +++ "'")) fs in
    let fs := set_processing_pool
                (g_list_remove (processing_pool fs) (pd_data data)) fs in
    item_queue_handlers_set_up fs
  | None =>
    let full_sparql := "DROP GRAPH <" +++ uri +++ "> "
                       +++ builder_get_result env (pd_file data) in
    emit (BatchUpdate full_sparql (pd_data data)) fs
  end.

Definition tracker_miner_fs_notify_file (env : Env) (fs : TrackerMinerFSPrivate)
    (file : GFile) (error : option GError) :=
  match process_data_find fs file with
  | None =>
    emit (Critical ("file '" +++ g_file_get_uri file
                    +++ "' was not in the processing queue")) fs
  | Some data => item_add_or_update_cb env fs data error
  end.

Definition item_add_or_update (env : Env) (fs : TrackerMinerFSPrivate)
    (file : GFile) : bool * TrackerMinerFSPrivate :=
  let '(data, fs) := process_data_new fs file (Some false) true in
  let fs := set_processing_pool (data :: processing_pool fs) fs in
  let fs := emit (ProcessFile file) fs in
  let answer := process_file env file in
  let fs := match sync_notify answer with
            | Some error => tracker_miner_fs_notify_file env fs file error
            | None => fs
            end in
  if negb (processing answer) then
    match process_data_find fs file with
    | None =>
      (true, emit (Critical ("FALSE in ::process-file for '"
                             +++ g_file_get_uri file
                             +++ "' after tracker_miner_fs_notify_file()")) fs)
    | Some data =>
      (true, set_processing_pool
               (g_list_remove (processing_pool fs) (pd_data data)) fs)
    end
  else
    let length := g_list_length (processing_pool fs) in
    if length >=? pool_limit fs then (false, fs) else (true, fs).

Definition item_query_exists (env : Env) (file : GFile) : bool :=
  store_exists env file.

Definition item_remove (env : Env) (fs : TrackerMinerFSPrivate) (file : GFile)
  : bool * TrackerMinerFSPrivate :=
  let uri := g_file_get_uri file in
  if negb (item_query_exists env file) then (true, fs)
  else
    let slash_uri := if negb (g_str_has_suffix uri "/")
                     then uri +++ "/" else uri in
    let sparql := EmptyString in
    let sparql := sparql +++ "DELETE FROM <" +++ uri
        +++ "> { ?u a rdfs:Resource } "
        +++ "WHERE { ?u nfo:belongsToContainer ?p . FILTER (fn:starts-with (?p, "
        +++ dquote +++ slash_uri +++ dquote +++ ")) } " in
    let sparql := sparql +++ "DELETE FROM <" +++ uri +++ "> { <" +++ uri
        +++ "> a rdfs:Resource }" in
    let '(data, fs) := process_data_new fs file None false in
    let fs := set_processing_pool (data :: processing_pool fs) fs in
    let fs := emit (BatchUpdate sparql (pd_data data)) fs in
    (false, fs).

(** *** Moving an item: the recursive URI update

    The recursion of the source runs through asynchronous queries inside a
    nested main loop.  The state of that loop is the [RecursiveMoveData]
    together with the queries still outstanding, oldest first: each one is
    the URI whose children were asked for. *)

Definition MoveState : Type := (RecursiveMoveData * list string)%type.

Definition item_update_uri_recursively (st : MoveState)
    (source_uri uri : string) : MoveState :=
  let '(move_data, outstanding) := st in
  ({| rmd_level := rmd_level move_data + 1;
      rmd_sparql := rmd_sparql move_data +++ " <" +++ source_uri
                    +++ "> tracker:uri <" +++ uri +++ "> .";
      rmd_source_uri := rmd_source_uri move_data;
      rmd_uri := rmd_uri move_data |},
   outstanding ++ [source_uri]).

Definition item_update_uri_recursively_cb (fs : TrackerMinerFSPrivate)
    (st : MoveState) (query_results : option (list string))
  : TrackerMinerFSPrivate * MoveState :=
  let '(fs, st) :=
    match query_results with
    | None => (emit (Critical "Could not query children") fs, st)
    | Some rows =>
      fold_left
        (fun (acc : TrackerMinerFSPrivate * MoveState)
             (child_source_uri : string) =>
           let '(fs, st) := acc in
           let data := fst st in
           if negb (g_str_has_prefix child_source_uri (rmd_source_uri data))
           then
             (emit (Warning ("Child URI '" +++ child_source_uri
                             +++ "' does not start with parent URI '"
                             +++ rmd_source_uri data +++ "'")) fs, st)
           else
             let child_uri :=
               rmd_uri data
               +++ str_offset child_source_uri
                     (String.length (rmd_source_uri data)) in
             (fs, item_update_uri_recursively st child_source_uri child_uri))
        rows (fs, st)
    end in
  let '(data, outstanding) := st in
  (fs,
   ({| rmd_level := rmd_level data - 1;
       rmd_sparql := rmd_sparql data;
       rmd_source_uri := rmd_source_uri data;
       rmd_uri := rmd_uri data |},
    outstanding)).

(** [g_main_loop_run] until a callback brings [level] to zero and quits the
    loop.  [None]: the loop is still running when the fuel is spent, or it
    can never be quit. *)
Fixpoint g_main_loop_run (fuel : nat) (env : Env)
    (fs : TrackerMinerFSPrivate) (st : MoveState)
  : option (TrackerMinerFSPrivate * RecursiveMoveData) :=
  match fuel with
  | O => None
  | S fuel =>
    match snd st with
    | [] => None
    | query :: outstanding =>
      let '(fs', st') :=
        item_update_uri_recursively_cb fs (fst st, outstanding)
          (store_children env query) in
      if rmd_level (fst st') =? 0 then Some (fs', fst st')
      else g_main_loop_run fuel env fs' st'
    end
  end.

Definition item_move (fuel : nat) (env : Env) (fs : TrackerMinerFSPrivate)
    (file source_file : GFile) : option (bool * TrackerMinerFSPrivate) :=
  let uri := g_file_get_uri file in
  let source_uri := g_file_get_uri source_file in
  if negb (item_query_exists env source_file) then
    Some (item_add_or_update env fs file)
  else
    match query_display_name env file with
    | None => Some (item_remove env fs source_file)
    | Some display_name =>
      let sparql := EmptyString in
      let sparql := sparql +++ "DELETE FROM <" +++ source_uri +++ "> { <"
          +++ source_uri +++ "> nfo:fileName ?o } WHERE { <" +++ source_uri
          +++ "> nfo:fileName ?o }" in
      let sparql := sparql +++ " INSERT INTO <" +++ uri +++ "> {" in
      let escaped_filename := g_strescape env display_name in
      let sparql := sparql +++ " <" +++ source_uri +++ "> nfo:fileName "
          +++ dquote +++ escaped_filename +++ dquote +++ " ." in
      let move_data := {| rmd_level := 0; rmd_sparql := sparql;
                          rmd_source_uri := source_uri; rmd_uri := uri |} in
      let st := item_update_uri_recursively (move_data, []) source_uri uri in
      match g_main_loop_run fuel env fs st with
      | None => None
      | Some (fs, move_data) =>
        let sparql := rmd_sparql move_data +++ " }" in
        let '(data, fs) := process_data_new fs file None false in
        let fs := set_processing_pool (data :: processing_pool fs) fs in
        let fs := emit (BatchUpdate sparql (pd_data data)) fs in
        Some (true, fs)
      end
    end.

(** *** The queue handler *)

Definition item_queue_get_next_file (fs : TrackerMinerFSPrivate)
  : Queue * option GFile * option GFile * TrackerMinerFSPrivate :=
  match items_deleted fs with
  | queue_file :: rest =>
    (QUEUE_DELETED, Some queue_file, None, set_items_deleted rest fs)
  | [] =>
    match items_created fs with
    | queue_file :: rest =>
      (QUEUE_CREATED, Some queue_file, None, set_items_created rest fs)
    | [] =>
      match items_updated fs with
      | queue_file :: rest =>
        (QUEUE_UPDATED, Some queue_file, None, set_items_updated rest fs)
      | [] =>
        match items_moved fs with
        | data :: rest =>
          (QUEUE_MOVED, Some (imd_file data), Some (imd_source_file data),
           set_items_moved rest fs)
        | [] => (QUEUE_NONE, None, None, fs)
        end
      end
    end
  end.

Definition item_queue_get_progress (fs : TrackerMinerFSPrivate) : Q :=
  let items_to_process := 0 in
  let items_total := 0 in
  let items_to_process :=
    guint (items_to_process + g_queue_get_length (items_deleted fs)) in
  let items_to_process :=
    guint (items_to_process + g_queue_get_length (items_created fs)) in
  let items_to_process :=
    guint (items_to_process + g_queue_get_length (items_updated fs)) in
  let items_to_process :=
    guint (items_to_process + g_queue_get_length (items_moved fs)) in
  let items_total := guint (items_total + total_directories_found fs) in
  let items_total := guint (items_total + total_files_found fs) in
  if (items_to_process =? 0) && (0 <? items_total) then 0%Q
  else if (items_total =? 0) || (items_total <? items_to_process) then 1%Q
  else (inject_Z (guint (items_total - items_to_process))
        / inject_Z items_total)%Q.

(** The handler returns [TRUE] to stay installed.  [None]: the nested loop
    of [item_move] did not return within the fuel; the last case of the
    match is the [g_assert_not_reached] of the switch. *)
Definition item_queue_handlers_cb (fuel : nat) (env : Env)
    (fs : TrackerMinerFSPrivate) : option (bool * TrackerMinerFSPrivate) :=
  let '(queue, file, source_file, fs) := item_queue_get_next_file fs in
  if match file with
     | Some f => tracker_file_is_locked env f
     | None => false
     end
  then Some (true, fs)
  else
    let fs := if negb (timer fs) then set_timer true fs else fs in
    let fs := if time_now env - time_last fs >=? 1
              then g_object_set_progress (item_queue_get_progress fs)
                     (set_time_last (time_now env) fs)
              else fs in
    let handled :=
      match queue, file, source_file with
      | QUEUE_NONE, _, _ =>
        let fs := if negb (is_crawling fs)
                     && match processing_pool fs with [] => true | _ => false end
                  then process_stop fs else fs in
        Some (false, fs)
      | QUEUE_MOVED, Some f, Some s => item_move fuel env fs f s
      | QUEUE_DELETED, Some f, _ => Some (item_remove env fs f)
      | QUEUE_CREATED, Some f, _ => Some (item_add_or_update env fs f)
      | QUEUE_UPDATED, Some f, _ => Some (item_add_or_update env fs f)
      | _, _, _ => None
      end in
    match handled with
    | None => None
    | Some (keep_processing, fs) =>
      if negb keep_processing then
        Some (false, set_item_queues_handler_id None fs)
      else
        Some (true, if been_crawled fs then tracker_miner_commit fs else fs)
    end.

(** *** Crawling the configured directories *)

Definition crawl_directories_start (fs : TrackerMinerFSPrivate) :=
  match crawl_directories_id fs with
  | Some _ => fs
  | None =>
    if negb (been_started fs) then fs
    else
      let fs := if negb (timer fs) then set_timer true fs else fs in
      let fs := set_directories_found 0 fs in
      let fs := set_directories_ignored 0 fs in
      let fs := set_files_found 0 fs in
      let fs := set_files_ignored 0 fs in
      set_crawl_directories_id
        (Some (_tracker_idle_add fs crawl_directories_cb_func)) fs
  end.

Definition crawl_directories_stop (fs : TrackerMinerFSPrivate) :=
  match crawl_directories_id fs with
  | None => fs
  | Some _ =>
    let fs := match current_directory fs with
              | Some _ => emit CrawlerStop fs
              | None => fs
              end in
    set_crawl_directories_id None fs
  end.

Definition crawl_directories_cb (env : Env) (fs : TrackerMinerFSPrivate)
  : bool * TrackerMinerFSPrivate :=
  match current_directory fs with
  | Some _ =>
    let fs := emit (Critical "One directory is already being processed") fs in
    (false, set_crawl_directories_id None fs)
  | None =>
    match directories fs with
    | [] =>
      let fs := item_queue_handlers_set_up fs in
      let fs := crawl_directories_stop fs in
      (false, set_crawl_directories_id None fs)
    | dd :: rest =>
      let fs := set_current_directory (Some dd) fs in
      let fs := set_directories rest fs in
      let path := g_file_get_path (dd_file dd) in
      let str := if dd_recurse dd
                 then "Crawling recursively directory '" +++ path +++ "'"
                 else "Crawling single directory '" +++ path +++ "'" in
      let fs := set_status str fs in
      let fs := emit (CrawlerStart (dd_file dd) (dd_recurse dd)) fs in
      if tracker_crawler_start env (dd_file dd) (dd_recurse dd) then
        let fs := set_is_crawling true fs in
        (false, set_crawl_directories_id None fs)
      else
        (true, set_current_directory None fs)
    end
  end.

(** [found] pairs every file of the crawler's queue with its
    [quark_ignore_file] mark. *)
Definition crawler_finished_cb (fs : TrackerMinerFSPrivate)
    (found : list (GFile * bool)) (was_interrupted : bool)
    (directories_found' directories_ignored' files_found' files_ignored' : Z) :=
  let fs := fold_left
              (fun fs (l : GFile * bool) =>
                 if negb (snd l)
                 then set_items_created (items_created fs ++ [fst l]) fs
                 else fs)
              found fs in
  let fs := set_is_crawling false fs in
  let fs := set_directories_found
              (guint (directories_found fs + directories_found')) fs in
  let fs := set_directories_ignored
              (guint (directories_ignored fs + directories_ignored')) fs in
  let fs := set_files_found (guint (files_found fs + files_found')) fs in
  let fs := set_files_ignored (guint (files_ignored fs + files_ignored')) fs in
  let fs := set_total_directories_found
              (guint (total_directories_found fs + directories_found')) fs in
  let fs := set_total_directories_ignored
              (guint (total_directories_ignored fs + directories_ignored')) fs in
  let fs := set_total_files_found
              (guint (total_files_found fs + files_found')) fs in
  let fs := set_total_files_ignored
              (guint (total_files_ignored fs + files_ignored')) fs in
  let fs := set_current_directory None fs in
  crawl_directories_start fs.

Definition tracker_miner_fs_add_directory (fs : TrackerMinerFSPrivate)
    (file : GFile) (recurse : bool) :=
  let fs := set_directories
              (directories fs ++ [{| dd_file := file; dd_recurse := recurse |}])
              fs in
  crawl_directories_start fs.

(** *** Monitor events *)

Definition should_check_file (env : Env) (file : GFile) (is_dir : bool) : bool :=
  if is_dir then check_directory env file else check_file env file.

Definition monitor_item_created_cb (env : Env) (fs : TrackerMinerFSPrivate)
    (file : GFile) (is_directory : bool) :=
  let should_process := should_check_file env file is_directory in
  if should_process then
    if is_directory then tracker_miner_fs_add_directory fs file true
    else
      let fs := set_items_created (items_created fs ++ [file]) fs in
      item_queue_handlers_set_up fs
  else fs.

Definition monitor_item_updated_cb (env : Env) (fs : TrackerMinerFSPrivate)
    (file : GFile) (is_directory : bool) :=
  let should_process := should_check_file env file is_directory in
  if should_process then
    let fs := set_items_updated (items_updated fs ++ [file]) fs in
    item_queue_handlers_set_up fs
  else fs.

Definition monitor_item_deleted_cb (env : Env) (fs : TrackerMinerFSPrivate)
    (file : GFile) (is_directory : bool) :=
  let should_process := should_check_file env file is_directory in
  if should_process then
    let fs := set_items_deleted (items_deleted fs ++ [file]) fs in
    item_queue_handlers_set_up fs
  else fs.

Definition monitor_item_moved_cb (env : Env) (fs : TrackerMinerFSPrivate)
    (file other_file : GFile) (is_directory is_source_monitored : bool) :=
  if negb is_source_monitored then
    if is_directory then tracker_miner_fs_add_directory fs other_file true
    else fs
  else
    let source_stored := item_query_exists env file in
    let should_process_other :=
      should_check_file env other_file is_directory in
    if negb source_stored && negb should_process_other then fs
    else if negb source_stored then
      if negb is_directory then
        let fs := set_items_created (items_created fs ++ [other_file]) fs in
        item_queue_handlers_set_up fs
      else tracker_miner_fs_add_directory fs other_file true
    else if negb should_process_other then
      let fs := set_items_deleted (items_deleted fs ++ [file]) fs in
      item_queue_handlers_set_up fs
    else
      let fs := set_items_moved
                  (items_moved fs
                   ++ [{| imd_file := other_file; imd_source_file := file |}])
                  fs in
      item_queue_handlers_set_up fs.

(** *** Removing a directory, throttle, pause and resume *)

Definition check_files_removal (queue : list GFile) (parent : GFile)
  : list GFile :=
  filter (fun file =>
            negb (g_file_equal file parent || g_file_has_prefix file parent))
         queue.

Definition tracker_miner_fs_remove_directory (fs : TrackerMinerFSPrivate)
    (file : GFile) : bool * TrackerMinerFSPrivate :=
  let return_val := false in
  let '(return_val, fs) :=
    match current_directory fs with
    | Some dd =>
      let current_file := dd_file dd in
      if g_file_equal file current_file || g_file_has_prefix file current_file
      then (true, emit CrawlerStop fs)
      else (return_val, fs)
    | None => (return_val, fs)
    end in
  let doomed (data : DirectoryData) :=
    g_file_equal file (dd_file data) || g_file_has_prefix file (dd_file data) in
  let return_val := return_val || existsb doomed (directories fs) in
  let fs := set_directories
              (filter (fun data => negb (doomed data)) (directories fs)) fs in
  let fs := set_items_updated (check_files_removal (items_updated fs) file) fs in
  let fs := set_items_created (check_files_removal (items_created fs) file) fs in
  let fs := set_processing_pool
              (map (fun data =>
                      if g_file_equal (pd_file data) file
                         || g_file_has_prefix (pd_file data) file
                      then {| pd_data := pd_data data;
                              pd_file := pd_file data;
                              pd_cancellable :=
                                match pd_cancellable data with
                                | Some _ => Some true
                                | None => None
                                end;
                              pd_builder := pd_builder data |}
                      else data)
                   (processing_pool fs)) fs in
  (return_val, fs).

Definition tracker_miner_fs_set_throttle (fs : TrackerMinerFSPrivate)
    (throttle' : gdouble) :=
  let throttle' := CLAMP throttle' gdouble_zero gdouble_one in
  if SFeqb (throttle fs) throttle' then fs
  else
    let fs := set_throttle throttle' fs in
    let fs := match item_queues_handler_id fs with
              | Some _ =>
                set_item_queues_handler_id
                  (Some (_tracker_idle_add fs item_queue_handlers_cb_func)) fs
              | None => fs
              end in
    match crawl_directories_id fs with
    | Some _ =>
      set_crawl_directories_id
        (Some (_tracker_idle_add fs crawl_directories_cb_func)) fs
    | None => fs
    end.

Definition miner_started (fs : TrackerMinerFSPrivate) :=
  let fs := set_been_started true fs in
  let fs := set_status "Initializing" (g_object_set_progress 0%Q fs) in
  crawl_directories_start fs.

Definition miner_stopped (fs : TrackerMinerFSPrivate) :=
  set_status "Idle" (g_object_set_progress 1%Q fs).

(** [fs_set_property] for [PROP_POOL_LIMIT]; [PROP_THROTTLE] is
    [tracker_miner_fs_set_throttle]. *)
Definition fs_set_property_pool_limit (fs : TrackerMinerFSPrivate)
    (value : Z) :=
  set_pool_limit value fs.

Definition miner_paused (fs : TrackerMinerFSPrivate) :=
  let fs := set_is_paused true fs in
  let fs := emit CrawlerPause fs in
  match item_queues_handler_id fs with
  | Some _ => set_item_queues_handler_id None fs
  | None => fs
  end.

Definition miner_resumed (fs : TrackerMinerFSPrivate) :=
  let fs := set_is_paused false fs in
  let fs := emit CrawlerResume fs in
  if (g_queue_get_length (items_deleted fs) >? 0)
     || (g_queue_get_length (items_created fs) >? 0)
     || (g_queue_get_length (items_updated fs) >? 0)
     || (g_queue_get_length (items_moved fs) >? 0)
  then item_queue_handlers_set_up fs
  else fs.

(** ** Runs of the miner

    Everything happens on one main loop: an event is a callback the loop
    dispatches or a call of the public interface. *)

Inductive Event : Type :=
| MinerStarted
| MinerPaused
| MinerResumed
| MonitorItemCreated (file : GFile) (is_directory : bool)
| MonitorItemUpdated (file : GFile) (is_directory : bool)
| MonitorItemDeleted (file : GFile) (is_directory : bool)
| MonitorItemMoved (file other_file : GFile)
                   (is_directory is_source_monitored : bool)
| ItemQueueHandlers
| CrawlDirectories
| CrawlerFinished (found : list (GFile * bool)) (was_interrupted : bool)
                  (directories_found directories_ignored
                   files_found files_ignored : Z)
| SparqlUpdateDone (data : nat) (error : option GError)
| NotifyFile (file : GFile) (error : option GError)
| AddDirectory (file : GFile) (recurse : bool)
| RemoveDirectory (file : GFile)
| SetThrottle (throttle : gdouble)
| SetPoolLimit (limit : Z)
| MinerStopped.

Definition batch_update_pending (fs : TrackerMinerFSPrivate) (data : nat)
  : bool :=
  existsb (fun o => match o with
                    | BatchUpdate _ d => Nat.eqb d data
                    | _ => false
                    end) (trace fs)
  && existsb (fun d => Nat.eqb (pd_data d) data) (processing_pool fs).

(** One turn of the loop.  [None]: the event cannot happen in this state
    (its source is not installed, no such update is under way, the value
    is outside the range the property accepts) or the callback does not
    return. *)
Definition step (fuel : nat) (env : Env) (ev : Event)
    (fs : TrackerMinerFSPrivate) : option TrackerMinerFSPrivate :=
  match ev with
  | MinerStarted => Some (miner_started fs)
  | MinerStopped => Some (miner_stopped fs)
  | MinerPaused => Some (miner_paused fs)
  | MinerResumed => Some (miner_resumed fs)
  | MonitorItemCreated file is_directory =>
    Some (monitor_item_created_cb env fs file is_directory)
  | MonitorItemUpdated file is_directory =>
    Some (monitor_item_updated_cb env fs file is_directory)
  | MonitorItemDeleted file is_directory =>
    Some (monitor_item_deleted_cb env fs file is_directory)
  | MonitorItemMoved file other_file is_directory is_source_monitored =>
    Some (monitor_item_moved_cb env fs file other_file
                                is_directory is_source_monitored)
  | ItemQueueHandlers =>
    match item_queues_handler_id fs with
    | None => None
    | Some _ =>
      match item_queue_handlers_cb fuel env fs with
      | None => None
      | Some (_, fs) => Some fs
      end
    end
  | CrawlDirectories =>
    match crawl_directories_id fs with
    | None => None
    | Some _ => Some (snd (crawl_directories_cb env fs))
    end
  | CrawlerFinished found was_interrupted df di ff fi =>
    if is_crawling fs
    then Some (crawler_finished_cb fs found was_interrupted df di ff fi)
    else None
  | SparqlUpdateDone data error =>
    if batch_update_pending fs data
    then Some (sparql_update_cb fs data error)
    else None
  | NotifyFile file error =>
    Some (tracker_miner_fs_notify_file env fs file error)
  | AddDirectory file recurse =>
    Some (tracker_miner_fs_add_directory fs file recurse)
  | RemoveDirectory file =>
    Some (snd (tracker_miner_fs_remove_directory fs file))
  | SetThrottle throttle' => Some (tracker_miner_fs_set_throttle fs throttle')
  | SetPoolLimit limit =>
    if (1 <=? limit) && (limit <? 2 ^ 32)
    then Some (fs_set_property_pool_limit fs limit)
    else None
  end.

(** The states a miner constructed with a pool limit in the range of its
    property can get to. *)
Inductive reachable : TrackerMinerFSPrivate -> Prop :=
| reachable_init (limit : Z) :
    1 <= limit < 2 ^ 32 -> reachable (tracker_miner_fs_init limit)
| reachable_step (fs fs' : TrackerMinerFSPrivate) (fuel : nat) (env : Env)
                 (ev : Event) :
    reachable fs -> step fuel env ev fs = Some fs' -> reachable fs'.

(** Running a list of events under one environment. *)
Fixpoint run (fuel : nat) (env : Env) (evs : list Event)
    (fs : TrackerMinerFSPrivate) : option TrackerMinerFSPrivate :=
  match evs with
  | [] => Some fs
  | ev :: evs =>
    match step fuel env ev fs with
    | None => None
    | Some fs => run fuel env evs fs
    end
  end.

(** How often a URI is queued; a move entry counts for both of its ends. *)
Definition count_file (u : GFile) (q : list GFile) : nat :=
  List.length (filter (g_file_equal u) q).

Definition count_moved (u : GFile) (q : list ItemMovedData) : nat :=
  List.length (filter (fun d => g_file_equal u (imd_file d)
                                || g_file_equal u (imd_source_file d)) q).

Definition queued (u : GFile) (fs : TrackerMinerFSPrivate) : nat :=
  (count_file u (items_deleted fs) + count_file u (items_created fs)
   + count_file u (items_updated fs) + count_moved u (items_moved fs))%nat.

Definition queues_empty (fs : TrackerMinerFSPrivate) : Prop :=
  items_deleted fs = [] /\ items_created fs = [] /\ items_updated fs = []
  /\ items_moved fs = [].

End Miner.

(** A test environment: everything passes the checks, nothing is stored,
    nothing is locked, every extraction is accepted and completes later. *)
Definition env0 : Env := {|
  check_file := fun _ => true;
  check_directory := fun _ => true;
  monitor_directory := fun _ => true;
  process_file := fun _ => {| sync_notify := None; processing := true |};
  builder_get_result := fun _ => EmptyString;
  store_exists := fun _ => false;
  store_children := fun _ => Some [];
  tracker_file_is_locked := fun _ => false;
  query_display_name := fun f => Some (last f EmptyString);
  g_strescape := fun s => s;
  tracker_crawler_start := fun _ _ => true;
  time_now := 0
|}.

(** ** The queues as the specification sees them

    The design document speaks of pending items of four kinds, drained in
    the order deleted, created, updated, moved.  [pending_items] lists the
    content of the four queues in that order; it is only used to state the
    properties. *)

Inductive PendingItem : Type :=
| Deleted (u : GFile)
| Created (u : GFile)
| Updated (u : GFile)
| Moved (from_uri to_uri : GFile).

Definition pending_items (fs : TrackerMinerFSPrivate) : list PendingItem :=
  map Deleted (items_deleted fs) ++ map Created (items_created fs)
  ++ map Updated (items_updated fs)
  ++ map (fun d => Moved (imd_source_file d) (imd_file d)) (items_moved fs).

(** What a result of [item_queue_get_next_file] stands for. *)
Definition dispatched (queue : Queue) (file source_file : option GFile)
  : option PendingItem :=
  match queue, file, source_file with
  | QUEUE_DELETED, Some f, None => Some (Deleted f)
  | QUEUE_CREATED, Some f, None => Some (Created f)
  | QUEUE_UPDATED, Some f, None => Some (Updated f)
  | QUEUE_MOVED, Some f, Some s => Some (Moved s f)
  | _, _, _ => None
  end.

Definition same_queues (fs fs' : TrackerMinerFSPrivate) : Prop :=
  items_deleted fs' = items_deleted fs /\ items_created fs' = items_created fs
  /\ items_updated fs' = items_updated fs /\ items_moved fs' = items_moved fs.

(** ** Concrete files, environments and states used in the examples *)

Definition file_a : GFile := ["data"; "a.txt"].
Definition file_b : GFile := ["data"; "b.txt"].
Definition dir_data : GFile := ["data"].
Definition dir_sub : GFile := ["data"; "sub"].

(** As [env0], but every file is reported locked. *)
Definition env_locked : Env := {|
  check_file := fun _ => true;
  check_directory := fun _ => true;
  monitor_directory := fun _ => true;
  process_file := fun _ => {| sync_notify := None; processing := true |};
  builder_get_result := fun _ => EmptyString;
  store_exists := fun _ => false;
  store_children := fun _ => Some [];
  tracker_file_is_locked := fun _ => true;
  query_display_name := fun f => Some (last f EmptyString);
  g_strescape := fun s => s;
  tracker_crawler_start := fun _ _ => true;
  time_now := 0
|}.

(** [under file parent]: the test the source applies to decide that [file]
    is [parent] or lies below it. *)
Definition under (file parent : GFile) : bool :=
  g_file_equal file parent || g_file_has_prefix file parent.

(** The quantities of the progress formula: what is waiting in the four
    queues, and what the crawls have found. *)
Definition items_pending (fs : TrackerMinerFSPrivate) : Z :=
  Z.of_nat (List.length (items_deleted fs))
  + Z.of_nat (List.length (items_created fs))
  + Z.of_nat (List.length (items_updated fs))
  + Z.of_nat (List.length (items_moved fs)).

Definition items_total (fs : TrackerMinerFSPrivate) : Z :=
  total_directories_found fs + total_files_found fs.

Definition progress_formula (total pending : Z) : Q :=
  (inject_Z (total - pending) / inject_Z total)%Q.

(** The counters are [guint]s and so are the sums the code forms. *)
Definition counters_in_range (fs : TrackerMinerFSPrivate) : Prop :=
  0 <= total_directories_found fs /\ 0 <= total_files_found fs
  /\ items_total fs < 2 ^ 32 /\ items_pending fs < 2 ^ 32.

(** As [env0], at a given second of the wall clock. *)
Definition env_at (now : Z) : Env := {|
  check_file := fun _ => true;
  check_directory := fun _ => true;
  monitor_directory := fun _ => true;
  process_file := fun _ => {| sync_notify := None; processing := true |};
  builder_get_result := fun _ => EmptyString;
  store_exists := fun _ => false;
  store_children := fun _ => Some [];
  tracker_file_is_locked := fun _ => false;
  query_display_name := fun f => Some (last f EmptyString);
  g_strescape := fun s => s;
  tracker_crawler_start := fun _ _ => true;
  time_now := now
|}.

(** How often [::process-file] was emitted for a file. *)
Definition count_process_file (u : GFile) (t : list Out) : nat :=
  List.length (filter (fun o => match o with
                                | ProcessFile f => g_file_equal f u
                                | _ => false
                                end) t).

(** The two ends of a tick of the queue handler, named for the proofs:
    what it does between dequeuing and dispatching (timer, progress
    report), and what it does with the answer of the dispatch. *)
Definition before_dispatch (env : Env) (fs : TrackerMinerFSPrivate) :=
  let fs := if negb (timer fs) then set_timer true fs else fs in
  if time_now env - time_last fs >=? 1
  then g_object_set_progress (item_queue_get_progress fs)
         (set_time_last (time_now env) fs)
  else fs.

Definition after_dispatch (handled : option (bool * TrackerMinerFSPrivate))
  : option (bool * TrackerMinerFSPrivate) :=
  match handled with
  | None => None
  | Some (keep_processing, fs) =>
    if negb keep_processing then
      Some (false, set_item_queues_handler_id None fs)
    else
      Some (true, if been_crawled fs then tracker_miner_commit fs else fs)
  end.

(** As [env0], but every file is known to the store. *)
Definition env_stored : Env := {|
  check_file := fun _ => true;
  check_directory := fun _ => true;
  monitor_directory := fun _ => true;
  process_file := fun _ => {| sync_notify := None; processing := true |};
  builder_get_result := fun _ => EmptyString;
  store_exists := fun _ => true;
  store_children := fun _ => Some [];
  tracker_file_is_locked := fun _ => false;
  query_display_name := fun f => Some (last f EmptyString);
  g_strescape := fun s => s;
  tracker_crawler_start := fun _ _ => true;
  time_now := 0
|}.

(** The bound on the pool, with what keeps it: the pool never holds more
    than [pool_limit] entries, and while the queue handler is installed
    there is room for one more. *)
Definition pool_inv (fs : TrackerMinerFSPrivate) : Prop :=
  0 <= pool_limit fs < 2 ^ 32
  /\ Z.of_nat (List.length (processing_pool fs)) <= pool_limit fs
  /\ (item_queues_handler_id fs <> None ->
      Z.of_nat (List.length (processing_pool fs)) < pool_limit fs).

(** ** The move in the store, as the specification sees it *)

(** What the recursion reaches from [source_uri]: the URI itself and, for
    everything reached, the answers to the containment query whose URI
    starts with [source_uri]. *)
Inductive reached (env : Env) (source_uri : string) : string -> Prop :=
| reached_source : reached env source_uri source_uri
| reached_child (parent child : string) (rows : list string) :
    reached env source_uri parent ->
    store_children env parent = Some rows ->
    In child rows ->
    g_str_has_prefix child source_uri = true ->
    reached env source_uri child.

(** The stored descendants of [source_uri] by containment alone. *)
Inductive descendant (env : Env) (source_uri : string) : string -> Prop :=
| descendant_child (child : string) (rows : list string) :
    store_children env source_uri = Some rows ->
    In child rows ->
    descendant env source_uri child
| descendant_below (parent child : string) (rows : list string) :
    descendant env source_uri parent ->
    store_children env parent = Some rows ->
    In child rows ->
    descendant env source_uri child.

(** The new URI of something below the source: the destination followed by
    what came after the source URI. *)
Definition moved_uri (source_uri uri child : string) : string :=
  uri +++ str_offset child (String.length source_uri).

Definition uri_statement (source_uri uri child : string) : string :=
  " <" +++ child +++ "> tracker:uri <" +++ moved_uri source_uri uri child
  +++ "> .".

Fixpoint uri_statements (source_uri uri : string) (children : list string)
  : string :=
  match children with
  | [] => EmptyString
  | c :: cs => uri_statement source_uri uri c
               +++ uri_statements source_uri uri cs
  end.

(** The text of the batch up to the URI statements: the file name of the
    source is replaced by the display name of the destination. *)
Definition move_header (source_uri uri escaped_filename : string) : string :=
  ((EmptyString
    +++ "DELETE FROM <" +++ source_uri +++ "> { <" +++ source_uri
    +++ "> nfo:fileName ?o } WHERE { <" +++ source_uri
    +++ "> nfo:fileName ?o }")
   +++ " INSERT INTO <" +++ uri +++ "> {")
  +++ " <" +++ source_uri +++ "> nfo:fileName " +++ dquote
  +++ escaped_filename +++ dquote +++ " .".

(** The children a callback takes up: the rows that start with the source
    URI. *)
Definition taken (source_uri : string) (rows : option (list string))
  : list string :=
  match rows with
  | None => []
  | Some rows => filter (fun c => g_str_has_prefix c source_uri) rows
  end.

(** What a callback logs for an answer: a critical message for a failed
    query, a warning for every child whose URI does not start with the
    source URI, in the order of the rows. *)
Definition child_warning (source_uri child : string) : Out :=
  Warning ("Child URI '" +++ child +++ "' does not start with parent URI '"
           +++ source_uri +++ "'").

Definition answer_log (source_uri : string) (rows : option (list string))
  : list Out :=
  match rows with
  | None => [Critical "Could not query children"]
  | Some rows =>
    map (child_warning source_uri)
        (filter (fun c => negb (g_str_has_prefix c source_uri)) rows)
  end.

(** What holds of the nested loop between two callbacks, with [uris] the
    URIs a statement has been written for so far: the level counts the
    outstanding queries, the text is the header followed by the statements,
    everything written for is reached, everything outstanding has been
    written for, and whatever is not outstanding any more has had its
    children written for. *)
Definition move_inv (env : Env) (source_uri uri base : string)
    (data : RecursiveMoveData) (outstanding uris : list string) : Prop :=
  rmd_source_uri data = source_uri
  /\ rmd_uri data = uri
  /\ rmd_level data = Z.of_nat (List.length outstanding)
  /\ rmd_sparql data = base +++ uri_statements source_uri uri uris
  /\ In source_uri uris
  /\ (forall c, In c uris -> reached env source_uri c)
  /\ (forall c, In c outstanding -> In c uris)
  /\ (forall p, In p uris ->
                In p outstanding
                \/ forall c, In c (taken source_uri (store_children env p)) ->
                             In c uris).

(** A finite store in which containment lengthens the URI: no query
    answers with more than [B] rows, and every row is longer than the URI
    asked about and no longer than [N]. *)
Definition store_bounded (env : Env) (N B : nat) : Prop :=
  forall parent rows,
    store_children env parent = Some rows ->
    (List.length rows <= B)%nat
    /\ forall child, In child rows ->
                     (String.length parent < String.length child <= N)%nat.

(** Fuel that suffices for the nested loop in such a store. *)
Fixpoint lookups_bound (B d : nat) : nat :=
  match d with
  | O => 1
  | S d => S (B * lookups_bound B d)
  end.

(** The lookups still to come: every outstanding query counts for itself
    and for what can hang below it. *)
Definition lookups_left (N B : nat) (outstanding : list string) : nat :=
  list_sum (map (fun c => lookups_bound B (N - String.length c)) outstanding).

(** A store in which [/a] contains a resource whose URI is elsewhere. *)
Definition env_stray : Env := {|
  check_file := fun _ => true;
  check_directory := fun _ => true;
  monitor_directory := fun _ => true;
  process_file := fun _ => {| sync_notify := None; processing := true |};
  builder_get_result := fun _ => EmptyString;
  store_exists := fun _ => true;
  store_children := fun u => if String.eqb u "file:///a"
                             then Some ["file:///x/b"] else Some [];
  tracker_file_is_locked := fun _ => false;
  query_display_name := fun f => Some (last f EmptyString);
  g_strescape := fun s => s;
  tracker_crawler_start := fun _ _ => true;
  time_now := 0
|}.

(** The store of the rename scenario: [/data/sub] contains [b.txt]. *)
Definition env_sub : Env := {|
  check_file := fun _ => true;
  check_directory := fun _ => true;
  monitor_directory := fun _ => true;
  process_file := fun _ => {| sync_notify := None; processing := true |};
  builder_get_result := fun _ => EmptyString;
  store_exists := fun _ => true;
  store_children := fun u => if String.eqb u "file:///data/sub"
                             then Some ["file:///data/sub/b.txt"]
                             else Some [];
  tracker_file_is_locked := fun _ => false;
  query_display_name := fun f => Some (last f EmptyString);
  g_strescape := fun s => s;
  tracker_crawler_start := fun _ _ => true;
  time_now := 0
|}.


(** The [gdouble] nearest to the fraction [n / d], as a decimal literal of
    that value is read. *)
Definition gdouble_of_ratio (n d : Z) : gdouble :=
  SFdiv 53 1024 (gdouble_of_int n) (gdouble_of_int d).

(** The state after the miner has logged [outs]. *)
Definition log_all (outs : list Out) (fs : TrackerMinerFSPrivate)
  : TrackerMinerFSPrivate :=
  set_trace (trace fs ++ outs) fs.
(** ** What the callbacks send out *)

Definition is_finished (o : Out) : bool :=
  match o with Finished _ _ _ _ => true | _ => false end.

Definition is_crawler_start (o : Out) : bool :=
  match o with CrawlerStart _ _ => true | _ => false end.

Definition is_batch_update (o : Out) : bool :=
  match o with BatchUpdate _ _ => true | _ => false end.

(** [fs'] has the trace of [fs] followed by calls that all satisfy [P]. *)
Definition extends_with (P : Out -> bool) (fs fs' : TrackerMinerFSPrivate)
  : Prop :=
  exists outs, trace fs' = trace fs ++ outs /\ forallb P outs = true.

(** [P] lets through everything but the three calls that start or end
    work: [ProcessFile], [Finished] and [CrawlerStart]. *)
Definition harmless (P : Out -> bool) : Prop :=
  P Commit = true /\ P CrawlerStop = true /\ P CrawlerPause = true
  /\ P CrawlerResume = true
  /\ (forall s, P (Critical s) = true)
  /\ (forall s, P (Warning s) = true)
  /\ (forall s d, P (BatchUpdate s d) = true)
  /\ (forall f, P (MonitorAdd f) = true).

(** Popping until nothing is pending, at most [n] times. *)
Fixpoint pop_order (n : nat) (fs : TrackerMinerFSPrivate) : list PendingItem :=
  match n with
  | O => []
  | S n =>
    let '(queue, file, source_file, fs') := item_queue_get_next_file fs in
    match dispatched queue file source_file with
    | Some item => item :: pop_order n fs'
    | None => []
    end
  end.

(** What dispatching leaves alone: the pause flag and the state of the
    crawl. *)
Definition same_control (fs fs' : TrackerMinerFSPrivate) : Prop :=
  is_paused fs' = is_paused fs
  /\ is_crawling fs' = is_crawling fs
  /\ current_directory fs' = current_directory fs
  /\ directories fs' = directories fs
  /\ crawl_directories_id fs' = crawl_directories_id fs
  /\ pool_limit fs' = pool_limit fs
  /\ throttle fs' = throttle fs.

(** While the miner is paused no queue handler is installed, and a crawl
    that is running has its directory recorded. *)
Definition control_inv (fs : TrackerMinerFSPrivate) : Prop :=
  (is_paused fs = true -> item_queues_handler_id fs = None)
  /\ (is_crawling fs = true -> current_directory fs <> None).

(** A state in which the miner is paused with one file queued. *)
Definition fs_paused : TrackerMinerFSPrivate :=
  miner_paused
    (monitor_item_created_cb 10 env0
       (miner_started 10 (tracker_miner_fs_init 1)) file_a false).

(** A state in which a crawl of [/data] is running. *)
Definition fs_crawling : TrackerMinerFSPrivate :=
  snd (crawl_directories_cb 10 env0
         (tracker_miner_fs_add_directory 10
            (miner_started 10 (tracker_miner_fs_init 1)) dir_data true)).

(** A state with nothing left to do and the queue handler installed. *)
Definition fs_drained : TrackerMinerFSPrivate :=
  snd (crawl_directories_cb 10 env0
         (crawler_finished_cb 10 fs_crawling [] false 1 0 0 0)).

(** As [env0], but the extractor declines every file. *)
Definition env_decline : Env := {|
  check_file := fun _ => true;
  check_directory := fun _ => true;
  monitor_directory := fun _ => true;
  process_file := fun _ => {| sync_notify := None; processing := false |};
  builder_get_result := fun _ => EmptyString;
  store_exists := fun _ => false;
  store_children := fun _ => Some [];
  tracker_file_is_locked := fun _ => false;
  query_display_name := fun f => Some (last f EmptyString);
  g_strescape := fun s => s;
  tracker_crawler_start := fun _ _ => true;
  time_now := 0
|}.


(** A finite store: [/data/sub] is listed as its own child, and nothing
    else has children. *)
Definition env_self_child : Env := {|
  check_file := fun _ => true;
  check_directory := fun _ => true;
  monitor_directory := fun _ => true;
  process_file := fun _ => {| sync_notify := None; processing := true |};
  builder_get_result := fun _ => EmptyString;
  store_exists := fun _ => true;
  store_children := fun u => if String.eqb u "file:///data/sub"
                             then Some ["file:///data/sub"] else Some [];
  tracker_file_is_locked := fun _ => false;
  query_display_name := fun f => Some (last f EmptyString);
  g_strescape := fun s => s;
  tracker_crawler_start := fun _ _ => true;
  time_now := 0
|}.

(** The nested loop of a move of [/data/sub] to [/data/new] as it starts:
    one lookup, for the source itself, is under way. *)
Definition move_start : MoveState :=
  item_update_uri_recursively
    ({| rmd_level := 0; rmd_sparql := EmptyString;
        rmd_source_uri := "file:///data/sub";
        rmd_uri := "file:///data/new" |}, [])
    "file:///data/sub" "file:///data/new".

(** The update [item_remove] sends to the store. *)
Definition removal_text (uri slash_uri : string) : string :=
  (EmptyString
   +++ "DELETE FROM <" +++ uri +++ "> { ?u a rdfs:Resource } "
   +++ "WHERE { ?u nfo:belongsToContainer ?p . FILTER (fn:starts-with (?p, "
   +++ dquote +++ slash_uri +++ dquote +++ ")) } ")
  +++ "DELETE FROM <" +++ uri +++ "> { <" +++ uri +++ "> a rdfs:Resource }".

(** One crawl after the other: the hook runs, then the crawler reports
    what it found. *)
Definition crawl_events (founds : list (list (GFile * bool))) : list Event :=
  flat_map (fun found => [CrawlDirectories;
                          CrawlerFinished found false 0 0 0 0]) founds.

(** A started miner with two directories to crawl. *)
Definition fs_two_directories : TrackerMinerFSPrivate :=
  tracker_miner_fs_add_directory 10
    (tracker_miner_fs_add_directory 10
       (miner_started 10 (tracker_miner_fs_init 1)) dir_data true)
    dir_sub false.

(** Messages of the log, as opposed to calls to a collaborator. *)
Definition is_log (o : Out) : bool :=
  match o with
  | Critical _ | Warning _ => true
  | _ => false
  end.

(** What a callback that reports no progress leaves alone: the progress
    last reported and the second of the last report. *)
Definition same_report (fs fs' : TrackerMinerFSPrivate) : Prop :=
  progress fs' = progress fs
  /\ time_last fs' = time_last fs
  /\ progress_reports fs' = progress_reports fs.

(** The tick that finds nothing to do ends the processing. *)
Definition tick_is_idle (queue : Queue) (fs : TrackerMinerFSPrivate) : bool :=
  match queue with
  | QUEUE_NONE =>
    negb (is_crawling fs)
    && match processing_pool fs with [] => true | _ => false end
  | _ => false
  end.
(** ** Basic facts *)

Lemma g_file_equal_refl (f : GFile) : g_file_equal f f = true.
Proof. unfold g_file_equal. destruct (list_eq_dec string_dec f f); congruence. Qed.

Lemma g_file_equal_eq (a b : GFile) : g_file_equal a b = true <-> a = b.
Proof.
  unfold g_file_equal. destruct (list_eq_dec string_dec a b); split; congruence.
Qed.

Lemma same_queues_refl fs : same_queues fs fs.
Proof. repeat split. Qed.

Lemma same_queues_trans fs1 fs2 fs3 :
  same_queues fs1 fs2 -> same_queues fs2 fs3 -> same_queues fs1 fs3.
Proof.
  unfold same_queues. intros (a & b & c & d) (a' & b' & c' & d').
  repeat split; congruence.
Qed.

Lemma same_queues_pending fs fs' :
  same_queues fs fs' -> pending_items fs' = pending_items fs.
Proof.
  unfold same_queues, pending_items. intros (a & b & c & d).
  now rewrite a, b, c, d.
Qed.

Lemma same_queues_queued fs fs' u :
  same_queues fs fs' -> queued u fs' = queued u fs.
Proof.
  unfold same_queues, queued. intros (a & b & c & d).
  now rewrite a, b, c, d.
Qed.

Lemma set_up_same_queues MAX fs :
  same_queues fs (item_queue_handlers_set_up MAX fs).
Proof.
  unfold item_queue_handlers_set_up.
  destruct (item_queues_handler_id fs); [apply same_queues_refl|].
  destruct (is_paused fs); [apply same_queues_refl|].
  destruct (_ >=? _); [apply same_queues_refl|].
  destruct (negb _); repeat split.
Qed.

Lemma set_up_trace MAX fs :
  trace (item_queue_handlers_set_up MAX fs) = trace fs.
Proof.
  unfold item_queue_handlers_set_up.
  destruct (item_queues_handler_id fs); [reflexivity|].
  destruct (is_paused fs); [reflexivity|].
  destruct (_ >=? _); [reflexivity|].
  destruct (negb _); reflexivity.
Qed.

Lemma set_up_pool MAX fs :
  processing_pool (item_queue_handlers_set_up MAX fs) = processing_pool fs.
Proof.
  unfold item_queue_handlers_set_up.
  destruct (item_queues_handler_id fs); [reflexivity|].
  destruct (is_paused fs); [reflexivity|].
  destruct (_ >=? _); [reflexivity|].
  destruct (negb _); reflexivity.
Qed.

Lemma count_file_app u q q' :
  count_file u (q ++ q') = (count_file u q + count_file u q')%nat.
Proof. unfold count_file. now rewrite filter_app, length_app. Qed.

Lemma count_file_single u : count_file u [u] = 1%nat.
Proof. unfold count_file. simpl. now rewrite g_file_equal_refl. Qed.

(** [item_queue_get_next_file] pops the head of [pending_items]. *)
Lemma next_file_pops_pending_head
    (fs : TrackerMinerFSPrivate) :
  match item_queue_get_next_file fs, pending_items fs with
  | (queue, file, source_file, fs'), [] =>
    queue = QUEUE_NONE /\ file = None /\ source_file = None /\ fs' = fs
  | (queue, file, source_file, fs'), item :: rest =>
    dispatched queue file source_file = Some item /\ pending_items fs' = rest
  end.
Proof.
  unfold item_queue_get_next_file, pending_items.
  destruct (items_deleted fs) as [|d D] eqn:HD; simpl.
  2: { repeat split. }
  destruct (items_created fs) as [|c C] eqn:HC; simpl.
  2: { rewrite ?HD. repeat split. }
  destruct (items_updated fs) as [|x U] eqn:HU; simpl.
  2: { rewrite ?HD, ?HC. repeat split. }
  destruct (items_moved fs) as [|m M] eqn:HM; simpl.
  - repeat split.
  - rewrite ?HD, ?HC, ?HU. repeat split.
Qed.

(** ** C2: drain priority *)


Lemma run_reachable MAX fuel env evs fs fs' :
  reachable MAX fs -> run MAX fuel env evs fs = Some fs' -> reachable MAX fs'.
Proof.
  revert fs. induction evs as [|ev evs IH]; simpl; intros fs Hr Hrun.
  - congruence.
  - destruct (step MAX fuel env ev fs) as [fs1|] eqn:Hs; [|discriminate].
    eapply IH; [|exact Hrun]. eapply reachable_step; eauto.
Qed.

(** ** C1: the queues are not deduplicated *)

(** C1, refuted as stated.  After an update event and two create events
    for the same file, the file sits once in the Updated queue and twice in
    the Created queue: three queue entries for one URI, in a state the
    miner reaches. *)
Lemma queues_hold_one_uri_three_times :
  exists fs, reachable 10 fs
             /\ items_updated fs = [file_a]
             /\ items_created fs = [file_a; file_a]
             /\ queued file_a fs = 3%nat.
Proof.
  eexists. split.
  - eapply (run_reachable 10 0 env0
              [MonitorItemUpdated file_a false; MonitorItemCreated file_a false;
               MonitorItemCreated file_a false]).
    + apply (reachable_init 10 1). lia.
    + vm_compute. reflexivity.
  - repeat split.
Qed.

(** C1, as the code has it.  The monitor callbacks do not look at what is
    queued already: an accepted event appends its file at the tail of its
    own queue (Created for a non-directory, Updated, Deleted) and leaves
    every entry of every queue in place, so each accepted event raises the
    number of queue entries of that URI by one. *)
Theorem enqueue_appends_without_dedup (MAX : Z) (env : Env)
    (fs : TrackerMinerFSPrivate) (u : GFile) (is_directory : bool)
    (Hcheck : should_check_file env u is_directory = true) :
  let fu := monitor_item_updated_cb MAX env fs u is_directory in
  let fd := monitor_item_deleted_cb MAX env fs u is_directory in
  let fc := monitor_item_created_cb MAX env fs u false in
  (items_updated fu = items_updated fs ++ [u]
   /\ items_created fu = items_created fs
   /\ items_deleted fu = items_deleted fs
   /\ items_moved fu = items_moved fs
   /\ queued u fu = S (queued u fs))
  /\ (items_deleted fd = items_deleted fs ++ [u]
      /\ items_created fd = items_created fs
      /\ items_updated fd = items_updated fs
      /\ items_moved fd = items_moved fs
      /\ queued u fd = S (queued u fs))
  /\ (is_directory = false ->
      items_created fc = items_created fs ++ [u]
      /\ items_updated fc = items_updated fs
      /\ items_deleted fc = items_deleted fs
      /\ items_moved fc = items_moved fs
      /\ queued u fc = S (queued u fs)).
Proof.
  cbv zeta.
  unfold monitor_item_updated_cb, monitor_item_deleted_cb,
    monitor_item_created_cb.
  rewrite Hcheck.
  split; [|split].
  - match goal with |- context [item_queue_handlers_set_up MAX ?s] =>
      destruct (set_up_same_queues MAX s) as (a & b & c & d);
      pose proof (same_queues_queued s _ u (set_up_same_queues MAX s)) as q
    end.
    simpl in a, b, c, d. rewrite a, b, c, d, q.
    repeat split. unfold queued. simpl. rewrite count_file_app, count_file_single.
    lia.
  - match goal with |- context [item_queue_handlers_set_up MAX ?s] =>
      destruct (set_up_same_queues MAX s) as (a & b & c & d);
      pose proof (same_queues_queued s _ u (set_up_same_queues MAX s)) as q
    end.
    simpl in a, b, c, d. rewrite a, b, c, d, q.
    repeat split. unfold queued. simpl. rewrite count_file_app, count_file_single.
    lia.
  - intros ->. simpl in Hcheck. unfold should_check_file. rewrite Hcheck.
    match goal with |- context [item_queue_handlers_set_up MAX ?s] =>
      destruct (set_up_same_queues MAX s) as (a & b & c & d);
      pose proof (same_queues_queued s _ u (set_up_same_queues MAX s)) as q
    end.
    simpl in a, b, c, d. rewrite a, b, c, d, q.
    repeat split. unfold queued. simpl. rewrite count_file_app, count_file_single.
    lia.
Qed.

Lemma enqueue_appends_without_dedup_witness :
  should_check_file env0 file_a false = true
  /\ items_created
       (monitor_item_created_cb 10 env0
          (monitor_item_updated_cb 10 env0 (tracker_miner_fs_init 1)
             file_a false) file_a false) = [file_a]
  /\ items_updated
       (monitor_item_created_cb 10 env0
          (monitor_item_updated_cb 10 env0 (tracker_miner_fs_init 1)
             file_a false) file_a false) = [file_a].
Proof.
  split; [reflexivity|].
  destruct (enqueue_appends_without_dedup 10 env0
              (monitor_item_updated_cb 10 env0 (tracker_miner_fs_init 1)
                 file_a false) file_a false eq_refl)
    as (_ & _ & Hc).
  destruct (Hc eq_refl) as (c & u & _).
  split; [rewrite c | rewrite u]; reflexivity.
Defined.

(** ** C5: a locked file at the head of the queues *)

(** C5, refuted as stated.  A created file that is locked when the handler
    reaches it is popped and not queued again: after the tick it is in none
    of the queues, although no extraction was started for it. *)
Lemma locked_item_is_dropped :
  exists fs fs',
    run 10 0 env0 [MonitorItemCreated file_a false] (tracker_miner_fs_init 1)
    = Some fs
    /\ items_created fs = [file_a]
    /\ item_queue_handlers_cb 10 0 env_locked fs = Some (true, fs')
    /\ pending_items fs' = []
    /\ queued file_a fs' = 0%nat
    /\ trace fs' = [].
Proof.
  eexists. eexists. split; [vm_compute; reflexivity|].
  split; [reflexivity|].
  split; [vm_compute; reflexivity|].
  repeat split.
Qed.

(** C5, as the code has it.  When the file of the dequeued item is locked,
    the handler returns [TRUE] at once, so it stays installed, and the state
    it leaves is the one [item_queue_get_next_file] produced: the item is
    gone from the head of its queue and is not pushed back, the other
    pending items are untouched, nothing joins the pool and nothing is
    emitted (no extraction is started on that tick). *)
Theorem locked_item_is_popped_and_ignored (MAX : Z) (fuel : nat) (env : Env)
    (fs fs1 : TrackerMinerFSPrivate) (queue : Queue) (f : GFile)
    (source_file : option GFile)
    (Hnext : item_queue_get_next_file fs = (queue, Some f, source_file, fs1))
    (Hlocked : tracker_file_is_locked env f = true) :
  item_queue_handlers_cb MAX fuel env fs = Some (true, fs1)
  /\ (exists item, dispatched queue (Some f) source_file = Some item
                   /\ pending_items fs = item :: pending_items fs1)
  /\ processing_pool fs1 = processing_pool fs
  /\ trace fs1 = trace fs
  /\ item_queues_handler_id fs1 = item_queues_handler_id fs.
Proof.
  split.
  - unfold item_queue_handlers_cb. rewrite Hnext, Hlocked. reflexivity.
  - pose proof (next_file_pops_pending_head fs) as H.
    rewrite Hnext in H.
    destruct (pending_items fs) as [|item rest] eqn:Hp.
    + destruct H as (_ & Hf & _). discriminate.
    + destruct H as (Hd & Hr). split.
      * exists item. rewrite Hr. auto.
      * revert Hnext. unfold item_queue_get_next_file.
        destruct (items_deleted fs); [|intros [= <- <- <- <-]; auto].
        destruct (items_created fs); [|intros [= <- <- <- <-]; auto].
        destruct (items_updated fs); [|intros [= <- <- <- <-]; auto].
        destruct (items_moved fs); [|intros [= <- <- <- <-]; auto].
        discriminate.
Qed.

Lemma locked_item_is_popped_and_ignored_witness :
  item_queue_get_next_file
    (set_items_created [file_a] (tracker_miner_fs_init 1))
  = (QUEUE_CREATED, Some file_a, None, tracker_miner_fs_init 1)
  /\ tracker_file_is_locked env_locked file_a = true
  /\ item_queue_handlers_cb 10 0 env_locked
       (set_items_created [file_a] (tracker_miner_fs_init 1))
     = Some (true, tracker_miner_fs_init 1).
Proof.
  split; [reflexivity|]. split; [reflexivity|].
  exact (proj1 (locked_item_is_popped_and_ignored 10 0 env_locked
                  (set_items_created [file_a] (tracker_miner_fs_init 1))
                  (tracker_miner_fs_init 1) QUEUE_CREATED file_a None
                  eq_refl eq_refl)).
Defined.

(** ** Starting a crawl *)

Lemma crawl_directories_start_same_queues MAX fs :
  same_queues fs (crawl_directories_start MAX fs).
Proof.
  unfold crawl_directories_start.
  destruct (crawl_directories_id fs); [apply same_queues_refl|].
  destruct (negb (been_started fs)); [apply same_queues_refl|].
  destruct (negb (timer fs)); repeat split.
Qed.




(** ** C4: removing a directory *)

Lemma check_files_removal_spec queue parent :
  check_files_removal queue parent
  = filter (fun f => negb (under f parent)) queue.
Proof. reflexivity. Qed.



(** ** C6: progress *)

Lemma guint_small z : 0 <= z < 2 ^ 32 -> guint z = z.
Proof. intros H. unfold guint. apply Z.mod_small. exact H. Qed.

(** The value computed by [item_queue_get_progress], in terms of the two
    quantities, when no sum wraps. *)
Lemma item_queue_get_progress_eq fs :
  counters_in_range fs ->
  item_queue_get_progress fs
  = if (items_pending fs =? 0) && (0 <? items_total fs) then 0%Q
    else if (items_total fs =? 0) || (items_total fs <? items_pending fs)
         then 1%Q
         else (inject_Z (guint (items_total fs - items_pending fs))
               / inject_Z (items_total fs))%Q.
Proof.
  unfold counters_in_range, items_total, items_pending, item_queue_get_progress,
    g_queue_get_length.
  intros (Hd & Hf & Ht & Hp).
  set (d := Z.of_nat (List.length (items_deleted fs))) in *.
  set (c := Z.of_nat (List.length (items_created fs))) in *.
  set (u := Z.of_nat (List.length (items_updated fs))) in *.
  set (m := Z.of_nat (List.length (items_moved fs))) in *.
  assert (0 <= d) by (subst d; lia). assert (0 <= c) by (subst c; lia).
  assert (0 <= u) by (subst u; lia). assert (0 <= m) by (subst m; lia).
  rewrite (guint_small d) by lia. rewrite (guint_small c) by lia.
  rewrite (guint_small u) by lia. rewrite (guint_small m) by lia.
  rewrite !Z.add_0_l.
  rewrite (guint_small d) by lia. rewrite (guint_small (d + c)) by lia.
  rewrite (guint_small (d + c + u)) by lia.
  rewrite (guint_small (d + c + u + m)) by lia.
  rewrite (guint_small (total_directories_found fs)) by lia.
  rewrite (guint_small (_ + total_files_found fs)) by lia.
  reflexivity.
Qed.

Lemma progress_formula_mono t p1 p2 :
  0 < t -> p2 <= p1 ->
  (progress_formula t p1 <= progress_formula t p2)%Q.
Proof.
  intros Ht Hp. unfold progress_formula, Qdiv.
  apply Qmult_le_compat_r.
  - rewrite <- Zle_Qle. lia.
  - apply Qinv_le_0_compat. replace 0%Q with (inject_Z 0) by reflexivity.
    rewrite <- Zle_Qle. lia.
Qed.

Lemma progress_formula_bounds t p :
  0 < p <= t -> (0 <= progress_formula t p <= 1)%Q.
Proof.
  intros Hp. unfold progress_formula.
  assert (Ht : (0 < inject_Z t)%Q).
  { replace 0%Q with (inject_Z 0) by reflexivity. rewrite <- Zlt_Qlt. lia. }
  split.
  - apply Qle_shift_div_l; [exact Ht|]. rewrite Qmult_0_l.
    replace 0%Q with (inject_Z 0) by reflexivity. rewrite <- Zle_Qle. lia.
  - apply Qle_shift_div_r; [exact Ht|]. rewrite Qmult_1_l.
    rewrite <- Zle_Qle. lia.
Qed.

(** C6, refuted as stated.  A crawl finds two files; the handler takes
    the first off the queues and reports 1/2; a second later it takes the
    second one and reports 0, where the formula gives (2 - 0) / 2 = 1: the
    reported value is not the formula's and it has gone down. *)
Lemma progress_drops_to_zero_when_queues_empty :
  exists fs1 fs2,
    run 10 0 (env_at 1)
        [MinerStarted; AddDirectory dir_data true; CrawlDirectories;
         CrawlerFinished [(file_a, false); (file_b, false)] false 0 0 2 0;
         CrawlDirectories; ItemQueueHandlers] (tracker_miner_fs_init 2)
    = Some fs1
    /\ step 10 0 (env_at 2) ItemQueueHandlers fs1 = Some fs2
    /\ progress_reports fs1 = [0%Q; (1 # 2)%Q]
    /\ progress_reports fs2 = [0%Q; (1 # 2)%Q; 0%Q]
    /\ items_total fs2 = 2 /\ items_pending fs2 = 0
    /\ (progress_formula (items_total fs2) (items_pending fs2) == 1)%Q
    /\ (0 < 1 # 2)%Q.
Proof.
  eexists. eexists. split; [vm_compute; reflexivity|].
  split; [vm_compute; reflexivity|].
  repeat split; vm_compute; reflexivity.
Qed.

(** The value [item_queue_get_progress] computes, with [items_total] the
    files plus the directories found and [items_pending] the summed length
    of the four queues (no sum leaving the range of [guint]): the
    formula's while something is pending and no more is pending than was
    found; 0 when nothing is pending although something was found; 1 when
    nothing was found or more is pending than was found.  It always lies
    between 0 and 1.  Between two states with the same total, both with
    something pending and no more pending than found, the value does not
    go down when the number of pending items does not go up. *)
Lemma progress_value_cases (fs : TrackerMinerFSPrivate)
    (Hrange : counters_in_range fs) :
  (0 < items_pending fs <= items_total fs ->
   item_queue_get_progress fs
   = progress_formula (items_total fs) (items_pending fs))
  /\ (items_pending fs = 0 -> 0 < items_total fs ->
      item_queue_get_progress fs = 0%Q)
  /\ (items_total fs = 0 \/ items_total fs < items_pending fs ->
      item_queue_get_progress fs = 1%Q)
  /\ (0 <= item_queue_get_progress fs <= 1)%Q
  /\ (forall fs', counters_in_range fs' ->
        items_total fs' = items_total fs ->
        0 < items_pending fs' <= items_pending fs ->
        items_pending fs <= items_total fs ->
        (item_queue_get_progress fs <= item_queue_get_progress fs')%Q).
Proof.
  assert (Hpos : 0 <= items_pending fs) by (unfold items_pending; lia).
  assert (Hform : 0 < items_pending fs <= items_total fs ->
                  item_queue_get_progress fs
                  = progress_formula (items_total fs) (items_pending fs)).
  { intros Hp. rewrite item_queue_get_progress_eq by exact Hrange.
    destruct Hrange as (? & ? & ? & ?).
    replace (items_pending fs =? 0) with false by (symmetry; apply Z.eqb_neq; lia).
    replace (items_total fs =? 0) with false by (symmetry; apply Z.eqb_neq; lia).
    replace (items_total fs <? items_pending fs) with false
      by (symmetry; apply Z.ltb_ge; lia).
    simpl. rewrite guint_small by lia. reflexivity. }
  split; [exact Hform|].
  split; [|split; [|split]].
  - intros Hp Ht. rewrite item_queue_get_progress_eq by exact Hrange.
    rewrite Hp. simpl. replace (0 <? items_total fs) with true
      by (symmetry; apply Z.ltb_lt; lia).
    reflexivity.
  - intros Hc. rewrite item_queue_get_progress_eq by exact Hrange.
    destruct Hrange as (? & ? & ? & ?).
    destruct Hc as [Hc|Hc].
    + rewrite Hc. simpl. rewrite andb_false_r. reflexivity.
    + replace (items_pending fs =? 0) with false
        by (symmetry; apply Z.eqb_neq; unfold items_total in *; lia).
      replace (items_total fs <? items_pending fs) with true
        by (symmetry; apply Z.ltb_lt; lia).
      simpl. rewrite orb_true_r. reflexivity.
  - destruct (Z.eq_dec (items_pending fs) 0) as [Hz|Hz].
    + rewrite item_queue_get_progress_eq by exact Hrange. rewrite Hz. simpl.
      destruct (0 <? items_total fs) eqn:Ht; simpl.
      * split; discriminate.
      * destruct Hrange as (? & ? & ? & ?).
        replace (items_total fs =? 0) with true
          by (symmetry; apply Z.eqb_eq; apply Z.ltb_ge in Ht;
              unfold items_total in *; lia).
        simpl. split; discriminate.
    + destruct (Z_le_gt_dec (items_pending fs) (items_total fs)) as [Hle|Hgt].
      * rewrite Hform by lia. apply progress_formula_bounds. lia.
      * rewrite item_queue_get_progress_eq by exact Hrange.
        replace (items_pending fs =? 0) with false
          by (symmetry; apply Z.eqb_neq; lia).
        replace (items_total fs <? items_pending fs) with true
          by (symmetry; apply Z.ltb_lt; lia).
        simpl. rewrite orb_true_r. split; discriminate.
  - intros fs' Hrange' Ht Hp Hle.
    assert (Hform' : item_queue_get_progress fs'
                     = progress_formula (items_total fs') (items_pending fs')).
    { rewrite item_queue_get_progress_eq by exact Hrange'.
      destruct Hrange' as (? & ? & ? & ?).
      replace (items_pending fs' =? 0) with false
        by (symmetry; apply Z.eqb_neq; lia).
      replace (items_total fs' =? 0) with false
        by (symmetry; apply Z.eqb_neq; lia).
      replace (items_total fs' <? items_pending fs') with false
        by (symmetry; apply Z.ltb_ge; lia).
      simpl. rewrite guint_small by lia. reflexivity. }
    rewrite Hform', Hform by lia. rewrite Ht.
    apply progress_formula_mono; lia.
Qed.
(** ** C9: throttle *)

(** *** Comparisons of [gdouble] *)

Lemma SFcompare_antisym (a b : gdouble) :
  SFcompare b a = option_map CompOpp (SFcompare a b).
Proof.
  destruct a as [sa|sa| |sa ma ea], b as [sb|sb| |sb mb eb]; simpl;
    try reflexivity;
    try (destruct sa; reflexivity); try (destruct sb; reflexivity);
    try (destruct sa, sb; reflexivity).
  destruct sa, sb; try reflexivity; f_equal.
  - rewrite (Z.compare_antisym ea eb).
    destruct (ea ?= eb); simpl; try reflexivity.
    f_equal. symmetry. exact (Pos.compare_cont_antisym ma mb Eq).
  - rewrite (Z.compare_antisym ea eb).
    destruct (ea ?= eb); simpl; try reflexivity.
    symmetry. exact (Pos.compare_cont_antisym ma mb Eq).
Qed.

(** [==] holds of two values that are the same, or that are both a zero. *)
Lemma SFeqb_true (a b : gdouble) :
  SFeqb a b = true ->
  a = b \/ exists sa sb, a = S754_zero sa /\ b = S754_zero sb.
Proof.
  unfold SFeqb.
  destruct a as [sa|sa| |sa ma ea], b as [sb|sb| |sb mb eb]; simpl;
    try discriminate; try (destruct sa; discriminate);
    try (destruct sb; discriminate).
  - intros _. right. eauto.
  - destruct sa, sb; try discriminate; intros _; left; reflexivity.
  - destruct sa, sb; try discriminate;
      destruct (ea ?= eb) eqn:He; try discriminate;
      apply Z.compare_eq in He; subst eb;
      change (Pos.compare_cont Eq ma mb) with (Pos.compare ma mb);
      destruct (ma ?= mb)%positive eqn:Hm; try discriminate;
      apply Pos.compare_eq in Hm; subst mb; intros _; left; reflexivity.
Qed.

Lemma SFeqb_refl (a : gdouble) : a <> S754_nan -> SFeqb a a = true.
Proof.
  unfold SFeqb. destruct a as [s|s| |s m e]; simpl; try congruence.
  - destruct s; reflexivity.
  - intros _. destruct s; rewrite Z.compare_refl;
      change (Pos.compare_cont Eq m m) with (Pos.compare m m);
      rewrite Pos.compare_refl; reflexivity.
Qed.

Lemma SFeqb_not_nan (a b : gdouble) :
  SFeqb a b = true -> a <> S754_nan /\ b <> S754_nan.
Proof.
  unfold SFeqb. destruct a, b; simpl; try discriminate;
    intros _; split; discriminate.
Qed.

Lemma SFeqb_trans (a b c : gdouble) :
  SFeqb a b = true -> SFeqb b c = true -> SFeqb a c = true.
Proof.
  intros Hab Hbc.
  destruct (SFeqb_true a b Hab) as [->|(sa & sb & -> & ->)]; [exact Hbc|].
  destruct (SFeqb_true _ c Hbc) as [<-|(sb' & sc & _ & ->)]; reflexivity.
Qed.

Lemma SFltb_false_SFleb (a b : gdouble) :
  a <> S754_nan -> b <> S754_nan -> SFltb a b = false -> SFleb b a = true.
Proof.
  unfold SFltb, SFleb. rewrite (SFcompare_antisym a b).
  destruct (SFcompare a b) as [[| |]|] eqn:H; simpl; try reflexivity;
    try discriminate.
  intros Ha Hb _. exfalso.
  destruct a, b; simpl in H; try discriminate; congruence.
Qed.

Lemma SFleb_SFltb_false (a b : gdouble) :
  SFleb a b = true -> SFltb b a = false.
Proof.
  unfold SFltb, SFleb. rewrite (SFcompare_antisym a b).
  destruct (SFcompare a b) as [[| |]|]; simpl; try reflexivity; discriminate.
Qed.

(** *** The clamp *)

Lemma CLAMP_nan : CLAMP S754_nan gdouble_zero gdouble_one = S754_nan.
Proof. reflexivity. Qed.

Lemma CLAMP_not_nan t :
  t <> S754_nan -> CLAMP t gdouble_zero gdouble_one <> S754_nan.
Proof.
  intros Ht. unfold CLAMP.
  destruct (SFltb gdouble_one t); [discriminate|].
  destruct (SFltb t gdouble_zero); [discriminate|exact Ht].
Qed.

Lemma CLAMP_bounds t :
  t <> S754_nan ->
  SFleb gdouble_zero (CLAMP t gdouble_zero gdouble_one) = true
  /\ SFleb (CLAMP t gdouble_zero gdouble_one) gdouble_one = true.
Proof.
  intros Ht. unfold CLAMP.
  destruct (SFltb gdouble_one t) eqn:H1; [split; reflexivity|].
  destruct (SFltb t gdouble_zero) eqn:H0; [split; reflexivity|].
  split.
  - apply SFltb_false_SFleb; [exact Ht|discriminate|exact H0].
  - apply SFltb_false_SFleb; [discriminate|exact Ht|exact H1].
Qed.

Lemma CLAMP_in_range t :
  SFleb gdouble_zero t = true -> SFleb t gdouble_one = true ->
  CLAMP t gdouble_zero gdouble_one = t.
Proof.
  intros H0 H1. unfold CLAMP.
  rewrite (SFleb_SFltb_false _ _ H1), (SFleb_SFltb_false _ _ H0).
  reflexivity.
Qed.

(** *** The cadence *)

(** A zero throttle gives the interval 0, whatever its sign. *)
Lemma interval_of_zero (x : gdouble) (s : bool) :
  double_to_guint (gdouble_mul x (S754_zero s)) = 0.
Proof. destruct x; reflexivity. Qed.

Lemma interval_of_equal MAX (a b : gdouble) :
  SFeqb a b = true ->
  double_to_guint (gdouble_mul (gdouble_of_int MAX) a)
  = double_to_guint (gdouble_mul (gdouble_of_int MAX) b).
Proof.
  intros H. destruct (SFeqb_true a b H) as [->|(sa & sb & -> & ->)];
    [reflexivity|].
  now rewrite !interval_of_zero.
Qed.

Lemma set_throttle_throttle MAX fs t :
  t <> S754_nan ->
  SFeqb (throttle (tracker_miner_fs_set_throttle MAX fs t))
        (CLAMP t gdouble_zero gdouble_one) = true.
Proof.
  intros Ht. unfold tracker_miner_fs_set_throttle.
  destruct (SFeqb (throttle fs) (CLAMP t gdouble_zero gdouble_one)) eqn:He;
    [exact He|].
  apply CLAMP_not_nan in Ht.
  destruct (item_queues_handler_id _); destruct (crawl_directories_id _);
    simpl; apply SFeqb_refl; exact Ht.
Qed.

Lemma set_throttle_stored MAX fs t :
  SFeqb (throttle fs) (CLAMP t gdouble_zero gdouble_one) = false ->
  throttle (tracker_miner_fs_set_throttle MAX fs t)
  = CLAMP t gdouble_zero gdouble_one.
Proof.
  intros He. unfold tracker_miner_fs_set_throttle. rewrite He.
  destruct (item_queues_handler_id _); destruct (crawl_directories_id _);
    reflexivity.
Qed.

(** C9, refuted as stated.  With the design value 10 for the interval and
    a queue handler installed, setting the throttle to 1/16 stores 1/16,
    which is not zero, and re-installs the handler as an idle hook: the
    product 0.625 is cut to the integer 0. *)
Lemma small_throttle_installs_idle_hook :
  exists fs fs',
    run 10 0 env0 [MonitorItemCreated file_a false] (tracker_miner_fs_init 1)
    = Some fs
    /\ item_queues_handler_id fs <> None
    /\ tracker_miner_fs_set_throttle 10 fs (gdouble_of_ratio 1 16) = fs'
    /\ throttle fs' = gdouble_of_ratio 1 16
    /\ SFeqb (throttle fs') gdouble_zero = false
    /\ item_queues_handler_id fs'
       = Some (IdleSource item_queue_handlers_cb_func)
    /\ items_created fs' = [file_a].
Proof.
  eexists. eexists. split; [vm_compute; reflexivity|].
  split; [discriminate|].
  split; [vm_compute; reflexivity|].
  split; [vm_compute; reflexivity|].
  split; [vm_compute; reflexivity|].
  split; reflexivity.
Qed.

(** C9, as the code has it.  Setting the throttle compares the stored
    value with the value clamped to [0,1] and returns at once when the two
    are equal; otherwise it stores the clamped value.  A value in [0,1] is
    its own clamp, the clamp of any number lies in [0,1], and NaN is not
    clamped: it is stored as it is.  The queues, the pool and the list of
    directories are not touched, a hook that is not installed stays so,
    and when the clamped value differs from the stored one, an installed
    queue handler and an installed crawl hook are installed anew with the
    cadence of the new value.  The cadence: [MAX_TIMEOUT_INTERVAL] times
    the throttle, multiplied as doubles and then cut to an integer number
    of milliseconds; an idle hook is used when that integer is 0, which is
    the case for a zero throttle (but also for small positive values), and
    a timer of that many milliseconds otherwise.  After the call the
    cadence is that of the clamped value, whatever was stored before. *)
Theorem set_throttle_clamps_and_reinstalls (MAX : Z)
    (fs : TrackerMinerFSPrivate) (t : gdouble) (HMAX : 0 <= MAX < 2 ^ 32) :
  let fs' := tracker_miner_fs_set_throttle MAX fs t in
  let clamped := CLAMP t gdouble_zero gdouble_one in
  let interval_of (x : gdouble) :=
    double_to_guint (gdouble_mul (gdouble_of_int MAX) x) in
  (SFeqb (throttle fs) clamped = true -> fs' = fs)
  /\ (SFeqb (throttle fs) clamped = false -> throttle fs' = clamped)
  /\ (t <> S754_nan ->
      SFeqb (throttle fs') clamped = true
      /\ SFleb gdouble_zero clamped = true
      /\ SFleb clamped gdouble_one = true)
  /\ (SFleb gdouble_zero t = true -> SFleb t gdouble_one = true ->
      clamped = t)
  /\ (t = S754_nan -> throttle fs' = S754_nan)
  /\ same_queues fs fs'
  /\ processing_pool fs' = processing_pool fs
  /\ directories fs' = directories fs
  /\ (item_queues_handler_id fs = None -> item_queues_handler_id fs' = None)
  /\ (crawl_directories_id fs = None -> crawl_directories_id fs' = None)
  /\ (SFeqb (throttle fs) clamped = false ->
      (item_queues_handler_id fs <> None ->
       item_queues_handler_id fs'
       = Some (_tracker_idle_add MAX fs' item_queue_handlers_cb_func))
      /\ (crawl_directories_id fs <> None ->
          crawl_directories_id fs'
          = Some (_tracker_idle_add MAX fs' crawl_directories_cb_func)))
  /\ (forall func,
        _tracker_idle_add MAX fs' func
        = (if interval_of (throttle fs') =? 0 then IdleSource func
           else TimeoutSource (interval_of (throttle fs')) func)
        /\ (t <> S754_nan ->
            _tracker_idle_add MAX fs' func
            = (if interval_of clamped =? 0 then IdleSource func
               else TimeoutSource (interval_of clamped) func))
        /\ (SFeqb (throttle fs') gdouble_zero = true ->
            _tracker_idle_add MAX fs' func = IdleSource func)).
Proof.
  cbv zeta.
  split.
  { intros He. unfold tracker_miner_fs_set_throttle. rewrite He.
    reflexivity. }
  split; [apply set_throttle_stored|].
  split.
  { intros Ht. split; [apply set_throttle_throttle, Ht|].
    apply CLAMP_bounds, Ht. }
  split; [apply CLAMP_in_range|].
  split.
  { intros ->. rewrite set_throttle_stored; [reflexivity|].
    unfold SFeqb. rewrite CLAMP_nan. destruct (throttle fs); reflexivity. }
  split; [|split; [|split; [|split; [|split; [|split]]]]].
  - unfold tracker_miner_fs_set_throttle.
    destruct (SFeqb _ _); [apply same_queues_refl|].
    destruct (item_queues_handler_id _); destruct (crawl_directories_id _);
      repeat split.
  - unfold tracker_miner_fs_set_throttle.
    destruct (SFeqb _ _); [reflexivity|].
    destruct (item_queues_handler_id _); destruct (crawl_directories_id _);
      reflexivity.
  - unfold tracker_miner_fs_set_throttle.
    destruct (SFeqb _ _); [reflexivity|].
    destruct (item_queues_handler_id _); destruct (crawl_directories_id _);
      reflexivity.
  - intros Hn. unfold tracker_miner_fs_set_throttle.
    destruct (SFeqb _ _); [exact Hn|]. simpl. rewrite Hn. simpl.
    destruct (crawl_directories_id fs); simpl; exact Hn.
  - intros Hn. unfold tracker_miner_fs_set_throttle.
    destruct (SFeqb _ _); [exact Hn|]. simpl.
    destruct (item_queues_handler_id fs); simpl; rewrite Hn; exact Hn.
  - intros He. unfold tracker_miner_fs_set_throttle. rewrite He. simpl.
    split; intros Hi.
    + destruct (item_queues_handler_id fs) as [h|]; [|congruence]. simpl.
      destruct (crawl_directories_id fs); reflexivity.
    + destruct (crawl_directories_id fs) as [h|] eqn:Hc; [|congruence].
      destruct (item_queues_handler_id fs); simpl; rewrite Hc; reflexivity.
  - intros func. split; [reflexivity|]. split.
    + intros Ht. unfold _tracker_idle_add.
      rewrite (interval_of_equal MAX _ _ (set_throttle_throttle MAX fs t Ht)).
      reflexivity.
    + intros Hz. unfold _tracker_idle_add.
      rewrite (interval_of_equal MAX _ _ Hz).
      unfold gdouble_zero. rewrite interval_of_zero. reflexivity.
Qed.

Lemma set_throttle_clamps_and_reinstalls_witness :
  0 <= 10 < 2 ^ 32
  /\ throttle
       (tracker_miner_fs_set_throttle 10 (tracker_miner_fs_init 1)
          (gdouble_of_int 7)) = gdouble_one
  /\ _tracker_idle_add 10
       (tracker_miner_fs_set_throttle 10 (tracker_miner_fs_init 1)
          (gdouble_of_int 7))
       item_queue_handlers_cb_func
     = TimeoutSource 10 item_queue_handlers_cb_func
  /\ _tracker_idle_add 10
       (tracker_miner_fs_set_throttle 10 (tracker_miner_fs_init 1)
          (gdouble_of_ratio 3 10))
       item_queue_handlers_cb_func
     = TimeoutSource 3 item_queue_handlers_cb_func.
Proof.
  assert (H : 0 <= 10 < 2 ^ 32) by lia.
  split; [exact H|].
  destruct (set_throttle_clamps_and_reinstalls 10 (tracker_miner_fs_init 1)
              (gdouble_of_int 7) H)
    as (_ & Hs & _ & _ & _ & _ & _ & _ & _ & _ & _ & Hi).
  split; [rewrite Hs; reflexivity|].
  split.
  - rewrite (proj1 (proj2 (Hi item_queue_handlers_cb_func)))
      by discriminate.
    vm_compute. reflexivity.
  - destruct (set_throttle_clamps_and_reinstalls 10 (tracker_miner_fs_init 1)
                (gdouble_of_ratio 3 10) H)
      as (_ & _ & _ & _ & _ & _ & _ & _ & _ & _ & _ & Hj).
    rewrite (proj1 (proj2 (Hj item_queue_handlers_cb_func)))
      by (vm_compute; discriminate).
    vm_compute. reflexivity.
Defined.

(** The cadence for some throttles, with 10 and with 1000 for
    [MAX_TIMEOUT_INTERVAL]: the product is rounded to the nearest double
    before it is cut, so 0.3 gives 3 and 300 milliseconds. *)
Example throttle_intervals :
  map (fun t => double_to_guint (gdouble_mul (gdouble_of_int 10) t))
      [gdouble_zero; gdouble_of_ratio 1 16; gdouble_of_ratio 1 10;
       gdouble_of_ratio 3 10; gdouble_of_ratio 99 100; gdouble_one]
  = [0; 0; 1; 3; 9; 10]
  /\ map (fun t => double_to_guint (gdouble_mul (gdouble_of_int 1000) t))
         [gdouble_zero; gdouble_of_ratio 1 16; gdouble_of_ratio 1 10;
          gdouble_of_ratio 3 10; gdouble_of_ratio 99 100; gdouble_one]
     = [0; 62; 100; 300; 990; 1000].
Proof. split; vm_compute; reflexivity. Qed.

(** ** How the callbacks act on the queues, the pool and the trace *)

Ltac break_match :=
  match goal with
  | |- context [match ?c with _ => _ end] =>
    lazymatch c with
    | context [match _ with _ => _ end] => fail
    | _ => destruct c eqn:?
    end
  end.

Lemma geb_false a b : a < b -> (a >=? b) = false.
Proof. intros H. rewrite Z.geb_leb. apply Z.leb_gt. exact H. Qed.

Lemma set_up_is_paused MAX fs :
  is_paused (item_queue_handlers_set_up MAX fs) = is_paused fs.
Proof.
  unfold item_queue_handlers_set_up.
  repeat break_match; simpl; congruence.
Qed.

Lemma set_up_pool_limit MAX fs :
  pool_limit (item_queue_handlers_set_up MAX fs) = pool_limit fs.
Proof.
  unfold item_queue_handlers_set_up.
  repeat break_match; simpl; congruence.
Qed.

Lemma set_up_installed MAX fs :
  item_queues_handler_id fs <> None -> item_queue_handlers_set_up MAX fs = fs.
Proof.
  unfold item_queue_handlers_set_up.
  destruct (item_queues_handler_id fs); congruence.
Qed.

Lemma set_up_installs MAX fs :
  is_paused fs = false ->
  g_list_length (processing_pool fs) < pool_limit fs ->
  item_queues_handler_id (item_queue_handlers_set_up MAX fs) <> None.
Proof.
  intros Hp Hl. unfold item_queue_handlers_set_up.
  destruct (item_queues_handler_id fs) eqn:Hid; [congruence|].
  rewrite Hp, geb_false by exact Hl.
  destruct (negb _); simpl; discriminate.
Qed.

Lemma count_process_file_app u t t' :
  count_process_file u (t ++ t')
  = (count_process_file u t + count_process_file u t')%nat.
Proof. unfold count_process_file. now rewrite filter_app, length_app. Qed.

Lemma emit_count u o fs :
  count_process_file u (trace (emit o fs))
  = (count_process_file u (trace fs)
     + match o with
       | ProcessFile f => if g_file_equal f u then 1 else 0
       | _ => 0
       end)%nat.
Proof.
  unfold emit. simpl. rewrite count_process_file_app. f_equal.
  unfold count_process_file. destruct o; simpl; try reflexivity.
  destruct (g_file_equal file u); reflexivity.
Qed.

Lemma item_add_or_update_cb_same_queues MAX env fs data error :
  same_queues fs (item_add_or_update_cb MAX env fs data error).
Proof.
  unfold item_add_or_update_cb. destruct error as [e|].
  - eapply same_queues_trans; [|apply set_up_same_queues].
    destruct (e =? G_IO_ERROR_NOT_FOUND); repeat split.
  - repeat split.
Qed.

Lemma item_add_or_update_cb_count MAX env fs data error u :
  count_process_file u (trace (item_add_or_update_cb MAX env fs data error))
  = count_process_file u (trace fs).
Proof.
  unfold item_add_or_update_cb. destruct error as [e|].
  - rewrite set_up_trace. destruct (e =? G_IO_ERROR_NOT_FOUND).
    + reflexivity.
    + change (trace (set_processing_pool ?p ?s)) with (trace s).
      rewrite emit_count. lia.
  - rewrite emit_count. lia.
Qed.

Lemma notify_file_same_queues MAX env fs file error :
  same_queues fs (tracker_miner_fs_notify_file MAX env fs file error).
Proof.
  unfold tracker_miner_fs_notify_file. destruct (process_data_find fs file).
  - apply item_add_or_update_cb_same_queues.
  - repeat split.
Qed.

Lemma notify_file_count MAX env fs file error u :
  count_process_file u
    (trace (tracker_miner_fs_notify_file MAX env fs file error))
  = count_process_file u (trace fs).
Proof.
  unfold tracker_miner_fs_notify_file. destruct (process_data_find fs file).
  - apply item_add_or_update_cb_count.
  - rewrite emit_count. lia.
Qed.

Lemma item_add_or_update_same_queues MAX env fs file :
  same_queues fs (snd (item_add_or_update MAX env fs file)).
Proof.
  unfold item_add_or_update, process_data_new.
  set (fs1 := emit _ _).
  assert (H1 : same_queues fs fs1) by (repeat split).
  set (fs2 := match sync_notify (process_file env file) with
              | Some error => tracker_miner_fs_notify_file MAX env fs1 file error
              | None => fs1
              end).
  assert (H2 : same_queues fs fs2).
  { subst fs2. destruct (sync_notify _); [|exact H1].
    eapply same_queues_trans; [exact H1|apply notify_file_same_queues]. }
  destruct (negb _).
  - destruct (process_data_find fs2 file); simpl;
      (eapply same_queues_trans; [exact H2|repeat split]).
  - destruct (_ >=? _); exact H2.
Qed.

Lemma item_add_or_update_count MAX env fs file u :
  count_process_file u (trace (snd (item_add_or_update MAX env fs file)))
  = (count_process_file u (trace fs)
     + if g_file_equal file u then 1 else 0)%nat.
Proof.
  unfold item_add_or_update, process_data_new.
  set (fs1 := emit _ _).
  assert (H1 : count_process_file u (trace fs1)
               = (count_process_file u (trace fs)
                  + if g_file_equal file u then 1 else 0)%nat).
  { subst fs1. rewrite emit_count. reflexivity. }
  set (fs2 := match sync_notify (process_file env file) with
              | Some error => tracker_miner_fs_notify_file MAX env fs1 file error
              | None => fs1
              end).
  assert (H2 : count_process_file u (trace fs2) = count_process_file u (trace fs1)).
  { subst fs2. destruct (sync_notify _); [|reflexivity].
    apply notify_file_count. }
  destruct (negb _).
  - destruct (process_data_find fs2 file).
    + simpl. congruence.
    + cbn [snd]. rewrite emit_count. lia.
  - destruct (_ >=? _); simpl; congruence.
Qed.

Lemma item_queue_handlers_cb_unfold MAX fuel env fs :
  item_queue_handlers_cb MAX fuel env fs
  = let '(queue, file, source_file, fs1) := item_queue_get_next_file fs in
    if match file with
       | Some f => tracker_file_is_locked env f
       | None => false
       end
    then Some (true, fs1)
    else
      let fs2 := before_dispatch env fs1 in
      after_dispatch
        match queue, file, source_file with
        | QUEUE_NONE, _, _ =>
          Some (false,
                if negb (is_crawling fs2)
                   && match processing_pool fs2 with
                      | [] => true
                      | _ => false
                      end
                then process_stop fs2 else fs2)
        | QUEUE_MOVED, Some f, Some s => item_move MAX fuel env fs2 f s
        | QUEUE_DELETED, Some f, _ => Some (item_remove env fs2 f)
        | QUEUE_CREATED, Some f, _ => Some (item_add_or_update MAX env fs2 f)
        | QUEUE_UPDATED, Some f, _ => Some (item_add_or_update MAX env fs2 f)
        | _, _, _ => None
        end.
Proof. reflexivity. Qed.

Lemma before_dispatch_frame env fs :
  same_queues fs (before_dispatch env fs)
  /\ processing_pool (before_dispatch env fs) = processing_pool fs
  /\ trace (before_dispatch env fs) = trace fs
  /\ item_queues_handler_id (before_dispatch env fs) = item_queues_handler_id fs
  /\ pool_limit (before_dispatch env fs) = pool_limit fs
  /\ is_paused (before_dispatch env fs) = is_paused fs.
Proof.
  unfold before_dispatch.
  destruct (negb (timer fs)); simpl;
    match goal with |- context [if ?c then _ else _] => destruct c end;
    repeat split.
Qed.

(** ** C8: created, then deleted *)

(** C8, refuted as stated.  A file is created and deleted before the
    handler runs.  The two ticks that drain the queues first handle the
    deletion, then the creation: the queues end empty, but the extractor
    has been called for the file. *)
Lemma created_then_deleted_is_extracted :
  exists fs,
    run 10 0 env0
        [MonitorItemCreated file_a false; MonitorItemDeleted file_a false;
         ItemQueueHandlers; ItemQueueHandlers] (tracker_miner_fs_init 1)
    = Some fs
    /\ pending_items fs = []
    /\ trace fs = [ProcessFile file_a].
Proof.
  eexists. split; [vm_compute; reflexivity|]. split; reflexivity.
Qed.

Lemma pending_items_nil fs :
  pending_items fs = [] ->
  items_deleted fs = [] /\ items_created fs = [] /\ items_updated fs = []
  /\ items_moved fs = [].
Proof.
  unfold pending_items. intros Hq.
  apply app_eq_nil in Hq. destruct Hq as (Hd & Hq).
  apply app_eq_nil in Hq. destruct Hq as (Hcr & Hq).
  apply app_eq_nil in Hq. destruct Hq as (Hu & Hm).
  apply map_eq_nil in Hd, Hcr, Hu, Hm. auto.
Qed.

(** C8, as the code has it.  Start with empty queues, an empty pool and no
    handler installed, the miner not paused.  A created event and then a
    deleted event for a file that passes the check, is not locked and is
    not in the store leave [Deleted u] and [Created u] both queued.  The
    next two ticks of the handler drain the queues: the first handles the
    deletion (nothing to remove from the store), the second hands the file
    to the extractor.  The queues end empty and [::process-file] has been
    emitted exactly once more for the file. *)
Theorem created_then_deleted_is_dispatched (MAX : Z) (fuel : nat) (env : Env)
    (fs : TrackerMinerFSPrivate) (u : GFile)
    (Hq : pending_items fs = []) (Hh : item_queues_handler_id fs = None)
    (Hp : is_paused fs = false) (Hpool : processing_pool fs = [])
    (Hlim : 1 <= pool_limit fs)
    (Hc : check_file env u = true)
    (Hl : tracker_file_is_locked env u = false)
    (Hs : store_exists env u = false) :
  match run MAX fuel env
            [MonitorItemCreated u false; MonitorItemDeleted u false] fs with
  | Some fs1 =>
    pending_items fs1 = [Deleted u; Created u]
    /\ match run MAX fuel env [ItemQueueHandlers; ItemQueueHandlers] fs1 with
       | Some fs2 =>
         pending_items fs2 = []
         /\ count_process_file u (trace fs2)
            = S (count_process_file u (trace fs))
       | None => False
       end
  | None => False
  end.
Proof.
  destruct (pending_items_nil fs Hq) as (Hd & Hcr & Hu & Hm).
  unfold run at 1, step.
  (* the created event *)
  set (fa := monitor_item_created_cb MAX env fs u false).
  assert (Ea : fa = item_queue_handlers_set_up MAX
                      (set_items_created (items_created fs ++ [u]) fs)).
  { subst fa. unfold monitor_item_created_cb, should_check_file.
    rewrite Hc. reflexivity. }
  assert (Qa : items_deleted fa = [] /\ items_created fa = [u]
               /\ items_updated fa = [] /\ items_moved fa = []).
  { rewrite Ea.
    match goal with |- context [item_queue_handlers_set_up MAX ?s] =>
      destruct (set_up_same_queues MAX s) as (a & b & c & d)
    end.
    rewrite a, b, c, d. simpl. rewrite Hd, Hcr, Hu, Hm. repeat split; auto. }
  assert (Ia : item_queues_handler_id fa <> None).
  { rewrite Ea. apply set_up_installs; simpl; [exact Hp|].
    rewrite Hpool. unfold g_list_length. simpl. change (guint 0) with 0. lia. }
  assert (Pa : processing_pool fa = [] /\ trace fa = trace fs).
  { rewrite Ea, set_up_pool, set_up_trace. simpl. repeat split; auto. }
  (* the deleted event *)
  set (fb := monitor_item_deleted_cb MAX env fa u false).
  assert (Eb : fb = set_items_deleted [u] fa).
  { subst fb. unfold monitor_item_deleted_cb, should_check_file.
    rewrite Hc. rewrite set_up_installed by exact Ia.
    destruct Qa as (-> & _). reflexivity. }
  clearbody fa fb. subst fb. clear Ea.
  destruct Qa as (Da & Ca & Ua & Ma). destruct Pa as (Pa & Ta).
  split.
  { unfold pending_items. simpl. rewrite Ca, Ua, Ma. reflexivity. }
  (* first tick: the deletion *)
  unfold run, step.
  change (item_queues_handler_id (set_items_deleted [u] fa))
    with (item_queues_handler_id fa).
  destruct (item_queues_handler_id fa) as [src|] eqn:Hsrc; [|congruence].
  rewrite item_queue_handlers_cb_unfold.
  unfold item_queue_get_next_file at 1.
  change (items_deleted (set_items_deleted [u] fa)) with [u].
  cbv iota beta. rewrite Hl.
  set (f1 := before_dispatch env _).
  assert (F1 : items_deleted f1 = [] /\ items_created f1 = [u]
               /\ items_updated f1 = [] /\ items_moved f1 = []
               /\ trace f1 = trace fs
               /\ item_queues_handler_id f1 = Some src).
  { subst f1.
    match goal with |- context [before_dispatch env ?s] =>
      destruct (before_dispatch_frame env s)
        as ((a & b & c & d) & _ & t & h & _)
    end.
    rewrite a, b, c, d, t, h. simpl. repeat split; auto. }
  clearbody f1. destruct F1 as (D1 & C1 & U1 & M1 & T1 & H1).
  unfold item_remove, item_query_exists. rewrite Hs. cbn [negb after_dispatch].
  set (f2 := if been_crawled f1 then tracker_miner_commit f1 else f1).
  assert (F2 : items_deleted f2 = [] /\ items_created f2 = [u]
               /\ items_updated f2 = [] /\ items_moved f2 = []
               /\ count_process_file u (trace f2)
                  = count_process_file u (trace fs)
               /\ item_queues_handler_id f2 = Some src).
  { subst f2. destruct (been_crawled f1).
    - unfold tracker_miner_commit. rewrite emit_count, T1. simpl.
      repeat split; auto; lia.
    - rewrite T1. repeat split; auto. }
  clearbody f2. destruct F2 as (D2 & C2 & U2 & M2 & T2 & H2).
  (* second tick: the creation *)
  rewrite H2. rewrite item_queue_handlers_cb_unfold.
  unfold item_queue_get_next_file. rewrite D2, C2. cbv iota beta. rewrite Hl.
  set (f3 := before_dispatch env _).
  assert (F3 : items_deleted f3 = [] /\ items_created f3 = []
               /\ items_updated f3 = [] /\ items_moved f3 = []
               /\ count_process_file u (trace f3)
                  = count_process_file u (trace fs)).
  { subst f3.
    match goal with |- context [before_dispatch env ?s] =>
      destruct (before_dispatch_frame env s)
        as ((a & b & c & d) & _ & t & _)
    end.
    rewrite a, b, c, d, t. simpl. repeat split; auto. }
  clearbody f3. destruct F3 as (D3 & C3 & U3 & M3 & T3).
  pose proof (item_add_or_update_same_queues MAX env f3 u) as (a & b & c & d).
  pose proof (item_add_or_update_count MAX env f3 u u) as t.
  rewrite g_file_equal_refl in t.
  destruct (item_add_or_update MAX env f3 u) as [keep f4].
  simpl in a, b, c, d, t. unfold after_dispatch.
  destruct keep; cbn [negb].
  - destruct (been_crawled f4).
    + unfold tracker_miner_commit, pending_items. rewrite emit_count. simpl.
      rewrite a, b, c, d, D3, C3, U3, M3, t, T3. split; [reflexivity|lia].
    + unfold pending_items.
      rewrite a, b, c, d, D3, C3, U3, M3, t, T3. split; [reflexivity|lia].
  - unfold pending_items. simpl.
    rewrite a, b, c, d, D3, C3, U3, M3, t, T3. split; [reflexivity|lia].
Qed.

Lemma created_then_deleted_is_dispatched_witness :
  match run 10 0 env0
            [MonitorItemCreated file_a false; MonitorItemDeleted file_a false;
             ItemQueueHandlers; ItemQueueHandlers] (tracker_miner_fs_init 1)
  with
  | Some fs2 => count_process_file file_a (trace fs2) = 1%nat
  | None => False
  end.
Proof.
  pose proof (created_then_deleted_is_dispatched 10 0 env0
                (tracker_miner_fs_init 1) file_a eq_refl eq_refl eq_refl
                eq_refl (Z.le_refl 1) eq_refl eq_refl eq_refl) as H.
  vm_compute in H. vm_compute. exact (proj2 (proj2 H)).
Defined.

(** ** C3: the pool limit *)

Lemma g_list_length_small {A : Type} (l : list A) :
  Z.of_nat (List.length l) < 2 ^ 32 ->
  g_list_length l = Z.of_nat (List.length l).
Proof. intros H. unfold g_list_length. apply guint_small. lia. Qed.

Lemma g_list_remove_head d l : g_list_remove (d :: l) (pd_data d) = l.
Proof. simpl. now rewrite Nat.eqb_refl. Qed.

Lemma pool_inv_set_up MAX fs :
  0 <= pool_limit fs < 2 ^ 32
  /\ Z.of_nat (List.length (processing_pool fs)) <= pool_limit fs ->
  (item_queues_handler_id fs <> None ->
   Z.of_nat (List.length (processing_pool fs)) < pool_limit fs) ->
  pool_inv (item_queue_handlers_set_up MAX fs).
Proof.
  intros (Hr & Hle) Hlt. unfold pool_inv.
  rewrite set_up_pool, set_up_pool_limit.
  split; [exact Hr|]. split; [exact Hle|].
  unfold item_queue_handlers_set_up.
  destruct (item_queues_handler_id fs) eqn:Hid.
  - intros _. apply Hlt. congruence.
  - destruct (is_paused fs); [rewrite Hid; congruence|].
    destruct (_ >=? _) eqn:Hge; [rewrite Hid; congruence|].
    intros _. rewrite Z.geb_leb in Hge. apply Z.leb_gt in Hge.
    rewrite g_list_length_small in Hge by lia. exact Hge.
Qed.

Lemma crawl_directories_start_frame MAX fs :
  processing_pool (crawl_directories_start MAX fs) = processing_pool fs
  /\ pool_limit (crawl_directories_start MAX fs) = pool_limit fs
  /\ item_queues_handler_id (crawl_directories_start MAX fs)
     = item_queues_handler_id fs.
Proof.
  unfold crawl_directories_start.
  destruct (crawl_directories_id fs); [auto|].
  destruct (negb (been_started fs)); [auto|].
  destruct (negb (timer fs)); auto.
Qed.

Lemma next_file_frame fs queue file source_file fs1 :
  item_queue_get_next_file fs = (queue, file, source_file, fs1) ->
  processing_pool fs1 = processing_pool fs
  /\ pool_limit fs1 = pool_limit fs
  /\ item_queues_handler_id fs1 = item_queues_handler_id fs.
Proof.
  unfold item_queue_get_next_file.
  destruct (items_deleted fs); [|intros [= <- <- <- <-]; auto].
  destruct (items_created fs); [|intros [= <- <- <- <-]; auto].
  destruct (items_updated fs); [|intros [= <- <- <- <-]; auto].
  destruct (items_moved fs); intros [= <- <- <- <-]; auto.
Qed.

Lemma crawler_found_frame found fs :
  let fs' := fold_left
               (fun fs (l : GFile * bool) =>
                  if negb (snd l)
                  then set_items_created (items_created fs ++ [fst l]) fs
                  else fs) found fs in
  processing_pool fs' = processing_pool fs
  /\ pool_limit fs' = pool_limit fs
  /\ item_queues_handler_id fs' = item_queues_handler_id fs.
Proof.
  revert fs. induction found as [|l found IH]; intros fs; simpl; [auto|].
  destruct (IH (if negb (snd l)
                then set_items_created (items_created fs ++ [fst l]) fs
                else fs)) as (a & b & c).
  rewrite a, b, c. destruct (negb (snd l)); auto.
Qed.

(** C3, where the code breaks it.  The pool limit is 1.  Two files known
    to the store are renamed while monitored; both moves are queued.  The
    first tick of the handler carries out the first move, puts its file in
    the pool and returns [TRUE] without looking at the pool size, so the
    handler stays installed; the second tick does the same for the second
    move.  The miner has reached a state with two entries in a pool
    limited to one. *)
Theorem pool_exceeds_limit_after_two_moves :
  exists fs,
    reachable 10 fs
    /\ run 10 5 env_stored
           [MonitorItemMoved ["a"] ["b"] false true;
            MonitorItemMoved ["c"] ["d"] false true;
            ItemQueueHandlers; ItemQueueHandlers] (tracker_miner_fs_init 1)
       = Some fs
    /\ pool_limit fs = 1
    /\ map pd_file (processing_pool fs) = [["d"]; ["b"]]
    /\ pool_limit fs < g_list_length (processing_pool fs).
Proof.
  eexists. split; [|split; [vm_compute; reflexivity|]].
  - eapply (run_reachable 10 5 env_stored
              [MonitorItemMoved ["a"] ["b"] false true;
               MonitorItemMoved ["c"] ["d"] false true;
               ItemQueueHandlers; ItemQueueHandlers]).
    + apply (reachable_init 10 1). lia.
    + vm_compute. reflexivity.
  - repeat split.
Qed.

(** ** C7: moving an item *)

Lemma string_app_assoc (a b c : string) : (a +++ b) +++ c = a +++ b +++ c.
Proof. induction a as [|x a IH]; simpl; [reflexivity|]. now rewrite IH. Qed.

Lemma string_app_nil_r (a : string) : a +++ EmptyString = a.
Proof. induction a as [|x a IH]; simpl; [reflexivity|]. now rewrite IH. Qed.

Lemma substring_none (n : nat) (s : string) :
  String.substring n 0 s = EmptyString.
Proof.
  revert s. induction n as [|n IH]; intros [|x s]; simpl; auto.
Qed.

Lemma moved_uri_source source_uri uri : moved_uri source_uri uri source_uri = uri.
Proof.
  unfold moved_uri, str_offset. rewrite Nat.sub_diag, substring_none.
  apply string_app_nil_r.
Qed.

Lemma uri_statements_app s u a b :
  uri_statements s u (a ++ b) = uri_statements s u a +++ uri_statements s u b.
Proof.
  induction a as [|x a IH]; cbn [uri_statements app]; [reflexivity|].
  now rewrite IH, string_app_assoc.
Qed.

Lemma update_step data outstanding c :
  item_update_uri_recursively (data, outstanding) c
    (rmd_uri data +++ str_offset c (String.length (rmd_source_uri data)))
  = ({| rmd_level := rmd_level data + 1;
        rmd_sparql := rmd_sparql data
                      +++ uri_statement (rmd_source_uri data) (rmd_uri data) c;
        rmd_source_uri := rmd_source_uri data;
        rmd_uri := rmd_uri data |},
     outstanding ++ [c]).
Proof. reflexivity. Qed.

Lemma log_all_nil fs : log_all [] fs = fs.
Proof. destruct fs. unfold log_all. simpl. now rewrite app_nil_r. Qed.

Lemma log_all_app l1 l2 fs :
  log_all l2 (log_all l1 fs) = log_all (l1 ++ l2) fs.
Proof. destruct fs. unfold log_all. simpl. now rewrite app_assoc. Qed.

Lemma callback_rows rows fs data outstanding :
  fold_left
    (fun (acc : TrackerMinerFSPrivate * MoveState)
         (child_source_uri : string) =>
       let '(fs, st) := acc in
       let data := fst st in
       if negb (g_str_has_prefix child_source_uri (rmd_source_uri data))
       then
         (emit (Warning ("Child URI '" +++ child_source_uri
                         +++ "' does not start with parent URI '"
                         +++ rmd_source_uri data +++ "'")) fs, st)
       else
         let child_uri :=
           rmd_uri data
           +++ str_offset child_source_uri
                 (String.length (rmd_source_uri data)) in
         (fs, item_update_uri_recursively st child_source_uri child_uri))
    rows (fs, (data, outstanding))
  = (log_all (answer_log (rmd_source_uri data) (Some rows)) fs,
     ({| rmd_level := rmd_level data
                      + Z.of_nat (List.length
                                    (taken (rmd_source_uri data) (Some rows)));
         rmd_sparql := rmd_sparql data
                       +++ uri_statements (rmd_source_uri data) (rmd_uri data)
                             (taken (rmd_source_uri data) (Some rows));
         rmd_source_uri := rmd_source_uri data;
         rmd_uri := rmd_uri data |},
      outstanding ++ taken (rmd_source_uri data) (Some rows))).
Proof.
  revert fs data outstanding.
  induction rows as [|c rows IH]; intros fs data outstanding.
  - cbn [fold_left taken answer_log map filter List.length uri_statements].
    rewrite Z.add_0_r, string_app_nil_r, app_nil_r, log_all_nil.
    destruct data; reflexivity.
  - cbn [fold_left taken answer_log filter]. cbv zeta. cbn [fst].
    destruct (g_str_has_prefix c (rmd_source_uri data)) eqn:Hp; cbn [negb].
    + rewrite update_step, IH.
      cbn [rmd_level rmd_sparql rmd_source_uri rmd_uri taken answer_log
           List.length uri_statements].
      rewrite <- app_assoc. cbn [app]. f_equal. f_equal. f_equal.
      * rewrite Nat2Z.inj_succ. lia.
      * apply string_app_assoc.
    + rewrite IH. cbn [map answer_log].
      change (emit ?o fs) with (log_all [o] fs).
      rewrite log_all_app. reflexivity.
Qed.

Lemma callback_eq fs data outstanding rows :
  item_update_uri_recursively_cb fs (data, outstanding) rows
  = (log_all (answer_log (rmd_source_uri data) rows) fs,
     ({| rmd_level := rmd_level data
                      + Z.of_nat (List.length (taken (rmd_source_uri data) rows))
                      - 1;
         rmd_sparql := rmd_sparql data
                       +++ uri_statements (rmd_source_uri data) (rmd_uri data)
                             (taken (rmd_source_uri data) rows);
         rmd_source_uri := rmd_source_uri data;
         rmd_uri := rmd_uri data |},
      outstanding ++ taken (rmd_source_uri data) rows)).
Proof.
  unfold item_update_uri_recursively_cb. destruct rows as [rows|].
  - rewrite callback_rows. reflexivity.
  - cbn [taken List.length uri_statements answer_log].
    rewrite Z.add_0_r, string_app_nil_r, app_nil_r. reflexivity.
Qed.

Lemma taken_In source_uri rows c :
  In c (taken source_uri rows)
  <-> exists l, rows = Some l /\ In c l /\ g_str_has_prefix c source_uri = true.
Proof.
  unfold taken. destruct rows as [l|].
  - rewrite filter_In. split.
    + intros (a & b). exists l. auto.
    + intros (l' & [= <-] & a & b). auto.
  - split; [intros []|intros (l & H & _); discriminate].
Qed.

Lemma move_inv_closed env source_uri uri base data uris :
  move_inv env source_uri uri base data [] uris ->
  forall c, In c uris <-> reached env source_uri c.
Proof.
  intros (_ & _ & _ & _ & Hs & Hr & _ & Hc) c. split; [apply Hr|].
  induction 1 as [|parent child rows Hp IH Hrows Hin Hpre]; [exact Hs|].
  destruct (Hc parent IH) as [[]|Hcl].
  apply Hcl. apply taken_In. exists rows. auto.
Qed.

Lemma move_inv_callback env source_uri uri base fs data q outstanding uris :
  move_inv env source_uri uri base data (q :: outstanding) uris ->
  let st := snd (item_update_uri_recursively_cb fs (data, outstanding)
                   (store_children env q)) in
  move_inv env source_uri uri base (fst st) (snd st)
           (uris ++ taken source_uri (store_children env q)).
Proof.
  intros (Hsrc & Huri & Hlev & Htext & Hs & Hr & Ho & Hc). cbv zeta.
  rewrite callback_eq. cbn [fst snd]. rewrite Hsrc, Huri.
  set (cs := taken source_uri (store_children env q)).
  unfold move_inv.
  cbn [rmd_level rmd_sparql rmd_source_uri rmd_uri].
  split; [reflexivity|]. split; [reflexivity|].
  split.
  { rewrite Hlev, length_app. cbn [List.length]. lia. }
  split.
  { rewrite Htext, uri_statements_app. apply string_app_assoc. }
  split; [apply in_or_app; auto|].
  split.
  { intros c Hin. apply in_app_or in Hin. destruct Hin as [Hin|Hin];
      [apply Hr, Hin|].
    apply taken_In in Hin. destruct Hin as (rows & Hrows & Hin & Hpre).
    apply (reached_child env source_uri q c rows); auto.
    apply Hr, Ho. left. reflexivity. }
  split.
  { intros c Hin. apply in_or_app. apply in_app_or in Hin.
    destruct Hin as [Hin|Hin]; [left; apply Ho; right; exact Hin|right; exact Hin]. }
  intros p Hin. apply in_app_or in Hin. destruct Hin as [Hin|Hin].
  - destruct (Hc p Hin) as [[Heq|Hrest]|Hcl].
    + right. subst p. intros c Hcin. apply in_or_app. right. exact Hcin.
    + left. apply in_or_app. left. exact Hrest.
    + right. intros c Hcin. apply in_or_app. left. apply Hcl, Hcin.
  - left. apply in_or_app. right. exact Hin.
Qed.

(** When the nested loop returns, the text holds one statement for each
    URI reached, and for nothing else; the lookups have been answered in
    the order of the statements, and each answer has been logged. *)
Lemma g_main_loop_run_text env source_uri uri base fuel :
  forall fs data outstanding uris fs' r,
    move_inv env source_uri uri base data outstanding uris ->
    g_main_loop_run fuel env fs (data, outstanding) = Some (fs', r) ->
    exists uris' more,
      rmd_sparql r = base +++ uri_statements source_uri uri uris'
      /\ (forall c, In c uris' <-> reached env source_uri c)
      /\ uris' = uris ++ more
      /\ fs' = log_all
                 (flat_map (fun p => answer_log source_uri
                                       (store_children env p))
                           (outstanding ++ more)) fs.
Proof.
  induction fuel as [|fuel IH]; intros fs data outstanding uris fs' r Hinv;
    cbn [g_main_loop_run]; [discriminate|].
  cbn [snd fst]. destruct outstanding as [|q outstanding]; [discriminate|].
  pose proof (move_inv_callback _ _ _ _ fs _ _ _ _ Hinv) as Hinv'.
  cbv zeta in Hinv'.
  assert (Hsrc : rmd_source_uri data = source_uri) by apply Hinv.
  rewrite callback_eq in *. rewrite Hsrc in *. cbn [fst snd] in *.
  set (L := fun p => answer_log source_uri (store_children env p)).
  match goal with |- context [if ?c then _ else _] => destruct c eqn:Hz end.
  - intros [= <- <-]. apply Z.eqb_eq in Hz. cbn [rmd_level] in Hz.
    assert (Hnil : outstanding ++ taken source_uri (store_children env q) = []).
    { destruct Hinv' as (_ & _ & Hlev & _). cbn [rmd_level] in Hlev.
      rewrite Hz in Hlev.
      destruct (outstanding ++ taken source_uri (store_children env q));
        [reflexivity|simpl in Hlev; lia]. }
    rewrite Hnil in Hinv'.
    apply app_eq_nil in Hnil. destruct Hnil as (-> & Ht).
    exists (uris ++ taken source_uri (store_children env q)), [].
    split; [apply Hinv'|]. split; [eapply move_inv_closed; eauto|].
    split; [rewrite Ht; reflexivity|].
    cbn [app flat_map]. rewrite app_nil_r. reflexivity.
  - intros Hrun.
    destruct (IH _ _ _ _ _ _ Hinv' Hrun) as (uris' & more & a & b & c & d).
    exists uris', (taken source_uri (store_children env q) ++ more).
    split; [exact a|]. split; [exact b|].
    split; [rewrite c; symmetry; apply app_assoc|].
    rewrite d, log_all_app. f_equal.
    cbn [app flat_map]. fold L. rewrite <- app_assoc. reflexivity.
Qed.

(** *** The nested loop returns in a bounded store *)

Lemma lookups_bound_pos B d : (1 <= lookups_bound B d)%nat.
Proof. destruct d; simpl; lia. Qed.

Lemma lookups_bound_mono B d d' :
  (d <= d')%nat -> (lookups_bound B d <= lookups_bound B d')%nat.
Proof.
  intros H. induction H as [|d' H IH]; [lia|].
  destruct B as [|B].
  - assert (E : forall k, lookups_bound 0 k = 1%nat) by (intros [|k]; reflexivity).
    rewrite !E. lia.
  - cbn [lookups_bound]. pose proof (lookups_bound_pos (S B) d'). nia.
Qed.

Lemma lookups_left_app N B a b :
  lookups_left N B (a ++ b) = (lookups_left N B a + lookups_left N B b)%nat.
Proof. unfold lookups_left. now rewrite map_app, list_sum_app. Qed.

Lemma lookups_left_children N B d cs :
  (List.length cs <= B)%nat ->
  (forall c, In c cs -> (N - String.length c <= d)%nat) ->
  (lookups_left N B cs <= B * lookups_bound B d)%nat.
Proof.
  intros Hlen Hd.
  assert (H : (lookups_left N B cs <= List.length cs * lookups_bound B d)%nat).
  { clear Hlen. unfold lookups_left.
    induction cs as [|c cs IH]; cbn [map list_sum fold_right List.length]; [lia|].
    assert (lookups_bound B (N - String.length c) <= lookups_bound B d)%nat
      by (apply lookups_bound_mono, Hd; left; reflexivity).
    assert (list_sum (map (fun c0 => lookups_bound B (N - String.length c0)) cs)
            <= List.length cs * lookups_bound B d)%nat
      by (apply IH; intros; apply Hd; right; assumption).
    rewrite Nat.mul_succ_l. unfold list_sum in *. lia. }
  pose proof (lookups_bound_pos B d). nia.
Qed.

Lemma taken_length source_uri rows l :
  rows = Some l -> (List.length (taken source_uri rows) <= List.length l)%nat.
Proof. intros ->. apply filter_length_le. Qed.

(** A callback leaves fewer lookups to come. *)
Lemma lookups_left_callback env N B source_uri q outstanding :
  store_bounded env N B ->
  (lookups_left N B (outstanding ++ taken source_uri (store_children env q))
   < lookups_left N B (q :: outstanding))%nat.
Proof.
  intros Hb. rewrite lookups_left_app.
  change (q :: outstanding) with ([q] ++ outstanding).
  rewrite lookups_left_app.
  assert (H : (lookups_left N B (taken source_uri (store_children env q))
               < lookups_left N B [q])%nat); [|lia].
  unfold lookups_left at 2. cbn [map list_sum fold_right]. rewrite Nat.add_0_r.
  destruct (store_children env q) as [rows|] eqn:Hrows.
  - destruct (Hb q rows Hrows) as (Hlen & Hch).
    destruct (taken source_uri (Some rows)) as [|c0 cs0] eqn:Ht.
    + unfold lookups_left. simpl. apply lookups_bound_pos.
    + assert (Hc0 : In c0 rows).
      { assert (Hin : In c0 (taken source_uri (Some rows)))
          by (rewrite Ht; left; reflexivity).
        apply taken_In in Hin. destruct Hin as (l & [= <-] & Hin & _).
        exact Hin. }
      pose proof (Hch c0 Hc0) as Hq.
      destruct (N - String.length q)%nat as [|d] eqn:Hd; [lia|].
      rewrite <- Ht. cbn [lookups_bound].
      apply Nat.lt_succ_r. apply lookups_left_children.
      * pose proof (taken_length source_uri (Some rows) rows eq_refl). lia.
      * intros c Hin. apply taken_In in Hin.
        destruct Hin as (l & [= <-] & Hin & _).
        pose proof (Hch c Hin). lia.
  - unfold lookups_left. simpl. apply lookups_bound_pos.
Qed.

Lemma g_main_loop_run_returns env N B fuel :
  store_bounded env N B ->
  forall fs data outstanding,
    rmd_level data = Z.of_nat (List.length outstanding) ->
    outstanding <> [] ->
    (lookups_left N B outstanding <= fuel)%nat ->
    exists r, g_main_loop_run fuel env fs (data, outstanding) = Some r.
Proof.
  intros Hb. induction fuel as [|fuel IH];
    intros fs data outstanding Hlev Hne Hfuel.
  - destruct outstanding as [|q outstanding]; [congruence|].
    change (q :: outstanding) with ([q] ++ outstanding) in Hfuel.
    rewrite lookups_left_app in Hfuel. unfold lookups_left at 1 in Hfuel.
    cbn [map list_sum fold_right] in Hfuel.
    pose proof (lookups_bound_pos B (N - String.length q)). lia.
  - destruct outstanding as [|q outstanding]; [congruence|].
    cbn [g_main_loop_run snd fst].
    pose proof (lookups_left_callback env N B (rmd_source_uri data) q
                  outstanding Hb) as Hless.
    rewrite callback_eq. cbn [fst snd rmd_level].
    match goal with |- context [if ?c then _ else _] => destruct c eqn:Hz end;
      [eauto|].
    apply IH.
    + cbn [rmd_level]. rewrite Hlev, length_app. cbn [List.length]. lia.
    + apply Z.eqb_neq in Hz. rewrite Hlev in Hz.
      intros Hnil. apply app_eq_nil in Hnil. destruct Hnil as (H1 & H2).
      rewrite H1, H2 in Hz. cbn [List.length] in Hz. lia.
    + lia.
Qed.

Lemma set_items_created_pop f fs :
  items_created fs = [] ->
  set_items_created [] (set_items_created [f] fs) = fs.
Proof. destruct fs. simpl. intros ->. reflexivity. Qed.

Lemma set_items_deleted_pop f fs :
  items_deleted fs = [] ->
  set_items_deleted [] (set_items_deleted [f] fs) = fs.
Proof. destruct fs. simpl. intros ->. reflexivity. Qed.

(** C7, refuted as stated.  In the store, [file:///a] contains a resource
    whose URI is [file:///x/b].  Moving [/a] to [/b] logs a warning for
    that child and submits a batch that rewrites the file name and the URI
    of [file:///a] and holds no statement for the stored descendant
    [file:///x/b]. *)
Lemma stray_descendant_is_not_rewritten :
  exists fs',
    item_move 10 5 env_stray (tracker_miner_fs_init 1) ["b"] ["a"]
    = Some (true, fs')
    /\ descendant env_stray "file:///a" "file:///x/b"
    /\ trace fs'
       = [child_warning "file:///a" "file:///x/b";
          BatchUpdate
            (move_header "file:///a" "file:///b" "b"
             +++ uri_statements "file:///a" "file:///b" ["file:///a"]
             +++ " }") 0].
Proof.
  eexists. split; [vm_compute; reflexivity|]. split.
  - apply (descendant_child env_stray "file:///a" "file:///x/b"
             ["file:///x/b"]); [reflexivity|left; reflexivity].
  - vm_compute. reflexivity.
Qed.

(** C7, as the code has it.  When the store does not know the source,
    [item_move] is [item_add_or_update] on the destination, and a tick that
    finds the move at the head of the queues does what it would do with
    [Created] of the destination there.  When the store knows the source
    and the destination cannot be queried, [item_move] is [item_remove] on
    the source, and the tick does what it would do with [Deleted] of the
    source (both files unlocked).  Otherwise, whenever [item_move] returns,
    it has kept the handler going, put the destination in the pool and
    submitted one batch: the header that replaces the file name of the
    source by the escaped display name of the destination, then one URI
    statement for the source and for each URI reached from it through
    children whose URI starts with the source URI, and for nothing else;
    the batch is built from the result of the nested loop, which returns
    only when no lookup is outstanding.  Before the batch, the answers to
    the lookups have been logged in the order of the statements: a
    critical message for a lookup that failed, which counts as having no
    children, and a warning for each child whose URI does not start with
    the source URI, which is skipped with all that is stored below it.
    In a finite store where contained resources have longer URIs,
    [item_move] returns when given the fuel [lookups_bound]. *)
Theorem item_move_cases (MAX : Z) (fuel : nat) (env : Env)
    (fs : TrackerMinerFSPrivate) (file source_file : GFile) :
  let source_uri := g_file_get_uri source_file in
  let uri := g_file_get_uri file in
  (item_query_exists env source_file = false ->
   item_move MAX fuel env fs file source_file
   = Some (item_add_or_update MAX env fs file)
   /\ forall rest,
        items_deleted fs = [] -> items_created fs = [] ->
        items_updated fs = [] ->
        items_moved fs
        = {| imd_file := file; imd_source_file := source_file |} :: rest ->
        item_queue_handlers_cb MAX fuel env fs
        = item_queue_handlers_cb MAX fuel env
            (set_items_created [file] (set_items_moved rest fs)))
  /\ (item_query_exists env source_file = true ->
      query_display_name env file = None ->
      item_move MAX fuel env fs file source_file
      = Some (item_remove env fs source_file)
      /\ forall rest,
           items_deleted fs = [] -> items_created fs = [] ->
           items_updated fs = [] ->
           items_moved fs
           = {| imd_file := file; imd_source_file := source_file |} :: rest ->
           tracker_file_is_locked env file = false ->
           tracker_file_is_locked env source_file = false ->
           item_queue_handlers_cb MAX fuel env fs
           = item_queue_handlers_cb MAX fuel env
               (set_items_deleted [source_file] (set_items_moved rest fs)))
  /\ (forall display_name,
        item_query_exists env source_file = true ->
        query_display_name env file = Some display_name ->
        (forall keep fs',
           item_move MAX fuel env fs file source_file = Some (keep, fs') ->
           keep = true
           /\ same_queues fs fs'
           /\ processing_pool fs'
              = {| pd_data := next_data fs; pd_file := file;
                   pd_cancellable := None; pd_builder := false |}
                :: processing_pool fs
           /\ exists uris,
               trace fs'
               = trace fs
                 ++ flat_map (fun p => answer_log source_uri
                                         (store_children env p))
                             (source_uri :: uris)
                 ++ [BatchUpdate
                       (move_header source_uri uri
                          (g_strescape env display_name)
                        +++ uri_statements source_uri uri (source_uri :: uris)
                        +++ " }") (next_data fs)]
               /\ forall c, In c (source_uri :: uris)
                            <-> reached env source_uri c)
        /\ (forall N B,
              store_bounded env N B ->
              (lookups_bound B (N - String.length source_uri) <= fuel)%nat ->
              item_move MAX fuel env fs file source_file <> None)).
Proof.
  cbv zeta. split; [|split].
  - intros Hs. split.
    + unfold item_move. rewrite Hs. reflexivity.
    + intros rest Hd Hc Hu Hm. rewrite !item_queue_handlers_cb_unfold.
      unfold item_queue_get_next_file.
      cbn [items_deleted items_created items_updated items_moved
           set_items_created set_items_moved].
      rewrite Hd, Hc, Hu, Hm. cbn [imd_file imd_source_file].
      rewrite set_items_created_pop by (simpl; exact Hc).
      destruct (tracker_file_is_locked env file); [reflexivity|].
      cbv zeta. unfold item_move. rewrite Hs. reflexivity.
  - intros Hs Hq. split.
    + unfold item_move. rewrite Hs, Hq. reflexivity.
    + intros rest Hd Hc Hu Hm Hl Hl'. rewrite !item_queue_handlers_cb_unfold.
      unfold item_queue_get_next_file.
      cbn [items_deleted items_created items_updated items_moved
           set_items_deleted set_items_moved].
      rewrite Hd, Hc, Hu, Hm. cbn [imd_file imd_source_file].
      rewrite set_items_deleted_pop by (simpl; exact Hd).
      rewrite Hl, Hl'. cbv zeta. unfold item_move. rewrite Hs, Hq.
      reflexivity.
  - intros display_name Hs Hq.
    set (source_uri := g_file_get_uri source_file).
    set (uri := g_file_get_uri file).
    set (base := move_header source_uri uri (g_strescape env display_name)).
    set (data0 := {| rmd_level := 0 + 1;
                     rmd_sparql := base +++ " <" +++ source_uri
                                   +++ "> tracker:uri <" +++ uri +++ "> .";
                     rmd_source_uri := source_uri; rmd_uri := uri |}).
    assert (Hmove : item_move MAX fuel env fs file source_file
                    = match g_main_loop_run fuel env fs (data0, [source_uri])
                      with
                      | None => None
                      | Some (fs1, move_data) =>
                        Some (true,
                              emit (BatchUpdate (rmd_sparql move_data +++ " }")
                                                (next_data fs1))
                                (set_processing_pool
                                   ({| pd_data := next_data fs1;
                                       pd_file := file;
                                       pd_cancellable := None;
                                       pd_builder := false |}
                                    :: processing_pool fs1)
                                   (set_next_data (S (next_data fs1)) fs1)))
                      end).
    { unfold item_move. rewrite Hs, Hq. cbn [negb].
      fold source_uri. fold uri.
      change (item_update_uri_recursively _ source_uri uri)
        with (data0, [source_uri]) at 1.
      destruct (g_main_loop_run fuel env fs (data0, [source_uri]))
        as [[fs1 move_data]|]; reflexivity. }
    split.
    + intros keep fs'. rewrite Hmove.
      destruct (g_main_loop_run fuel env fs (data0, [source_uri]))
        as [[fs1 r]|] eqn:Hrun; [|discriminate].
      intros [= <- <-].
      assert (Hinv : move_inv env source_uri uri base data0 [source_uri]
                              [source_uri]).
      { unfold move_inv, data0. cbn [rmd_level rmd_sparql rmd_source_uri rmd_uri].
        repeat split; auto.
        - cbn [uri_statements]. unfold uri_statement.
          rewrite moved_uri_source, string_app_nil_r. reflexivity.
        - left. reflexivity.
        - intros c [<-|[]]. apply reached_source. }
      destruct (g_main_loop_run_text _ _ _ _ _ _ _ _ _ _ _ Hinv Hrun)
        as (uris' & more & Htext & Hreach & Hmore & Hlog).
      cbn [app] in Hmore, Hlog. subst uris' fs1.
      split; [reflexivity|]. split; [repeat split|]. split; [reflexivity|].
      exists more. split; [|exact Hreach].
      rewrite Htext, string_app_assoc, app_assoc. reflexivity.
    + intros N B Hb Hfuel. rewrite Hmove.
      destruct (g_main_loop_run_returns env N B fuel Hb fs data0 [source_uri])
        as ([fs1 r] & ->); [reflexivity|discriminate| |discriminate].
      unfold lookups_left. cbn [map list_sum fold_right]. lia.
Qed.

Lemma item_move_cases_witness :
  store_bounded env_sub 22 1
  /\ item_move 10 7 env_sub (tracker_miner_fs_init 1)
       ["data"; "sub2"] ["data"; "sub"] <> None.
Proof.
  assert (Hb : store_bounded env_sub 22 1).
  { intros parent rows. simpl.
    destruct (String.eqb_spec parent "file:///data/sub") as [->|Hne].
    - intros [= <-]. split; [simpl; lia|].
      intros child [<-|[]]. simpl. lia.
    - intros [= <-]. split; [simpl; lia|]. intros child []. }
  split; [exact Hb|].
  apply (proj2 (proj2 (proj2 (item_move_cases 10 7 env_sub
                                (tracker_miner_fs_init 1)
                                ["data"; "sub2"] ["data"; "sub"]))
                 "sub2" eq_refl eq_refl) 22%nat 1%nat Hb).
  simpl. lia.
Defined.

(** The rename scenario of the design document: [/data/sub], which holds
    [b.txt], becomes [/data/sub2].  One batch, with a URI statement for the
    directory and one for the file; the extractor is not called. *)
Example rename_directory_batch :
  option_map (fun r => trace (snd r))
    (item_move 10 7 env_sub (tracker_miner_fs_init 1)
       ["data"; "sub2"] ["data"; "sub"])
  = Some [BatchUpdate
            (move_header "file:///data/sub" "file:///data/sub2" "sub2"
             +++ " <file:///data/sub> tracker:uri <file:///data/sub2> ."
             +++ " <file:///data/sub/b.txt> tracker:uri <file:///data/sub2/b.txt> ."
             +++ " }") 0].
Proof. vm_compute. reflexivity. Qed.

(** ** The trace of each callback *)

Lemma extends_refl P fs : extends_with P fs fs.
Proof. exists []. rewrite app_nil_r. auto. Qed.

Lemma extends_same P fs fs' : trace fs' = trace fs -> extends_with P fs fs'.
Proof. intros H. exists []. rewrite app_nil_r. auto. Qed.

Lemma extends_trans P fs1 fs2 fs3 :
  extends_with P fs1 fs2 -> extends_with P fs2 fs3 -> extends_with P fs1 fs3.
Proof.
  intros (o1 & e1 & p1) (o2 & e2 & p2). exists (o1 ++ o2).
  rewrite e2, e1, app_assoc, forallb_app, p1, p2. auto.
Qed.

Lemma extends_emit P o fs : P o = true -> extends_with P fs (emit o fs).
Proof. intros H. exists [o]. simpl. rewrite H. auto. Qed.

Lemma extends_weaken (P Q : Out -> bool) fs fs' :
  (forall o, P o = true -> Q o = true) ->
  extends_with P fs fs' -> extends_with Q fs fs'.
Proof.
  intros H (outs & e & p). exists outs. split; [exact e|].
  rewrite forallb_forall in *. auto.
Qed.

Lemma set_up_extends P MAX fs :
  extends_with P fs (item_queue_handlers_set_up MAX fs).
Proof. apply extends_same, set_up_trace. Qed.

Lemma crawl_directories_start_trace MAX fs :
  trace (crawl_directories_start MAX fs) = trace fs.
Proof.
  unfold crawl_directories_start.
  destruct (crawl_directories_id fs); [reflexivity|].
  destruct (negb (been_started fs)); [reflexivity|].
  destruct (negb (timer fs)); reflexivity.
Qed.

Lemma crawl_directories_stop_extends P fs :
  harmless P -> extends_with P fs (crawl_directories_stop fs).
Proof.
  intros (_ & Hs & _). unfold crawl_directories_stop.
  destruct (crawl_directories_id fs); [|apply extends_refl].
  destruct (current_directory fs).
  - eapply extends_trans; [apply extends_emit, Hs|apply extends_same; reflexivity].
  - apply extends_same. reflexivity.
Qed.

Lemma process_stop_extends P fs :
  harmless P -> (forall a b c d, P (Finished a b c d) = true) ->
  extends_with P fs (process_stop fs).
Proof.
  intros (Hc & _) Hf. unfold process_stop, process_print_stats,
    tracker_miner_commit.
  match goal with |- extends_with P fs ?x =>
    assert (H : exists a b c d, trace x = trace fs ++ [Commit; Finished a b c d])
  end.
  { destruct (negb (shown_totals fs)); simpl;
      match goal with |- context [if ?c then _ else _] => destruct c end;
      simpl; rewrite <- app_assoc; simpl; eauto. }
  destruct H as (a & b & c & d & H). eexists. split; [exact H|].
  simpl. rewrite Hc, Hf. reflexivity.
Qed.

Lemma sparql_update_cb_extends P MAX fs data error :
  harmless P -> extends_with P fs (sparql_update_cb MAX fs data error).
Proof.
  intros (Hc & _ & _ & _ & Hcr & _). unfold sparql_update_cb.
  eapply extends_trans; [|apply set_up_extends].
  destruct error.
  - eapply extends_trans; [apply extends_emit, Hcr|apply extends_same; reflexivity].
  - destruct (been_crawled fs).
    + eapply extends_trans; [apply extends_emit, Hc|apply extends_same; reflexivity].
    + apply extends_same. reflexivity.
Qed.

Lemma item_add_or_update_cb_extends P MAX env fs data error :
  harmless P -> extends_with P fs (item_add_or_update_cb MAX env fs data error).
Proof.
  intros (_ & _ & _ & _ & Hcr & _ & Hb & _). unfold item_add_or_update_cb.
  destruct error as [e|].
  - eapply extends_trans; [|apply set_up_extends].
    destruct (e =? G_IO_ERROR_NOT_FOUND).
    + apply extends_same. reflexivity.
    + eapply extends_trans; [apply extends_emit, Hcr|apply extends_same; reflexivity].
  - apply extends_emit, Hb.
Qed.

Lemma notify_file_extends P MAX env fs file error :
  harmless P ->
  extends_with P fs (tracker_miner_fs_notify_file MAX env fs file error).
Proof.
  intros H. unfold tracker_miner_fs_notify_file.
  destruct (process_data_find fs file).
  - apply item_add_or_update_cb_extends, H.
  - apply extends_emit, H.
Qed.

Lemma item_add_or_update_extends P MAX env fs file :
  harmless P -> (forall f, P (ProcessFile f) = true) ->
  extends_with P fs (snd (item_add_or_update MAX env fs file)).
Proof.
  intros H Hp. unfold item_add_or_update, process_data_new.
  set (fs1 := emit (ProcessFile file) _).
  assert (H1 : extends_with P fs fs1).
  { subst fs1. eapply extends_trans; [|apply extends_emit, Hp].
    apply extends_same. reflexivity. }
  set (fs2 := match sync_notify (process_file env file) with
              | Some error => tracker_miner_fs_notify_file MAX env fs1 file error
              | None => fs1
              end).
  assert (H2 : extends_with P fs fs2).
  { subst fs2. destruct (sync_notify _); [|exact H1].
    eapply extends_trans; [exact H1|apply notify_file_extends, H]. }
  clearbody fs2. destruct (negb _).
  - destruct (process_data_find fs2 file); cbn [snd].
    + eapply extends_trans; [exact H2|apply extends_same; reflexivity].
    + eapply extends_trans; [exact H2|apply extends_emit, H].
  - destruct (_ >=? _); exact H2.
Qed.

Lemma item_remove_extends P env fs file :
  harmless P -> extends_with P fs (snd (item_remove env fs file)).
Proof.
  intros H. unfold item_remove, process_data_new.
  destruct (negb (item_query_exists env file)); cbn [snd];
    [apply extends_refl|].
  eapply extends_trans; [|apply extends_emit, H].
  apply extends_same. reflexivity.
Qed.

Lemma answer_log_is_log source_uri rows :
  forallb is_log (answer_log source_uri rows) = true.
Proof.
  destruct rows as [rows|]; [|reflexivity]. cbn [answer_log].
  induction (filter _ rows) as [|c l IH]; [reflexivity|exact IH].
Qed.

(** The nested loop changes nothing in the miner but its log. *)
Lemma g_main_loop_run_frame fuel env :
  forall fs st fs1 r,
    g_main_loop_run fuel env fs st = Some (fs1, r) ->
    exists log, fs1 = log_all log fs /\ forallb is_log log = true.
Proof.
  induction fuel as [|fuel IH]; intros fs [data outstanding] fs1 r;
    cbn [g_main_loop_run]; [discriminate|].
  cbn [snd fst]. destruct outstanding as [|q outstanding]; [discriminate|].
  rewrite callback_eq. cbn [fst].
  match goal with |- context [if ?c then _ else _] => destruct c end.
  - intros [= <- _]. eexists. split; [reflexivity|apply answer_log_is_log].
  - intros Hrun. destruct (IH _ _ _ _ Hrun) as (log & -> & Hlog).
    eexists. split; [apply log_all_app|].
    rewrite forallb_app, answer_log_is_log. exact Hlog.
Qed.

Lemma log_all_extends P log fs :
  harmless P -> forallb is_log log = true -> extends_with P fs (log_all log fs).
Proof.
  intros (_ & _ & _ & _ & Hc & Hw & _) Hlog. exists log.
  split; [reflexivity|].
  induction log as [|o log IH]; [reflexivity|].
  cbn [forallb] in *. apply andb_prop in Hlog. destruct Hlog as (Ho & Hl).
  rewrite (IH Hl), andb_true_r.
  destruct o; try discriminate; [apply Hc|apply Hw].
Qed.

Lemma item_move_extends P MAX fuel env fs file source_file r :
  harmless P -> (forall f, P (ProcessFile f) = true) ->
  item_move MAX fuel env fs file source_file = Some r ->
  extends_with P fs (snd r).
Proof.
  intros H Hp. unfold item_move, process_data_new.
  destruct (negb (item_query_exists env source_file)).
  - intros [= <-]. apply item_add_or_update_extends; auto.
  - destruct (query_display_name env file).
    + destruct (g_main_loop_run _ _ _ _) as [[fs1 move_data]|] eqn:Hrun;
        [|discriminate].
      destruct (g_main_loop_run_frame _ _ _ _ _ _ Hrun) as (log & -> & Hlog).
      intros [= <-]. cbn [snd].
      eapply extends_trans; [apply log_all_extends; eauto|].
      eapply extends_trans; [|apply extends_emit, H].
      apply extends_same. reflexivity.
    + intros [= <-]. apply item_remove_extends, H.
Qed.

Lemma before_dispatch_extends P env fs :
  extends_with P fs (before_dispatch env fs).
Proof. apply extends_same. apply before_dispatch_frame. Qed.

Lemma next_file_trace fs queue file source_file fs1 :
  item_queue_get_next_file fs = (queue, file, source_file, fs1) ->
  trace fs1 = trace fs.
Proof.
  unfold item_queue_get_next_file.
  destruct (items_deleted fs); [|intros [= <- <- <- <-]; auto].
  destruct (items_created fs); [|intros [= <- <- <- <-]; auto].
  destruct (items_updated fs); [|intros [= <- <- <- <-]; auto].
  destruct (items_moved fs); intros [= <- <- <- <-]; auto.
Qed.

Lemma after_dispatch_extends P fs keep fs3 r :
  harmless P -> extends_with P fs fs3 ->
  after_dispatch (Some (keep, fs3)) = Some r -> extends_with P fs (snd r).
Proof.
  intros (Hc & _) H. unfold after_dispatch. destruct keep; cbn [negb].
  - intros [= <-]. cbn [snd]. destruct (been_crawled fs3); [|exact H].
    eapply extends_trans; [exact H|apply extends_emit, Hc].
  - intros [= <-]. cbn [snd].
    eapply extends_trans; [exact H|apply extends_same; reflexivity].
Qed.

(** A tick whose dispatch cannot end in [process_stop]: something is
    pending, a crawl is running or the pool is not empty. *)
Lemma tick_extends P MAX fuel env fs r :
  harmless P -> (forall f, P (ProcessFile f) = true) ->
  (pending_items fs = [] -> is_crawling fs = false ->
   processing_pool fs = [] -> forall a b c d, P (Finished a b c d) = true) ->
  item_queue_handlers_cb MAX fuel env fs = Some r ->
  extends_with P fs (snd r).
Proof.
  intros H Hp Hf. rewrite item_queue_handlers_cb_unfold.
  pose proof (next_file_pops_pending_head fs) as Hpop.
  destruct (item_queue_get_next_file fs) as [[[queue file] source_file] fs1]
    eqn:Hnext.
  pose proof (next_file_trace _ _ _ _ _ Hnext) as T1.
  destruct (next_file_frame _ _ _ _ _ Hnext) as (P1 & _ & _).
  destruct (match file with
            | Some f => tracker_file_is_locked env f
            | None => false
            end).
  { intros [= <-]. apply extends_same. exact T1. }
  cbv zeta.
  assert (H2 : extends_with P fs (before_dispatch env fs1)).
  { apply extends_same. destruct (before_dispatch_frame env fs1)
      as (_ & _ & t & _). congruence. }
  assert (Hadd : forall f, after_dispatch
             (Some (item_add_or_update MAX env (before_dispatch env fs1) f))
             = Some r -> extends_with P fs (snd r)).
  { intros f. destruct (item_add_or_update _ _ _ f) as [keep fs3] eqn:Ha.
    apply after_dispatch_extends; [exact H|].
    eapply extends_trans; [exact H2|].
    change fs3 with (snd (keep, fs3)). rewrite <- Ha.
    apply item_add_or_update_extends; auto. }
  assert (Hrem : forall f, after_dispatch
             (Some (item_remove env (before_dispatch env fs1) f))
             = Some r -> extends_with P fs (snd r)).
  { intros f. destruct (item_remove _ _ f) as [keep fs3] eqn:Ha.
    apply after_dispatch_extends; [exact H|].
    eapply extends_trans; [exact H2|].
    change fs3 with (snd (keep, fs3)). rewrite <- Ha.
    apply item_remove_extends, H. }
  destruct queue.
  - (* QUEUE_NONE *)
    apply after_dispatch_extends; [exact H|].
    destruct (negb (is_crawling (before_dispatch env fs1))
              && match processing_pool (before_dispatch env fs1) with
                 | [] => true
                 | _ => false
                 end) eqn:Hidle; [|exact H2].
    eapply extends_trans; [exact H2|]. apply process_stop_extends; [exact H|].
    destruct (pending_items fs) eqn:Hpend.
    + destruct Hpop as (_ & _ & _ & ->). apply Hf; [reflexivity| |].
      * apply andb_prop in Hidle. destruct Hidle as (Hi & _).
        unfold before_dispatch in Hi.
        destruct (negb (timer fs)); simpl in Hi;
          match type of Hi with context [if ?c then _ else _] =>
            destruct c end; simpl in Hi; apply negb_true_iff in Hi; exact Hi.
      * apply andb_prop in Hidle. destruct Hidle as (_ & Hi).
        destruct (before_dispatch_frame env fs) as (_ & p & _).
        rewrite p in Hi. destruct (processing_pool fs); [reflexivity|discriminate].
    + destruct Hpop as (Hd & _). destruct file, source_file; discriminate.
  - destruct file; [apply Hadd|discriminate].
  - destruct file; [apply Hadd|discriminate].
  - destruct file; [apply Hrem|discriminate].
  - destruct file as [f|]; [|discriminate].
    destruct source_file as [s|]; [|discriminate].
    destruct (item_move MAX fuel env (before_dispatch env fs1) f s)
      as [[keep fs3]|] eqn:Hm; [|discriminate].
    apply after_dispatch_extends; [exact H|].
    eapply extends_trans; [exact H2|].
    change fs3 with (snd (keep, fs3)).
    eapply item_move_extends; eauto.
Qed.

Lemma add_directory_trace MAX fs file recurse :
  trace (tracker_miner_fs_add_directory MAX fs file recurse) = trace fs.
Proof.
  unfold tracker_miner_fs_add_directory. now rewrite crawl_directories_start_trace.
Qed.

Lemma monitor_created_trace MAX env fs file is_directory :
  trace (monitor_item_created_cb MAX env fs file is_directory) = trace fs.
Proof.
  unfold monitor_item_created_cb.
  destruct (should_check_file env file is_directory); [|reflexivity].
  destruct is_directory; [apply add_directory_trace|].
  now rewrite set_up_trace.
Qed.

Lemma monitor_updated_trace MAX env fs file is_directory :
  trace (monitor_item_updated_cb MAX env fs file is_directory) = trace fs.
Proof.
  unfold monitor_item_updated_cb.
  destruct (should_check_file env file is_directory); [|reflexivity].
  now rewrite set_up_trace.
Qed.

Lemma monitor_deleted_trace MAX env fs file is_directory :
  trace (monitor_item_deleted_cb MAX env fs file is_directory) = trace fs.
Proof.
  unfold monitor_item_deleted_cb.
  destruct (should_check_file env file is_directory); [|reflexivity].
  now rewrite set_up_trace.
Qed.

Lemma monitor_moved_trace MAX env fs file other is_directory monitored :
  trace (monitor_item_moved_cb MAX env fs file other is_directory monitored)
  = trace fs.
Proof.
  unfold monitor_item_moved_cb.
  repeat match goal with
         | |- context [if ?c then _ else _] => destruct c
         end;
    rewrite ?add_directory_trace, ?set_up_trace; reflexivity.
Qed.

Lemma crawler_found_trace found fs :
  trace (fold_left
           (fun fs (l : GFile * bool) =>
              if negb (snd l)
              then set_items_created (items_created fs ++ [fst l]) fs
              else fs) found fs) = trace fs.
Proof.
  revert fs. induction found as [|l found IH]; intros fs; simpl; [auto|].
  rewrite IH. destruct (negb (snd l)); reflexivity.
Qed.

Lemma crawler_finished_trace MAX fs found interrupted df di ff fi :
  trace (crawler_finished_cb MAX fs found interrupted df di ff fi) = trace fs.
Proof.
  unfold crawler_finished_cb. rewrite crawl_directories_start_trace. simpl.
  apply crawler_found_trace.
Qed.

Lemma crawl_directories_cb_extends P MAX env fs :
  harmless P ->
  (current_directory fs = None -> forall f r, P (CrawlerStart f r) = true) ->
  extends_with P fs (snd (crawl_directories_cb MAX env fs)).
Proof.
  intros H Hs. unfold crawl_directories_cb.
  destruct (current_directory fs) eqn:Hcur.
  - cbn [snd]. destruct H as (_ & _ & _ & _ & Hcr & _).
    eapply extends_trans; [eapply extends_emit; apply Hcr|].
    apply extends_same. reflexivity.
  - destruct (directories fs) as [|dd rest].
    + cbn [snd]. eapply extends_trans; [apply set_up_extends|].
      eapply extends_trans; [apply crawl_directories_stop_extends, H|].
      apply extends_same. reflexivity.
    + assert (E : extends_with P fs
                    (emit (CrawlerStart (dd_file dd) (dd_recurse dd))
                       (set_status
                          (if dd_recurse dd
                           then "Crawling recursively directory '"
                                +++ g_file_get_path (dd_file dd) +++ "'"
                           else "Crawling single directory '"
                                +++ g_file_get_path (dd_file dd) +++ "'")
                          (set_directories rest
                             (set_current_directory (Some dd) fs))))).
      { eapply extends_trans; [|apply extends_emit, Hs; reflexivity].
        apply extends_same. reflexivity. }
      cbv zeta. destruct (tracker_crawler_start env _ _); cbn [snd];
        (eapply extends_trans; [exact E|apply extends_same; reflexivity]).
Qed.

Lemma remove_directory_extends P fs file :
  harmless P ->
  extends_with P fs (snd (tracker_miner_fs_remove_directory fs file)).
Proof.
  intros (_ & Hs & _). unfold tracker_miner_fs_remove_directory.
  destruct (current_directory fs) as [dd|];
    [destruct (g_file_equal file (dd_file dd)
               || g_file_has_prefix file (dd_file dd))|];
    cbn [snd].
  - eapply extends_trans; [apply extends_emit, Hs|apply extends_same; reflexivity].
  - apply extends_same. reflexivity.
  - apply extends_same. reflexivity.
Qed.

Lemma set_throttle_trace MAX fs t :
  trace (tracker_miner_fs_set_throttle MAX fs t) = trace fs.
Proof.
  unfold tracker_miner_fs_set_throttle.
  destruct (SFeqb _ _); [reflexivity|].
  destruct (item_queues_handler_id _); destruct (crawl_directories_id _);
    reflexivity.
Qed.

Lemma miner_paused_extends P fs : harmless P -> extends_with P fs (miner_paused fs).
Proof.
  intros (_ & _ & Hp & _). unfold miner_paused.
  eapply extends_trans; [apply extends_same|].
  2: { eapply extends_trans; [apply (extends_emit P CrawlerPause), Hp|].
       apply extends_same.
       destruct (item_queues_handler_id _); reflexivity. }
  reflexivity.
Qed.

Lemma miner_resumed_extends P MAX fs :
  harmless P -> extends_with P fs (miner_resumed MAX fs).
Proof.
  intros (_ & _ & _ & Hr & _). unfold miner_resumed.
  eapply extends_trans; [apply extends_same|].
  2: { eapply extends_trans; [apply (extends_emit P CrawlerResume), Hr|].
       destruct (_ || _); [apply set_up_extends|apply extends_refl]. }
  reflexivity.
Qed.

(** What a turn of the loop may send out. *)
Lemma step_extends P MAX fuel env ev fs fs' :
  harmless P ->
  (ev = ItemQueueHandlers -> forall f, P (ProcessFile f) = true) ->
  (ev = ItemQueueHandlers -> pending_items fs = [] -> is_crawling fs = false ->
   processing_pool fs = [] -> forall a b c d, P (Finished a b c d) = true) ->
  (ev = CrawlDirectories -> current_directory fs = None ->
   forall f r, P (CrawlerStart f r) = true) ->
  step MAX fuel env ev fs = Some fs' ->
  extends_with P fs fs'.
Proof.
  intros H Hp Hf Hs. destruct ev; simpl.
  - intros [= <-]. apply extends_same. unfold miner_started.
    now rewrite crawl_directories_start_trace.
  - intros [= <-]. apply miner_paused_extends, H.
  - intros [= <-]. apply miner_resumed_extends, H.
  - intros [= <-]. apply extends_same, monitor_created_trace.
  - intros [= <-]. apply extends_same, monitor_updated_trace.
  - intros [= <-]. apply extends_same, monitor_deleted_trace.
  - intros [= <-]. apply extends_same, monitor_moved_trace.
  - destruct (item_queues_handler_id fs); [|discriminate].
    destruct (item_queue_handlers_cb MAX fuel env fs) as [[r fs1]|] eqn:Ht;
      [|discriminate].
    intros [= <-]. change fs1 with (snd (r, fs1)).
    eapply tick_extends; eauto.
  - destruct (crawl_directories_id fs); [|discriminate].
    intros [= <-]. apply crawl_directories_cb_extends; auto.
  - destruct (is_crawling fs); [|discriminate].
    intros [= <-]. apply extends_same, crawler_finished_trace.
  - destruct (batch_update_pending fs data); [|discriminate].
    intros [= <-]. apply sparql_update_cb_extends, H.
  - intros [= <-]. apply notify_file_extends, H.
  - intros [= <-]. apply extends_same, add_directory_trace.
  - intros [= <-]. apply remove_directory_extends, H.
  - intros [= <-]. apply extends_same, set_throttle_trace.
  - destruct (_ && _); [|discriminate].
    intros [= <-]. apply extends_same. reflexivity.
  - intros [= <-]. apply extends_same. reflexivity.
Qed.

(** ** What dispatching leaves alone *)

Lemma same_control_refl fs : same_control fs fs.
Proof. repeat split. Qed.

Lemma same_control_trans fs1 fs2 fs3 :
  same_control fs1 fs2 -> same_control fs2 fs3 -> same_control fs1 fs3.
Proof.
  unfold same_control. intros (a & b & c & d & e & f & g)
    (a' & b' & c' & d' & e' & f' & g').
  repeat split; congruence.
Qed.

Lemma set_up_same_control MAX fs :
  same_control fs (item_queue_handlers_set_up MAX fs).
Proof.
  unfold item_queue_handlers_set_up.
  destruct (item_queues_handler_id fs); [apply same_control_refl|].
  destruct (is_paused fs) eqn:Hp; [apply same_control_refl|].
  destruct (_ >=? _); [apply same_control_refl|].
  destruct (negb _); repeat split; simpl; auto.
Qed.

Lemma set_up_paused MAX fs :
  is_paused fs = true ->
  item_queues_handler_id (item_queue_handlers_set_up MAX fs)
  = item_queues_handler_id fs.
Proof.
  intros Hp. unfold item_queue_handlers_set_up.
  destruct (item_queues_handler_id fs) eqn:E; [exact E|]. rewrite Hp. exact E.
Qed.

Lemma notify_file_same_control MAX env fs file error :
  same_control fs (tracker_miner_fs_notify_file MAX env fs file error).
Proof.
  unfold tracker_miner_fs_notify_file, item_add_or_update_cb.
  destruct (process_data_find fs file); [|repeat split].
  destruct error as [e|]; [|repeat split].
  eapply same_control_trans; [|apply set_up_same_control].
  destruct (e =? G_IO_ERROR_NOT_FOUND); repeat split.
Qed.

Lemma item_add_or_update_same_control MAX env fs file :
  same_control fs (snd (item_add_or_update MAX env fs file)).
Proof.
  unfold item_add_or_update, process_data_new.
  set (fs1 := emit (ProcessFile file) _).
  assert (H1 : same_control fs fs1) by (repeat split).
  set (fs2 := match sync_notify (process_file env file) with
              | Some error => tracker_miner_fs_notify_file MAX env fs1 file error
              | None => fs1
              end).
  assert (H2 : same_control fs fs2).
  { subst fs2. destruct (sync_notify _); [|exact H1].
    eapply same_control_trans; [exact H1|apply notify_file_same_control]. }
  clearbody fs2. destruct (negb _).
  - destruct (process_data_find fs2 file); cbn [snd];
      (eapply same_control_trans; [exact H2|repeat split]).
  - destruct (_ >=? _); exact H2.
Qed.

Lemma item_remove_same_control env fs file :
  same_control fs (snd (item_remove env fs file)).
Proof.
  unfold item_remove, process_data_new.
  destruct (negb (item_query_exists env file)); repeat split.
Qed.

Lemma item_remove_same_queues env fs file :
  same_queues fs (snd (item_remove env fs file)).
Proof.
  unfold item_remove, process_data_new.
  destruct (negb (item_query_exists env file)); repeat split.
Qed.

Lemma item_move_same_control MAX fuel env fs file source_file r :
  item_move MAX fuel env fs file source_file = Some r ->
  same_control fs (snd r) /\ same_queues fs (snd r).
Proof.
  unfold item_move, process_data_new.
  destruct (negb (item_query_exists env source_file)).
  - intros [= <-]. split; [apply item_add_or_update_same_control|
                           apply item_add_or_update_same_queues].
  - destruct (query_display_name env file).
    + destruct (g_main_loop_run _ _ _ _) as [[fs1 move_data]|] eqn:Hrun;
        [|discriminate].
      destruct (g_main_loop_run_frame _ _ _ _ _ _ Hrun) as (log & -> & _).
      intros [= <-]. repeat split.
    + intros [= <-]. split; [apply item_remove_same_control|
                             apply item_remove_same_queues].
Qed.

Lemma process_stop_same_control fs :
  same_control fs (process_stop fs) /\ same_queues fs (process_stop fs).
Proof.
  unfold process_stop, process_print_stats, tracker_miner_commit.
  destruct (negb (shown_totals fs)); simpl;
    match goal with |- context [if ?c then _ else _] => destruct c end;
    repeat split.
Qed.

Lemma before_dispatch_same_control env fs :
  same_control fs (before_dispatch env fs).
Proof.
  unfold before_dispatch.
  destruct (negb (timer fs)); simpl;
    match goal with |- context [if ?c then _ else _] => destruct c end;
    repeat split.
Qed.

Lemma next_file_same_control fs queue file source_file fs1 :
  item_queue_get_next_file fs = (queue, file, source_file, fs1) ->
  same_control fs fs1.
Proof.
  unfold item_queue_get_next_file.
  destruct (items_deleted fs); [|intros [= <- <- <- <-]; repeat split].
  destruct (items_created fs); [|intros [= <- <- <- <-]; repeat split].
  destruct (items_updated fs); [|intros [= <- <- <- <-]; repeat split].
  destruct (items_moved fs); intros [= <- <- <- <-]; repeat split.
Qed.

Lemma after_dispatch_same fs keep fs3 r :
  same_control fs fs3 -> same_queues fs fs3 ->
  after_dispatch (Some (keep, fs3)) = Some r ->
  same_control fs (snd r) /\ same_queues fs (snd r).
Proof.
  intros Hc Hq. unfold after_dispatch, tracker_miner_commit.
  destruct keep; cbn [negb].
  - destruct (been_crawled fs3); intros [= <-]; cbn [snd];
      (split; [eapply same_control_trans; [exact Hc|repeat split]
              |eapply same_queues_trans; [exact Hq|repeat split]]).
  - intros [= <-]. cbn [snd].
    split; [eapply same_control_trans; [exact Hc|repeat split]|].
    eapply same_queues_trans; [exact Hq|repeat split].
Qed.

(** A tick leaves the pause flag and the crawl alone, and its effect on the
    queues is that of [item_queue_get_next_file]. *)
Lemma tick_same_control MAX fuel env fs r :
  item_queue_handlers_cb MAX fuel env fs = Some r ->
  same_control fs (snd r)
  /\ exists queue file source_file fs1,
       item_queue_get_next_file fs = (queue, file, source_file, fs1)
       /\ same_queues fs1 (snd r).
Proof.
  rewrite item_queue_handlers_cb_unfold.
  destruct (item_queue_get_next_file fs) as [[[queue file] source_file] fs1]
    eqn:Hnext.
  pose proof (next_file_same_control _ _ _ _ _ Hnext) as C1.
  intros Hr.
  assert (H : same_control fs1 (snd r) /\ same_queues fs1 (snd r)).
  { revert Hr.
    destruct (match file with
              | Some f => tracker_file_is_locked env f
              | None => false
              end).
    { intros [= <-]. split; [apply same_control_refl|apply same_queues_refl]. }
    cbv zeta.
    pose proof (before_dispatch_same_control env fs1) as C2.
    destruct (before_dispatch_frame env fs1) as (Q2 & _).
    set (fs2 := before_dispatch env fs1) in *. clearbody fs2.
    assert (Hgen : forall x,
               same_control fs2 (snd x) -> same_queues fs2 (snd x) ->
               after_dispatch (Some x) = Some r ->
               same_control fs1 (snd r) /\ same_queues fs1 (snd r)).
    { intros [keep fs3] Hc Hq. cbn [snd] in *.
      apply after_dispatch_same.
      - eapply same_control_trans; eauto.
      - eapply same_queues_trans; eauto. }
    destruct queue.
    - apply Hgen; cbn [snd];
        (destruct (_ && _); [apply process_stop_same_control|]);
        [apply same_control_refl|apply same_queues_refl].
    - destruct file; [|discriminate].
      apply Hgen; [apply item_add_or_update_same_control|
                   apply item_add_or_update_same_queues].
    - destruct file; [|discriminate].
      apply Hgen; [apply item_add_or_update_same_control|
                   apply item_add_or_update_same_queues].
    - destruct file; [|discriminate].
      apply Hgen; [apply item_remove_same_control|
                   apply item_remove_same_queues].
    - destruct file as [f|]; [|discriminate].
      destruct source_file as [s|]; [|discriminate].
      destruct (item_move MAX fuel env fs2 f s) as [x|] eqn:Hm; [|discriminate].
      destruct (item_move_same_control _ _ _ _ _ _ _ Hm). apply Hgen; auto. }
  destruct H as (Hc & Hq). split.
  - eapply same_control_trans; eauto.
  - exists queue, file, source_file, fs1. auto.
Qed.

(** ** The pause flag and the crawl, over all runs *)

Lemma crawl_directories_start_control MAX fs :
  is_paused (crawl_directories_start MAX fs) = is_paused fs
  /\ is_crawling (crawl_directories_start MAX fs) = is_crawling fs
  /\ current_directory (crawl_directories_start MAX fs) = current_directory fs
  /\ item_queues_handler_id (crawl_directories_start MAX fs)
     = item_queues_handler_id fs.
Proof.
  unfold crawl_directories_start.
  destruct (crawl_directories_id fs); [auto|].
  destruct (negb (been_started fs)); [auto|].
  destruct (negb (timer fs)); auto.
Qed.

Lemma control_inv_ext fs fs' :
  is_paused fs' = is_paused fs ->
  (is_paused fs = true -> item_queues_handler_id fs' = item_queues_handler_id fs) ->
  is_crawling fs' = is_crawling fs ->
  current_directory fs' = current_directory fs ->
  control_inv fs -> control_inv fs'.
Proof.
  unfold control_inv. intros Hp Hh Hc Hd (I1 & I2).
  rewrite Hp, Hc, Hd. split; [|exact I2].
  intros H. rewrite Hh by exact H. auto.
Qed.

Lemma control_inv_set_up MAX fs :
  control_inv fs -> control_inv (item_queue_handlers_set_up MAX fs).
Proof.
  destruct (set_up_same_control MAX fs) as (a & b & c & _).
  apply control_inv_ext; auto. apply set_up_paused.
Qed.

Lemma control_inv_crawl_directories_start MAX fs :
  control_inv fs -> control_inv (crawl_directories_start MAX fs).
Proof.
  destruct (crawl_directories_start_control MAX fs) as (a & b & c & d).
  apply control_inv_ext; auto.
Qed.

Lemma control_inv_queues fs fs' :
  is_paused fs' = is_paused fs ->
  item_queues_handler_id fs' = item_queues_handler_id fs ->
  is_crawling fs' = is_crawling fs ->
  current_directory fs' = current_directory fs ->
  control_inv fs -> control_inv fs'.
Proof. intros a b c d. apply control_inv_ext; auto. Qed.

Lemma control_inv_step MAX fuel env ev fs fs' :
  control_inv fs -> step MAX fuel env ev fs = Some fs' -> control_inv fs'.
Proof.
  intros Hinv. destruct ev; simpl.
  - intros [= <-]. unfold miner_started.
    apply control_inv_crawl_directories_start.
    revert Hinv. apply control_inv_queues; reflexivity.
  - intros [= <-]. destruct Hinv as (I1 & I2). unfold miner_paused, control_inv.
    destruct (item_queues_handler_id _) eqn:Hh; simpl; auto.
  - intros [= <-]. destruct Hinv as (I1 & I2). unfold miner_resumed.
    assert (H : control_inv (emit CrawlerResume (set_is_paused false fs))).
    { split; simpl; [discriminate|exact I2]. }
    destruct (_ || _); [apply control_inv_set_up|]; exact H.
  - intros [= <-]. unfold monitor_item_created_cb.
    destruct (should_check_file env file is_directory); [|exact Hinv].
    destruct is_directory.
    + unfold tracker_miner_fs_add_directory.
      apply control_inv_crawl_directories_start.
      revert Hinv. apply control_inv_queues; reflexivity.
    + apply control_inv_set_up. revert Hinv.
      apply control_inv_queues; reflexivity.
  - intros [= <-]. unfold monitor_item_updated_cb.
    destruct (should_check_file env file is_directory); [|exact Hinv].
    apply control_inv_set_up. revert Hinv.
    apply control_inv_queues; reflexivity.
  - intros [= <-]. unfold monitor_item_deleted_cb.
    destruct (should_check_file env file is_directory); [|exact Hinv].
    apply control_inv_set_up. revert Hinv.
    apply control_inv_queues; reflexivity.
  - intros [= <-]. unfold monitor_item_moved_cb, tracker_miner_fs_add_directory.
    repeat match goal with
           | |- context [if ?c then _ else _] => destruct c
           end;
      try exact Hinv;
      try (apply control_inv_crawl_directories_start);
      try (apply control_inv_set_up);
      (revert Hinv; apply control_inv_queues; reflexivity).
  - destruct (item_queues_handler_id fs) eqn:Hh; [|discriminate].
    destruct (item_queue_handlers_cb MAX fuel env fs) as [[r fs1]|] eqn:Ht;
      [|discriminate].
    intros [= <-].
    destruct (tick_same_control _ _ _ _ _ Ht) as ((a & b & c & _) & _).
    cbn [snd] in *. destruct Hinv as (I1 & I2). split.
    + rewrite a. intros Hp. rewrite (I1 Hp) in Hh. discriminate.
    + rewrite b, c. exact I2.
  - destruct (crawl_directories_id fs); [|discriminate].
    intros [= <-]. unfold crawl_directories_cb.
    destruct (current_directory fs) eqn:Hcur.
    + cbn [snd]. revert Hinv. apply control_inv_queues; simpl; auto.
    + destruct (directories fs) as [|dd rest].
      * cbn [snd]. unfold crawl_directories_stop.
        assert (H : control_inv (item_queue_handlers_set_up MAX fs))
          by (apply control_inv_set_up, Hinv).
        destruct (crawl_directories_id (item_queue_handlers_set_up MAX fs));
          [destruct (current_directory (item_queue_handlers_set_up MAX fs))|];
          (revert H; apply control_inv_queues; reflexivity).
      * destruct Hinv as (I1 & I2).
        assert (Hc : is_crawling fs = false).
        { destruct (is_crawling fs); [|reflexivity].
          exfalso. apply I2; auto. }
        destruct (tracker_crawler_start env _ _); cbn [snd];
          split; simpl; auto; try discriminate. congruence.
  - destruct (is_crawling fs); [|discriminate].
    intros [= <-]. unfold crawler_finished_cb.
    apply control_inv_crawl_directories_start.
    destruct Hinv as (I1 & I2). split; simpl; [|discriminate].
    set (fs1 := fold_left _ found fs).
    assert (is_paused fs1 = is_paused fs
            /\ item_queues_handler_id fs1 = item_queues_handler_id fs)
      as (a & b).
    { subst fs1. clear I1 I2. revert fs.
      induction found as [|l found IH]; intros fs; simpl; [auto|].
      destruct (IH (if negb (snd l)
                    then set_items_created (items_created fs ++ [fst l]) fs
                    else fs)) as (a & b).
      rewrite a, b. destruct (negb (snd l)); auto. }
    rewrite a, b. exact I1.
  - destruct (batch_update_pending fs data); [|discriminate].
    intros [= <-]. unfold sparql_update_cb. apply control_inv_set_up.
    revert Hinv. apply control_inv_queues;
      destruct error; try destruct (been_crawled fs); reflexivity.
  - intros [= <-]. unfold tracker_miner_fs_notify_file, item_add_or_update_cb.
    destruct (process_data_find fs file);
      [|revert Hinv; apply control_inv_queues; reflexivity].
    destruct error as [e|];
      [|revert Hinv; apply control_inv_queues; reflexivity].
    apply control_inv_set_up. revert Hinv.
    apply control_inv_queues; destruct (e =? G_IO_ERROR_NOT_FOUND); reflexivity.
  - intros [= <-]. unfold tracker_miner_fs_add_directory.
    apply control_inv_crawl_directories_start.
    revert Hinv. apply control_inv_queues; reflexivity.
  - intros [= <-]. unfold tracker_miner_fs_remove_directory.
    revert Hinv.
    destruct (current_directory fs) as [dd|] eqn:Hcur;
      [destruct (g_file_equal file (dd_file dd)
                 || g_file_has_prefix file (dd_file dd))|];
      apply control_inv_queues; simpl; auto.
  - intros [= <-]. unfold tracker_miner_fs_set_throttle.
    destruct (SFeqb _ _); [exact Hinv|].
    destruct Hinv as (I1 & I2). unfold control_inv. simpl.
    destruct (item_queues_handler_id fs) eqn:Hh; simpl;
      destruct (crawl_directories_id fs) eqn:Hc; simpl; rewrite ?Hh;
      (split; [|exact I2]); intros Hp; specialize (I1 Hp); congruence.
  - destruct (_ && _); [|discriminate].
    intros [= <-]. revert Hinv. apply control_inv_queues; reflexivity.
  - intros [= <-]. revert Hinv. apply control_inv_queues; reflexivity.
Qed.

Lemma control_inv_reachable MAX fs : reachable MAX fs -> control_inv fs.
Proof.
  induction 1 as [limit Hl|fs fs' fuel env ev Hr IH Hs].
  - split; simpl; discriminate.
  - eapply control_inv_step; eauto.
Qed.

(** ** Properties of runs *)

Lemma reachable_fs_crawling : reachable 10 fs_crawling.
Proof.
  apply (run_reachable 10 0 env0
           [MinerStarted; AddDirectory dir_data true; CrawlDirectories]
           (tracker_miner_fs_init 1)).
  - apply (reachable_init 10 1). lia.
  - vm_compute. reflexivity.
Qed.

(** X2. While a crawl is running its directory is on record, and no turn
    of the loop starts the crawler again. *)
Theorem running_crawl_is_not_restarted (MAX : Z) (fuel : nat) (env : Env)
    (ev : Event) (fs fs' : TrackerMinerFSPrivate)
    (Hreach : reachable MAX fs) (Hcrawl : is_crawling fs = true)
    (Hstep : step MAX fuel env ev fs = Some fs') :
  current_directory fs <> None
  /\ extends_with (fun o => negb (is_crawler_start o)) fs fs'.
Proof.
  destruct (control_inv_reachable MAX fs Hreach) as (_ & I2).
  specialize (I2 Hcrawl). split; [exact I2|].
  apply (step_extends _ MAX fuel env ev fs fs'); [| | | |exact Hstep].
  - repeat split.
  - intros _ f. reflexivity.
  - intros _ _ _ _ a b c d. reflexivity.
  - intros _ Hn. contradiction.
Qed.

Lemma running_crawl_is_not_restarted_witness :
  is_crawling fs_crawling = true
  /\ current_directory fs_crawling
     = Some {| dd_file := dir_data; dd_recurse := true |}
  /\ extends_with (fun o => negb (is_crawler_start o)) fs_crawling
       (tracker_miner_fs_add_directory 10 fs_crawling dir_sub true).
Proof.
  split; [vm_compute; reflexivity|]. split; [vm_compute; reflexivity|].
  refine (proj2 (running_crawl_is_not_restarted 10 0 env0
                   (AddDirectory dir_sub true) fs_crawling
                   (tracker_miner_fs_add_directory 10 fs_crawling dir_sub true)
                   reachable_fs_crawling _ _));
    vm_compute; reflexivity.
Defined.

(** X3. The end of the processing is announced by nothing but a tick of
    the queue handler that finds all four queues empty, no crawl running
    and the pool empty. *)
Theorem finished_only_from_idle_tick (MAX : Z) (fuel : nat) (env : Env)
    (ev : Event) (fs fs' : TrackerMinerFSPrivate)
    (Hstep : step MAX fuel env ev fs = Some fs')
    (Hbusy : ev <> ItemQueueHandlers \/ pending_items fs <> []
             \/ is_crawling fs = true \/ processing_pool fs <> []) :
  extends_with (fun o => negb (is_finished o)) fs fs'.
Proof.
  apply (step_extends _ MAX fuel env ev fs fs'); [| | | |exact Hstep].
  - repeat split.
  - intros _ f. reflexivity.
  - intros E Hq Hc Hp. exfalso.
    destruct Hbusy as [H|[H|[H|H]]]; try contradiction. congruence.
  - intros _ _ f r. reflexivity.
Qed.

Lemma finished_only_from_idle_tick_witness :
  extends_with (fun o => negb (is_finished o)) fs_crawling
    (miner_paused fs_crawling).
Proof.
  apply (finished_only_from_idle_tick 10 0 env0 MinerPaused fs_crawling
           (miner_paused fs_crawling) eq_refl).
  left. discriminate.
Defined.

(** X4. A tick of the queue handler that finds all four queues empty, no
    crawl running and the pool empty ends the processing: it commits,
    emits [finished] with the totals of the crawls, sets the progress to 1
    and the status to idle, resets the totals, drops the timer, records
    that the first crawl is over and uninstalls itself. *)
Theorem idle_tick_finishes (MAX : Z) (fuel : nat) (env : Env)
    (fs : TrackerMinerFSPrivate)
    (Hq : pending_items fs = []) (Hc : is_crawling fs = false)
    (Hp : processing_pool fs = []) :
  exists fs',
    item_queue_handlers_cb MAX fuel env fs = Some (false, fs')
    /\ trace fs'
       = trace fs
         ++ [Commit;
             Finished (total_directories_found fs)
                      (total_directories_ignored fs)
                      (total_files_found fs) (total_files_ignored fs)]
    /\ (progress fs' == 1)%Q /\ status fs' = "Idle"
    /\ been_crawled fs' = true /\ timer fs' = false
    /\ item_queues_handler_id fs' = None
    /\ total_directories_found fs' = 0 /\ total_directories_ignored fs' = 0
    /\ total_files_found fs' = 0 /\ total_files_ignored fs' = 0
    /\ same_queues fs fs' /\ processing_pool fs' = [].
Proof.
  destruct (pending_items_nil fs Hq) as (Hd & Hcr & Hu & Hm).
  unfold item_queue_handlers_cb, item_queue_get_next_file.
  rewrite Hd, Hcr, Hu, Hm. cbv iota beta.
  destruct (negb (timer fs)) eqn:Ht; simpl;
    destruct (time_now env - time_last fs >=? 1); simpl;
    rewrite Hc, Hp; simpl;
    unfold process_stop, process_print_stats, tracker_miner_commit; simpl;
    destruct (negb (shown_totals fs)); simpl;
    rewrite ?Ht; simpl;
    try (destruct (timer fs); simpl);
    eexists; (split; [reflexivity|]); simpl;
    rewrite <- ?app_assoc; simpl; rewrite ?Hp;
    repeat split; try reflexivity; try discriminate.
Qed.

Lemma idle_tick_finishes_witness :
  pending_items fs_drained = [] /\ is_crawling fs_drained = false
  /\ processing_pool fs_drained = []
  /\ item_queues_handler_id fs_drained
     = Some (IdleSource item_queue_handlers_cb_func)
  /\ exists fs',
       item_queue_handlers_cb 10 0 env0 fs_drained = Some (false, fs')
       /\ trace fs'
          = [CrawlerStart dir_data true; Commit; Finished 1 0 0 0].
Proof.
  assert (Hq : pending_items fs_drained = []) by (vm_compute; reflexivity).
  assert (Hc : is_crawling fs_drained = false) by (vm_compute; reflexivity).
  assert (Hp : processing_pool fs_drained = []) by (vm_compute; reflexivity).
  split; [exact Hq|]. split; [exact Hc|]. split; [exact Hp|].
  split; [vm_compute; reflexivity|].
  destruct (idle_tick_finishes 10 0 env0 fs_drained Hq Hc Hp)
    as (fs' & Ht & Htr & _).
  exists fs'. split; [exact Ht|]. rewrite Htr. vm_compute. reflexivity.
Defined.

(** X6. Popping until nothing is pending yields the content of the Deleted
    queue in order of arrival, then that of Created, of Updated and of
    Moved. *)
Theorem pop_order_is_priority_then_arrival (fs : TrackerMinerFSPrivate)
    (k : nat) :
  pop_order (List.length (pending_items fs) + k) fs = pending_items fs.
Proof.
  remember (List.length (pending_items fs)) as n eqn:Hn.
  revert fs Hn. induction n as [|n IH]; intros fs Hn.
  - destruct (pending_items fs) eqn:Hp; [|discriminate].
    destruct k; simpl; [reflexivity|].
    pose proof (next_file_pops_pending_head fs) as Hpop. rewrite Hp in Hpop.
    destruct (item_queue_get_next_file fs) as [[[queue file] source_file] fs1].
    destruct Hpop as (-> & -> & -> & _). reflexivity.
  - simpl. pose proof (next_file_pops_pending_head fs) as Hpop.
    destruct (item_queue_get_next_file fs) as [[[queue file] source_file] fs1].
    destruct (pending_items fs) as [|item rest] eqn:Hp; [discriminate|].
    destruct Hpop as (-> & Hrest). rewrite IH; [now rewrite Hrest|].
    rewrite Hrest. simpl in Hn. congruence.
Qed.

Lemma crawler_found_queues found fs :
  let fs' := fold_left
               (fun fs (l : GFile * bool) =>
                  if negb (snd l)
                  then set_items_created (items_created fs ++ [fst l]) fs
                  else fs) found fs in
  items_created fs'
  = items_created fs ++ map fst (filter (fun l => negb (snd l)) found)
  /\ items_deleted fs' = items_deleted fs
  /\ items_updated fs' = items_updated fs
  /\ items_moved fs' = items_moved fs.
Proof.
  revert fs. induction found as [|l found IH]; intros fs; simpl.
  - rewrite app_nil_r. auto.
  - destruct (IH (if negb (snd l)
                  then set_items_created (items_created fs ++ [fst l]) fs
                  else fs)) as (a & b & c & d).
    rewrite a, b, c, d. destruct (negb (snd l)); simpl; auto.
    rewrite <- app_assoc. auto.
Qed.



Lemma crawl_directories_start_totals MAX fs :
  total_directories_found (crawl_directories_start MAX fs)
  = total_directories_found fs
  /\ total_directories_ignored (crawl_directories_start MAX fs)
     = total_directories_ignored fs
  /\ total_files_found (crawl_directories_start MAX fs) = total_files_found fs
  /\ total_files_ignored (crawl_directories_start MAX fs)
     = total_files_ignored fs.
Proof.
  unfold crawl_directories_start.
  destruct (crawl_directories_id fs); [auto|].
  destruct (negb (been_started fs)); [auto|].
  destruct (negb (timer fs)); auto.
Qed.

Lemma crawler_found_totals found fs :
  let fs1 := fold_left
               (fun fs (l : GFile * bool) =>
                  if negb (snd l)
                  then set_items_created (items_created fs ++ [fst l]) fs
                  else fs) found fs in
  total_directories_found fs1 = total_directories_found fs
  /\ total_directories_ignored fs1 = total_directories_ignored fs
  /\ total_files_found fs1 = total_files_found fs
  /\ total_files_ignored fs1 = total_files_ignored fs.
Proof.
  revert fs. induction found as [|l found IH]; intros fs; simpl; [auto|].
  destruct (IH (if negb (snd l)
                then set_items_created (items_created fs ++ [fst l]) fs
                else fs)) as (a & b & c & d).
  rewrite a, b, c, d. destruct (negb (snd l)); auto.
Qed.

(** X9. When the crawler finishes, the files it found are appended to the
    Created queue in the order found, those marked as unchanged left out;
    nothing else is queued or taken out.  The found and ignored counts are
    added to the totals (32-bit arithmetic), the crawl and its directory
    come off the record. *)
Theorem crawler_finished_queues_found_files (MAX : Z)
    (fs : TrackerMinerFSPrivate) (found : list (GFile * bool))
    (was_interrupted : bool) (df di ff fi : Z) :
  let fs' := crawler_finished_cb MAX fs found was_interrupted df di ff fi in
  items_created fs'
  = items_created fs ++ map fst (filter (fun l => negb (snd l)) found)
  /\ items_deleted fs' = items_deleted fs
  /\ items_updated fs' = items_updated fs
  /\ items_moved fs' = items_moved fs
  /\ total_directories_found fs' = guint (total_directories_found fs + df)
  /\ total_directories_ignored fs' = guint (total_directories_ignored fs + di)
  /\ total_files_found fs' = guint (total_files_found fs + ff)
  /\ total_files_ignored fs' = guint (total_files_ignored fs + fi)
  /\ is_crawling fs' = false /\ current_directory fs' = None
  /\ processing_pool fs' = processing_pool fs
  /\ trace fs' = trace fs.
Proof.
  cbv zeta.
  destruct (crawler_found_queues found fs) as (a & b & c & d).
  destruct (crawler_found_frame found fs) as (p & _).
  pose proof (crawler_found_trace found fs) as t.
  destruct (crawler_found_totals found fs) as (s1 & s2 & s3 & s4).
  cbv zeta in a, b, c, d, p, s1, s2, s3, s4.
  unfold crawler_finished_cb.
  match goal with |- context [crawl_directories_start MAX ?s] =>
    remember s as fs2 eqn:E
  end.
  destruct (crawl_directories_start_same_queues MAX fs2) as (qa & qb & qc & qd).
  destruct (crawl_directories_start_control MAX fs2) as (_ & ck & cd & _).
  destruct (crawl_directories_start_frame MAX fs2) as (cp & _).
  destruct (crawl_directories_start_totals MAX fs2) as (t1 & t2 & t3 & t4).
  rewrite qa, qb, qc, qd, ck, cd, cp, crawl_directories_start_trace,
    t1, t2, t3, t4.
  clear qa qb qc qd ck cd cp t1 t2 t3 t4.
  rewrite <- a, <- b, <- c, <- d, <- p, <- t, <- s1, <- s2, <- s3, <- s4.
  subst fs2. repeat split; reflexivity.
Qed.

(** ** The life of a pool entry *)

Lemma find_none_pool (l : list ProcessData) file :
  (forall d, In d l -> pd_file d <> file) ->
  find (fun data => g_file_equal (pd_file data) file) l = None.
Proof.
  induction l as [|x l IH]; intros H; simpl; [reflexivity|].
  destruct (g_file_equal (pd_file x) file) eqn:E.
  - apply g_file_equal_eq in E. exfalso. apply (H x); [left; reflexivity|exact E].
  - apply IH. intros d Hd. apply H. right. exact Hd.
Qed.

Lemma accepted_state MAX env fs file :
  process_file env file = {| sync_notify := None; processing := true |} ->
  item_add_or_update MAX env fs file
  = (negb (g_list_length
             ({| pd_data := next_data fs; pd_file := file;
                 pd_cancellable := Some false; pd_builder := true |}
              :: processing_pool fs) >=? pool_limit fs),
     emit (ProcessFile file)
       (set_processing_pool
          ({| pd_data := next_data fs; pd_file := file;
              pd_cancellable := Some false; pd_builder := true |}
           :: processing_pool fs)
          (set_next_data (S (next_data fs)) fs))).
Proof.
  intros Hans. unfold item_add_or_update, process_data_new.
  rewrite Hans. cbn [sync_notify processing negb].
  cbn [processing_pool emit set_trace set_processing_pool set_next_data
       pool_limit].
  destruct (_ >=? _); reflexivity.
Qed.

(** X10. A file the extractor accepts holds one pool entry from its
    dispatch until the store has answered.  The dispatch puts a fresh entry
    with a live cancellable at the head of the pool and emits
    [::process-file], and keeps the handler going exactly if the pool is
    still below its limit.  The notification without error sends the
    extractor's statements to the store behind [DROP GRAPH] of the file's
    URI and leaves the entry in the pool.  The answer of the store, error
    or not, takes the entry out again: the pool is what it was before the
    dispatch, and the queues were never touched. *)
Theorem accepted_file_holds_one_slot (MAX : Z) (env : Env)
    (fs : TrackerMinerFSPrivate) (file : GFile) (error : option GError)
    (Hans : process_file env file
            = {| sync_notify := None; processing := true |}) :
  let data := {| pd_data := next_data fs; pd_file := file;
                 pd_cancellable := Some false; pd_builder := true |} in
  let r := item_add_or_update MAX env fs file in
  let f2 := tracker_miner_fs_notify_file MAX env (snd r) file None in
  let f3 := sparql_update_cb MAX f2 (next_data fs) error in
  processing_pool (snd r) = data :: processing_pool fs
  /\ fst r = negb (g_list_length (data :: processing_pool fs)
                   >=? pool_limit fs)
  /\ trace (snd r) = trace fs ++ [ProcessFile file]
  /\ processing_pool f2 = data :: processing_pool fs
  /\ trace f2
     = trace fs
       ++ [ProcessFile file;
           BatchUpdate ("DROP GRAPH <" +++ g_file_get_uri file +++ "> "
                        +++ builder_get_result env file) (next_data fs)]
  /\ batch_update_pending f2 (next_data fs) = true
  /\ processing_pool f3 = processing_pool fs
  /\ same_queues fs f3.
Proof.
  cbv zeta. rewrite (accepted_state MAX env fs file Hans). cbn [fst snd].
  remember (emit (ProcessFile file) _) as f1 eqn:E1.
  assert (P1 : processing_pool f1
               = {| pd_data := next_data fs; pd_file := file;
                    pd_cancellable := Some false; pd_builder := true |}
                 :: processing_pool fs) by (subst f1; reflexivity).
  assert (T1 : trace f1 = trace fs ++ [ProcessFile file])
    by (subst f1; reflexivity).
  assert (Q1 : same_queues fs f1) by (subst f1; repeat split).
  clear E1.
  assert (E2 : tracker_miner_fs_notify_file MAX env f1 file None
               = emit (BatchUpdate
                         ("DROP GRAPH <" +++ g_file_get_uri file +++ "> "
                          +++ builder_get_result env file) (next_data fs)) f1).
  { unfold tracker_miner_fs_notify_file, process_data_find.
    rewrite P1. cbn [find pd_file]. rewrite g_file_equal_refl.
    reflexivity. }
  rewrite E2.
  remember (emit (BatchUpdate _ _) f1) as f2 eqn:E.
  assert (P2 : processing_pool f2 = processing_pool f1) by (subst f2; reflexivity).
  assert (T2 : trace f2 = trace f1 ++ [BatchUpdate
                         ("DROP GRAPH <" +++ g_file_get_uri file +++ "> "
                          +++ builder_get_result env file) (next_data fs)])
    by (subst f2; reflexivity).
  assert (Q2 : same_queues f1 f2) by (subst f2; repeat split).
  clear E E2.
  split; [exact P1|]. split; [reflexivity|]. split; [exact T1|].
  split; [congruence|].
  split; [rewrite T2, T1, <- app_assoc; reflexivity|].
  split.
  { unfold batch_update_pending. rewrite T2, P2, P1.
    rewrite existsb_app. cbn [existsb pd_data]. rewrite Nat.eqb_refl.
    rewrite !orb_true_r. reflexivity. }
  unfold sparql_update_cb.
  rewrite set_up_pool.
  split.
  - cbn [processing_pool set_processing_pool].
    assert (P3 : processing_pool
                   match error with
                   | Some _ => emit (Critical "Could not execute sparql") f2
                   | None => if been_crawled f2
                             then tracker_miner_commit f2 else f2
                   end = processing_pool f2)
      by (destruct error; [|destruct (been_crawled f2)]; reflexivity).
    rewrite P3, P2, P1. apply g_list_remove_head.
  - eapply same_queues_trans; [exact Q1|].
    eapply same_queues_trans; [exact Q2|].
    eapply same_queues_trans; [|apply set_up_same_queues].
    destruct error; [|destruct (been_crawled f2)]; repeat split.
Qed.

Lemma accepted_file_holds_one_slot_witness :
  process_file env0 file_a = {| sync_notify := None; processing := true |}
  /\ processing_pool
       (sparql_update_cb 10
          (tracker_miner_fs_notify_file 10 env0
             (snd (item_add_or_update 10 env0 (tracker_miner_fs_init 1) file_a))
             file_a None) 0 None) = [].
Proof.
  split; [reflexivity|].
  exact (proj1 (proj2 (proj2 (proj2 (proj2 (proj2 (proj2
           (accepted_file_holds_one_slot 10 env0 (tracker_miner_fs_init 1)
              file_a None eq_refl)))))))).
Defined.

Lemma declined_state MAX env fs file :
  process_file env file = {| sync_notify := None; processing := false |} ->
  item_add_or_update MAX env fs file
  = (true,
     set_processing_pool (processing_pool fs)
       (emit (ProcessFile file)
          (set_processing_pool
             ({| pd_data := next_data fs; pd_file := file;
                 pd_cancellable := Some false; pd_builder := true |}
              :: processing_pool fs)
             (set_next_data (S (next_data fs)) fs)))).
Proof.
  intros Hans. unfold item_add_or_update, process_data_new, process_data_find.
  rewrite Hans. cbn [sync_notify processing negb].
  cbn [processing_pool emit set_trace set_processing_pool set_next_data
       find pd_file].
  rewrite g_file_equal_refl. cbn [pd_data g_list_remove].
  rewrite Nat.eqb_refl. reflexivity.
Qed.

(** X11. A file the extractor declines leaves no mark but the emission of
    [::process-file]: the handler keeps going, the pool and the queues are
    as they were.  A notification for that file afterwards, when no other
    entry of the pool is for it, is reported as a critical error and
    changes nothing else. *)
Theorem declined_file_takes_no_slot (MAX : Z) (env : Env)
    (fs : TrackerMinerFSPrivate) (file : GFile) (error : option GError)
    (Hans : process_file env file
            = {| sync_notify := None; processing := false |}) :
  let r := item_add_or_update MAX env fs file in
  fst r = true
  /\ processing_pool (snd r) = processing_pool fs
  /\ trace (snd r) = trace fs ++ [ProcessFile file]
  /\ same_queues fs (snd r)
  /\ item_queues_handler_id (snd r) = item_queues_handler_id fs
  /\ ((forall d, In d (processing_pool fs) -> pd_file d <> file) ->
      exists message,
        tracker_miner_fs_notify_file MAX env (snd r) file error
        = emit (Critical message) (snd r)).
Proof.
  cbv zeta. rewrite (declined_state MAX env fs file Hans). cbn [fst snd].
  split; [reflexivity|]. split; [reflexivity|]. split; [reflexivity|].
  split; [repeat split|]. split; [reflexivity|].
  intros Hno. unfold tracker_miner_fs_notify_file, process_data_find.
  cbn [processing_pool set_processing_pool].
  rewrite (find_none_pool _ _ Hno). eauto.
Qed.

Lemma declined_file_takes_no_slot_witness :
  process_file env_decline file_a
  = {| sync_notify := None; processing := false |}
  /\ fst (item_add_or_update 10 env_decline (tracker_miner_fs_init 1) file_a)
     = true
  /\ processing_pool
       (snd (item_add_or_update 10 env_decline (tracker_miner_fs_init 1)
               file_a)) = [].
Proof.
  split; [reflexivity|].
  destruct (declined_file_takes_no_slot 10 env_decline
              (tracker_miner_fs_init 1) file_a None eq_refl) as (a & b & _).
  split; [exact a|exact b].
Defined.

Lemma g_list_remove_present l data :
  existsb (fun d => Nat.eqb (pd_data d) data) l = true ->
  S (List.length (g_list_remove l data)) = List.length l.
Proof.
  induction l as [|x l IH]; simpl; [discriminate|].
  destruct (Nat.eqb (pd_data x) data); simpl; [reflexivity|].
  intros H. now rewrite IH.
Qed.

Lemma find_present l d file :
  find (fun data => g_file_equal (pd_file data) file) l = Some d ->
  existsb (fun x => Nat.eqb (pd_data x) (pd_data d)) l = true.
Proof.
  induction l as [|x l IH]; simpl; [discriminate|].
  destruct (g_file_equal (pd_file x) file).
  - intros [= ->]. now rewrite Nat.eqb_refl.
  - intros H. rewrite (IH H). apply orb_true_r.
Qed.

Lemma freed_slot_rearms MAX fs fs1 data :
  pool_inv fs -> is_paused fs = false ->
  existsb (fun d => Nat.eqb (pd_data d) data) (processing_pool fs) = true ->
  processing_pool fs1 = processing_pool fs ->
  pool_limit fs1 = pool_limit fs ->
  is_paused fs1 = is_paused fs ->
  item_queues_handler_id fs1 = item_queues_handler_id fs ->
  let fs' := item_queue_handlers_set_up MAX
               (set_processing_pool
                  (g_list_remove (processing_pool fs1) data) fs1) in
  S (List.length (processing_pool fs')) = List.length (processing_pool fs)
  /\ item_queues_handler_id fs' <> None
  /\ pool_inv fs'.
Proof.
  intros (Hr & Hle & Hlt) Hp Hin P1 L1 A1 I1. cbv zeta.
  pose proof (g_list_remove_present _ _ Hin) as Hlen.
  remember (set_processing_pool (g_list_remove (processing_pool fs1) data) fs1)
    as fs2 eqn:E.
  assert (P2 : processing_pool fs2 = g_list_remove (processing_pool fs) data)
    by (subst fs2; rewrite <- P1; reflexivity).
  assert (L2 : pool_limit fs2 = pool_limit fs)
    by (subst fs2; rewrite <- L1; reflexivity).
  assert (A2 : is_paused fs2 = false)
    by (subst fs2; rewrite <- Hp, <- A1; reflexivity).
  clear E.
  rewrite set_up_pool, P2. split; [exact Hlen|].
  split.
  - apply set_up_installs; [exact A2|].
    rewrite P2, L2. rewrite g_list_length_small by lia. lia.
  - apply pool_inv_set_up; rewrite P2, L2.
    + split; [exact Hr|lia].
    + intros _. lia.
Qed.

(** X12. Every completion gives a slot back and re-arms the queue handler.
    With the pool within its limit and the miner not paused, the answer of
    the store to a batch update that is under way, and likewise the
    notification of an error for a file that is in the pool, takes exactly
    one entry out of the pool and leaves the queue handler installed; the
    queues are not touched. *)
Theorem completion_frees_a_slot_and_rearms (MAX : Z) (env : Env)
    (fs : TrackerMinerFSPrivate)
    (Hinv : pool_inv fs) (Hpaused : is_paused fs = false) :
  (forall data error,
     batch_update_pending fs data = true ->
     let fs' := sparql_update_cb MAX fs data error in
     S (List.length (processing_pool fs')) = List.length (processing_pool fs)
     /\ item_queues_handler_id fs' <> None
     /\ pool_inv fs' /\ same_queues fs fs')
  /\ (forall file d e,
        process_data_find fs file = Some d ->
        let fs' := tracker_miner_fs_notify_file MAX env fs file (Some e) in
        S (List.length (processing_pool fs'))
        = List.length (processing_pool fs)
        /\ item_queues_handler_id fs' <> None
        /\ pool_inv fs' /\ same_queues fs fs'
        /\ extends_with (fun o => negb (is_batch_update o)) fs fs').
Proof.
  split.
  - intros data error Hpend. cbv zeta.
    unfold batch_update_pending in Hpend. apply andb_prop in Hpend.
    destruct Hpend as (_ & Hin).
    unfold sparql_update_cb.
    set (fs1 := match error with
                | Some _ => emit (Critical "Could not execute sparql") fs
                | None => if been_crawled fs
                          then tracker_miner_commit fs else fs
                end).
    assert (F : processing_pool fs1 = processing_pool fs
                /\ pool_limit fs1 = pool_limit fs
                /\ is_paused fs1 = is_paused fs
                /\ item_queues_handler_id fs1 = item_queues_handler_id fs
                /\ same_queues fs fs1).
    { subst fs1. destruct error; [|destruct (been_crawled fs)];
        repeat split. }
    clearbody fs1. destruct F as (P1 & L1 & A1 & I1 & Q1).
    destruct (freed_slot_rearms MAX fs fs1 data Hinv Hpaused Hin P1 L1 A1 I1)
      as (a & b & c).
    split; [exact a|]. split; [exact b|]. split; [exact c|].
    eapply same_queues_trans; [exact Q1|].
    eapply same_queues_trans; [|apply set_up_same_queues]. repeat split.
  - intros file d e Hfind. cbv zeta.
    pose proof (find_present _ _ _ Hfind) as Hin.
    unfold tracker_miner_fs_notify_file. rewrite Hfind.
    unfold item_add_or_update_cb.
    set (fs1 := if e =? G_IO_ERROR_NOT_FOUND then fs else emit _ fs).
    assert (F : processing_pool fs1 = processing_pool fs
                /\ pool_limit fs1 = pool_limit fs
                /\ is_paused fs1 = is_paused fs
                /\ item_queues_handler_id fs1 = item_queues_handler_id fs
                /\ same_queues fs fs1
                /\ extends_with (fun o => negb (is_batch_update o)) fs fs1).
    { subst fs1. destruct (e =? G_IO_ERROR_NOT_FOUND).
      - repeat split. apply extends_refl.
      - repeat split. apply extends_emit. reflexivity. }
    clearbody fs1. destruct F as (P1 & L1 & A1 & I1 & Q1 & E1).
    destruct (freed_slot_rearms MAX fs fs1 (pd_data d) Hinv Hpaused Hin
                P1 L1 A1 I1) as (a & b & c).
    split; [exact a|]. split; [exact b|]. split; [exact c|]. split.
    + eapply same_queues_trans; [exact Q1|].
      eapply same_queues_trans; [|apply set_up_same_queues]. repeat split.
    + eapply extends_trans; [exact E1|].
      eapply extends_trans; [|apply set_up_extends].
      apply extends_same. reflexivity.
Qed.

Lemma completion_frees_a_slot_and_rearms_witness :
  exists fs,
    run 10 0 env0
        [MonitorItemCreated file_a false; ItemQueueHandlers;
         NotifyFile file_a None] (tracker_miner_fs_init 1) = Some fs
    /\ pool_inv fs /\ is_paused fs = false
    /\ item_queues_handler_id fs = None
    /\ batch_update_pending fs 0 = true
    /\ processing_pool (sparql_update_cb 10 fs 0 None) = []
    /\ item_queues_handler_id (sparql_update_cb 10 fs 0 None) <> None.
Proof.
  eexists. split; [vm_compute; reflexivity|].
  match goal with
  | |- pool_inv ?s /\ _ =>
    assert (Hi : pool_inv s)
      by (unfold pool_inv; split;
          [vm_compute; split; [discriminate|reflexivity]
          |split; [vm_compute; discriminate
                  |intros H; exfalso; apply H; reflexivity]])
  end.
  split; [exact Hi|]. split; [reflexivity|]. split; [reflexivity|].
  match goal with
  | |- batch_update_pending ?s ?d = true /\ _ =>
    assert (Hb : batch_update_pending s d = true) by (vm_compute; reflexivity);
    destruct (proj1 (completion_frees_a_slot_and_rearms 10 env0 s Hi eq_refl)
                d None Hb) as (a & b & _)
  end.
  split; [exact Hb|]. split; [|exact b].
  vm_compute. reflexivity.
Defined.

Lemma miner_paused_state fs :
  let p := miner_paused fs in
  same_queues fs p /\ processing_pool p = processing_pool fs
  /\ pool_limit p = pool_limit fs /\ is_paused p = true
  /\ item_queues_handler_id p = None
  /\ crawl_directories_id p = crawl_directories_id fs
  /\ trace p = trace fs ++ [CrawlerPause].
Proof.
  cbv zeta. unfold miner_paused.
  destruct (item_queues_handler_id (emit CrawlerPause (set_is_paused true fs)))
    eqn:E; repeat split. exact E.
Qed.

Lemma pending_items_length fs :
  List.length (pending_items fs)
  = (List.length (items_deleted fs) + List.length (items_created fs)
     + List.length (items_updated fs) + List.length (items_moved fs))%nat.
Proof.
  unfold pending_items. rewrite !length_app, !length_map. lia.
Qed.

Lemma nothing_queued fs :
  pending_items fs = [] ->
  (g_queue_get_length (items_deleted fs) >? 0)
  || (g_queue_get_length (items_created fs) >? 0)
  || (g_queue_get_length (items_updated fs) >? 0)
  || (g_queue_get_length (items_moved fs) >? 0) = false.
Proof.
  intros H. pose proof (pending_items_length fs) as L. rewrite H in L.
  simpl in L.
  destruct (items_deleted fs); [|simpl in L; lia].
  destruct (items_created fs); [|simpl in L; lia].
  destruct (items_updated fs); [|simpl in L; lia].
  destruct (items_moved fs); [|simpl in L; lia].
  reflexivity.
Qed.

Lemma something_queued fs :
  pending_items fs <> [] ->
  Z.of_nat (List.length (pending_items fs)) < 2 ^ 32 ->
  (g_queue_get_length (items_deleted fs) >? 0)
  || (g_queue_get_length (items_created fs) >? 0)
  || (g_queue_get_length (items_updated fs) >? 0)
  || (g_queue_get_length (items_moved fs) >? 0) = true.
Proof.
  intros Hne Hlt. rewrite pending_items_length in Hlt.
  assert (Hpos : (0 < List.length (pending_items fs))%nat).
  { destruct (pending_items fs); [congruence|simpl; lia]. }
  rewrite pending_items_length in Hpos.
  unfold g_queue_get_length.
  rewrite !guint_small by lia.
  rewrite !orb_true_iff, !Z.gtb_lt. lia.
Qed.

(** X13. Pausing and resuming rebuilds the queue handler from the queues.
    [miner_paused] followed by [miner_resumed] leaves the queues, the pool
    and the crawl hook as they were, asks the crawler to pause and to
    resume, and ends not paused.  The queue handler afterwards depends on
    the queues and the pool alone, not on whether one was installed before:
    with nothing queued, or with the pool at its limit, none is installed;
    with something queued and room in the pool, one is. *)
Theorem pause_then_resume_rebuilds_the_handler (MAX : Z)
    (fs : TrackerMinerFSPrivate) :
  let fs' := miner_resumed MAX (miner_paused fs) in
  same_queues fs fs'
  /\ processing_pool fs' = processing_pool fs
  /\ is_paused fs' = false
  /\ crawl_directories_id fs' = crawl_directories_id fs
  /\ trace fs' = trace fs ++ [CrawlerPause; CrawlerResume]
  /\ (pending_items fs = [] -> item_queues_handler_id fs' = None)
  /\ (g_list_length (processing_pool fs) >= pool_limit fs ->
      item_queues_handler_id fs' = None)
  /\ (pending_items fs <> [] ->
      Z.of_nat (List.length (pending_items fs)) < 2 ^ 32 ->
      g_list_length (processing_pool fs) < pool_limit fs ->
      item_queues_handler_id fs' <> None).
Proof.
  cbv zeta.
  destruct (miner_paused_state fs) as (Q & P & L & A & I & C & T).
  remember (miner_paused fs) as p eqn:E. clear E.
  unfold miner_resumed.
  remember (emit CrawlerResume (set_is_paused false p)) as r eqn:E.
  assert (Qr : same_queues fs r)
    by (subst r; destruct Q as (a & b & c & d); repeat split; assumption).
  assert (Pr : processing_pool r = processing_pool fs)
    by (subst r; rewrite <- P; reflexivity).
  assert (Lr : pool_limit r = pool_limit fs)
    by (subst r; rewrite <- L; reflexivity).
  assert (Ar : is_paused r = false) by (subst r; reflexivity).
  assert (Ir : item_queues_handler_id r = None)
    by (subst r; rewrite <- I; reflexivity).
  assert (Cr : crawl_directories_id r = crawl_directories_id fs)
    by (subst r; rewrite <- C; reflexivity).
  assert (Tr : trace r = trace fs ++ [CrawlerPause; CrawlerResume]).
  { subst r. change (trace (emit CrawlerResume (set_is_paused false p)))
      with (trace p ++ [CrawlerResume]).
    rewrite T, <- app_assoc. reflexivity. }
  clear E.
  assert (Pend : pending_items r = pending_items fs)
    by (apply same_queues_pending; exact Qr).
  destruct ((g_queue_get_length (items_deleted r) >? 0)
            || (g_queue_get_length (items_created r) >? 0)
            || (g_queue_get_length (items_updated r) >? 0)
            || (g_queue_get_length (items_moved r) >? 0)) eqn:Hq.
  - split; [eapply same_queues_trans; [exact Qr|apply set_up_same_queues]|].
    rewrite set_up_pool, set_up_is_paused, set_up_trace.
    destruct (set_up_same_control MAX r) as (_ & _ & _ & _ & c & _).
    rewrite c.
    split; [exact Pr|]. split; [exact Ar|]. split; [exact Cr|].
    split; [exact Tr|]. split; [|split].
    + intros H. rewrite <- Pend in H. rewrite (nothing_queued r H) in Hq.
      discriminate.
    + intros H. unfold item_queue_handlers_set_up.
      rewrite Ir, Ar, Pr, Lr.
      destruct (g_list_length (processing_pool fs) >=? pool_limit fs) eqn:G;
        [exact Ir|].
      rewrite Z.geb_leb in G. apply Z.leb_gt in G. lia.
    + intros _ _ H. apply set_up_installs; [exact Ar|]. rewrite Pr, Lr.
      exact H.
  - split; [exact Qr|]. split; [exact Pr|]. split; [exact Ar|].
    split; [exact Cr|]. split; [exact Tr|]. split; [|split].
    + intros _. exact Ir.
    + intros _. exact Ir.
    + intros H1 H2 _. rewrite <- Pend in H1, H2.
      rewrite (something_queued r H1 H2) in Hq. discriminate.
Qed.

(** X14. A throttle that clamps to the stored value is ignored.  After
    [tracker_miner_fs_set_throttle] with one value, a call with a value
    whose clamp compares equal to the clamp of the first (the same value,
    the zero of the other sign, or another value beyond the same end of the
    range) returns the state as it is: nothing is stored and no hook is
    installed anew. *)
Theorem repeated_throttle_is_ignored (MAX : Z) (fs : TrackerMinerFSPrivate)
    (t t' : gdouble)
    (Hsame : SFeqb (CLAMP t gdouble_zero gdouble_one)
                   (CLAMP t' gdouble_zero gdouble_one) = true) :
  tracker_miner_fs_set_throttle MAX
    (tracker_miner_fs_set_throttle MAX fs t) t'
  = tracker_miner_fs_set_throttle MAX fs t.
Proof.
  assert (Ht : t <> S754_nan).
  { intros ->. apply SFeqb_not_nan in Hsame. destruct Hsame as (H & _).
    apply H, CLAMP_nan. }
  pose proof (set_throttle_throttle MAX fs t Ht) as He.
  remember (tracker_miner_fs_set_throttle MAX fs t) as fs1 eqn:E. clear E.
  unfold tracker_miner_fs_set_throttle.
  replace (SFeqb (throttle fs1) (CLAMP t' gdouble_zero gdouble_one))
    with true; [reflexivity|].
  symmetry. eapply SFeqb_trans; [exact He|exact Hsame].
Qed.

Lemma repeated_throttle_is_ignored_witness :
  SFeqb (CLAMP (gdouble_of_int 5) gdouble_zero gdouble_one)
        (CLAMP (gdouble_of_int 7) gdouble_zero gdouble_one) = true
  /\ tracker_miner_fs_set_throttle 10
       (tracker_miner_fs_set_throttle 10 fs_paused (gdouble_of_int 5))
       (gdouble_of_int 7)
     = tracker_miner_fs_set_throttle 10 fs_paused (gdouble_of_int 5).
Proof.
  assert (H : SFeqb (CLAMP (gdouble_of_int 5) gdouble_zero gdouble_one)
                    (CLAMP (gdouble_of_int 7) gdouble_zero gdouble_one)
              = true) by (vm_compute; reflexivity).
  split; [exact H|].
  exact (repeated_throttle_is_ignored 10 fs_paused _ _ H).
Defined.

Lemma path_starts_with_length p f :
  path_starts_with p f = true -> (List.length p <= List.length f)%nat.
Proof.
  revert f. induction p as [|a p IH]; intros [|b f]; simpl; try lia;
    try discriminate.
  intros H. apply andb_prop in H. destruct H as (_ & H).
  apply IH in H. lia.
Qed.

Lemma path_starts_with_same_length p f :
  path_starts_with p f = true -> List.length p = List.length f -> p = f.
Proof.
  revert f. induction p as [|a p IH]; intros [|b f]; simpl; try discriminate;
    try reflexivity.
  intros H L. apply andb_prop in H. destruct H as (E & H).
  apply String.eqb_eq in E. subst b. f_equal. apply IH; [exact H|lia].
Qed.

Lemma path_starts_with_refl p : path_starts_with p p = true.
Proof.
  induction p as [|a p IH]; simpl; [reflexivity|].
  rewrite String.eqb_refl. exact IH.
Qed.

Lemma equal_or_below file dir :
  g_file_equal file dir || g_file_has_prefix file dir
  = path_starts_with dir file.
Proof.
  unfold g_file_equal, g_file_has_prefix.
  destruct (list_eq_dec string_dec file dir) as [->|Hne].
  - simpl. symmetry. apply path_starts_with_refl.
  - simpl. destruct (path_starts_with dir file) eqn:H; [|reflexivity].
    simpl. apply Nat.ltb_lt.
    pose proof (path_starts_with_length _ _ H) as L.
    destruct (Nat.eq_dec (List.length dir) (List.length file)) as [E|E];
      [|lia].
    exfalso. apply Hne. symmetry.
    apply path_starts_with_same_length; assumption.
Qed.

(** X16. Removing a directory drops the directories that enclose it from
    the list of directories to crawl.  [tracker_miner_fs_remove_directory]
    takes out of the list exactly the entries whose path is the removed
    path or a leading part of it; an entry strictly below the removed
    directory stays in the list.  The crawler is told to stop when the
    directory being crawled is the removed one or encloses it, and the
    current directory stays set.  The result is true exactly when the
    crawler was told to stop or an entry was dropped. *)
Theorem remove_directory_drops_enclosing_directories
    (fs : TrackerMinerFSPrivate) (R : GFile) :
  let r := tracker_miner_fs_remove_directory fs R in
  let encloses (d : DirectoryData) := path_starts_with (dd_file d) R in
  let stopped := match current_directory fs with
                 | Some dd => encloses dd
                 | None => false
                 end in
  directories (snd r) = filter (fun d => negb (encloses d)) (directories fs)
  /\ (forall d, In d (directories fs) ->
        g_file_has_prefix (dd_file d) R = true -> In d (directories (snd r)))
  /\ trace (snd r) = trace fs ++ (if stopped then [CrawlerStop] else [])
  /\ current_directory (snd r) = current_directory fs
  /\ crawl_directories_id (snd r) = crawl_directories_id fs
  /\ fst r = stopped || existsb encloses (directories fs).
Proof.
  cbv zeta.
  assert (Hf : forall l,
             filter (fun data => negb (g_file_equal R (dd_file data)
                                       || g_file_has_prefix R (dd_file data))) l
             = filter (fun d => negb (path_starts_with (dd_file d) R)) l).
  { intros l. apply filter_ext. intros d. now rewrite equal_or_below. }
  assert (He : forall l,
             existsb (fun data => g_file_equal R (dd_file data)
                                  || g_file_has_prefix R (dd_file data)) l
             = existsb (fun d => path_starts_with (dd_file d) R) l).
  { intros l. induction l as [|d l IH]; simpl; [reflexivity|].
    now rewrite equal_or_below, IH. }
  assert (Hd : directories (snd (tracker_miner_fs_remove_directory fs R))
               = filter (fun d => negb (path_starts_with (dd_file d) R))
                        (directories fs)).
  { rewrite <- Hf. unfold tracker_miner_fs_remove_directory.
    destruct (current_directory fs) as [dd|];
      [destruct (g_file_equal R (dd_file dd)
                 || g_file_has_prefix R (dd_file dd))|]; reflexivity. }
  split; [exact Hd|]. split.
  - intros d Hin Hb. rewrite Hd. apply filter_In. split; [exact Hin|].
    apply negb_true_iff.
    destruct (path_starts_with (dd_file d) R) eqn:H; [|reflexivity].
    apply path_starts_with_length in H.
    unfold g_file_has_prefix in Hb. apply andb_prop in Hb.
    destruct Hb as (_ & Hb). apply Nat.ltb_lt in Hb. lia.
  - unfold tracker_miner_fs_remove_directory.
    destruct (current_directory fs) as [dd|] eqn:Hc.
    + rewrite <- (equal_or_below R (dd_file dd)).
      destruct (g_file_equal R (dd_file dd)
                || g_file_has_prefix R (dd_file dd)); cbn [fst snd].
      * split; [reflexivity|]. split; [exact Hc|]. split; [reflexivity|].
        reflexivity.
      * split; [symmetry; apply app_nil_r|]. split; [exact Hc|].
        split; [reflexivity|]. apply He.
    + cbn [fst snd]. split; [symmetry; apply app_nil_r|].
      split; [exact Hc|]. split; [reflexivity|]. apply He.
Qed.

(** X17. The level of a move counts the lookups still outstanding, so the
    assertion of [item_update_uri_recursively_cb] holds.  When the level
    equals the number of lookups under way, then after asking for one more
    it still does, and after the answer to the oldest one it still does:
    the level is not negative, the lookups under way are the remaining
    ones followed by the children that start with the source URI, and the
    level is 0, which quits the nested loop, exactly when no lookup is
    left.  The callback changes nothing in the miner but its log, which
    gains the messages for that answer. *)
Theorem level_counts_outstanding_lookups (st : MoveState)
    (Hlevel : rmd_level (fst st) = Z.of_nat (List.length (snd st))) :
  (forall source_uri uri,
     let st1 := item_update_uri_recursively st source_uri uri in
     rmd_level (fst st1) = Z.of_nat (List.length (snd st1))
     /\ snd st1 = snd st ++ [source_uri])
  /\ (forall fs query outstanding rows,
        snd st = query :: outstanding ->
        let r := item_update_uri_recursively_cb fs (fst st, outstanding) rows in
        let st' := snd r in
        rmd_level (fst st') = Z.of_nat (List.length (snd st'))
        /\ 0 <= rmd_level (fst st')
        /\ snd st' = outstanding ++ taken (rmd_source_uri (fst st)) rows
        /\ ((rmd_level (fst st') =? 0) = true <-> snd st' = [])
        /\ fst r = log_all (answer_log (rmd_source_uri (fst st)) rows) fs).
Proof.
  destruct st as (data, out). cbn [fst snd] in *. split.
  - intros source_uri uri. cbn [item_update_uri_recursively fst snd rmd_level].
    rewrite length_app, Hlevel. cbn [List.length]. split; [lia|reflexivity].
  - intros fs query outstanding rows ->. cbv zeta. rewrite callback_eq.
    cbn [fst snd rmd_level]. rewrite Hlevel, length_app.
    cbn [List.length].
    split; [lia|]. split; [lia|]. split; [reflexivity|].
    split; [|reflexivity].
    rewrite Z.eqb_eq. split.
    + intros H. apply length_zero_iff_nil. rewrite length_app. lia.
    + intros H. apply length_zero_iff_nil in H. rewrite length_app in H. lia.
Qed.

Lemma level_counts_outstanding_lookups_witness :
  rmd_level (fst move_start) = Z.of_nat (List.length (snd move_start))
  /\ snd (snd (item_update_uri_recursively_cb (tracker_miner_fs_init 1)
                 (fst move_start, [])
                 (store_children env_sub "file:///data/sub")))
     = ["file:///data/sub/b.txt"].
Proof.
  assert (H : rmd_level (fst move_start)
              = Z.of_nat (List.length (snd move_start))) by reflexivity.
  split; [exact H|].
  destruct (proj2 (level_counts_outstanding_lookups move_start H)
              (tracker_miner_fs_init 1) "file:///data/sub" []
              (store_children env_sub "file:///data/sub") eq_refl)
    as (_ & _ & E & _).
  rewrite E. vm_compute. reflexivity.
Defined.

Lemma prefix_refl (s : string) : String.prefix s s = true.
Proof.
  induction s as [|a s IH]; simpl; [reflexivity|].
  destruct (ascii_dec a a); [exact IH|congruence].
Qed.

Lemma g_main_loop_run_never env source_uri (P : string -> Prop) fuel :
  (forall q, P q ->
             exists c, In c (taken source_uri (store_children env q)) /\ P c) ->
  forall fs st,
    rmd_source_uri (fst st) = source_uri ->
    rmd_level (fst st) = Z.of_nat (List.length (snd st)) ->
    (exists q, In q (snd st) /\ P q) ->
    g_main_loop_run fuel env fs st = None.
Proof.
  intros Hcyc. induction fuel as [|fuel IH];
    intros fs (data, out) Hs Hl (q & Hin & Hq); [reflexivity|].
  cbn [fst snd] in *. cbn [g_main_loop_run snd fst].
  destruct out as [|q0 out]; [destruct Hin|].
  rewrite callback_eq. cbn [fst rmd_level]. rewrite Hs.
  remember (taken source_uri (store_children env q0)) as t eqn:Et.
  assert (Hnext : exists c, In c (out ++ t) /\ P c).
  { destruct Hin as [->|Hin].
    - destruct (Hcyc q Hq) as (c & Hc & Hpc). exists c.
      split; [apply in_or_app; right; rewrite Et; exact Hc|exact Hpc].
    - exists q. split; [apply in_or_app; left; exact Hin|exact Hq]. }
  assert (Hlen : (1 <= List.length (out ++ t))%nat).
  { destruct Hnext as (c & Hc & _).
    destruct (out ++ t); [destruct Hc|simpl; lia]. }
  rewrite length_app in Hlen. cbn [List.length] in Hl.
  replace (rmd_level data + Z.of_nat (List.length t) - 1 =? 0) with false
    by (symmetry; apply Z.eqb_neq; lia).
  apply IH; cbn [fst snd rmd_source_uri rmd_level].
  - reflexivity.
  - rewrite length_app. lia.
  - exact Hnext.
Qed.

(** X18. A move in a store whose containment never bottoms out does not
    come back.  When the store knows the source of a move, the display
    name of the destination can be queried, and there is a set of
    resources that holds the source and in which every member has, in the
    store, a child that is a member again and whose URI starts with the
    source URI (a resource listed as its own child is enough), then every
    answer leaves a lookup under way: the nested loop of [item_move] is
    never quit, whatever the number of turns it is given. *)
Theorem move_in_a_cyclic_store_never_returns (MAX : Z) (fuel : nat)
    (env : Env) (fs : TrackerMinerFSPrivate) (file source_file : GFile)
    (name : string) (cycle : string -> Prop)
    (Hsource : store_exists env source_file = true)
    (Hname : query_display_name env file = Some name)
    (Hstart : cycle (g_file_get_uri source_file))
    (Hcyc : forall q,
        cycle q ->
        exists c,
          In c (taken (g_file_get_uri source_file) (store_children env q))
          /\ cycle c) :
  item_move MAX fuel env fs file source_file = None.
Proof.
  unfold item_move, item_query_exists. rewrite Hsource, Hname. cbn [negb].
  rewrite (g_main_loop_run_never env (g_file_get_uri source_file) cycle fuel
             Hcyc); [reflexivity|reflexivity|reflexivity|].
  eexists. split; [left; reflexivity|exact Hstart].
Qed.

Lemma move_in_a_cyclic_store_never_returns_witness :
  store_exists env_self_child dir_sub = true
  /\ query_display_name env_self_child file_a = Some "a.txt"
  /\ store_children env_self_child "file:///data/other" = Some []
  /\ item_move 10 1000 env_self_child (tracker_miner_fs_init 1) file_a dir_sub
     = None.
Proof.
  split; [reflexivity|]. split; [reflexivity|]. split; [reflexivity|].
  apply (move_in_a_cyclic_store_never_returns 10 1000 env_self_child
           (tracker_miner_fs_init 1) file_a dir_sub "a.txt"
           (fun q => q = "file:///data/sub"));
    [reflexivity|reflexivity|reflexivity|].
  intros q ->. exists "file:///data/sub".
  split; [left; reflexivity|reflexivity].
Defined.

Lemma substring_after (u v : string) (n : nat) :
  String.substring (String.length u) n (u +++ v) = String.substring 0 n v.
Proof. induction u as [|a u IH]; simpl; [reflexivity|exact IH]. Qed.

Lemma length_append (u v : string) :
  String.length (u +++ v) = (String.length u + String.length v)%nat.
Proof. induction u as [|a u IH]; simpl; [reflexivity|now rewrite IH]. Qed.

Lemma prefix_append (u v : string) : String.prefix u (u +++ v) = true.
Proof.
  induction u as [|a u IH]; simpl; [now destruct v|].
  destruct (ascii_dec a a); [exact IH|congruence].
Qed.

Lemma slash_uri_ends_in_slash (uri : string) :
  let slash_uri := if negb (g_str_has_suffix uri "/")
                   then uri +++ "/" else uri in
  g_str_has_suffix slash_uri "/" = true
  /\ g_str_has_prefix slash_uri uri = true.
Proof.
  cbv zeta. destruct (g_str_has_suffix uri "/") eqn:H; cbn [negb].
  - split; [exact H|]. unfold g_str_has_prefix. apply prefix_refl.
  - split; [|apply prefix_append].
    unfold g_str_has_suffix. rewrite length_append.
    change (String.length "/") with 1%nat.
    replace (String.length uri + 1 - 1)%nat with (String.length uri) by lia.
    rewrite substring_after.
    replace (1 <=? String.length uri + 1)%nat with true
      by (symmetry; apply Nat.leb_le; lia).
    reflexivity.
Qed.

Lemma before_dispatch_next_data env fs :
  next_data (before_dispatch env fs) = next_data fs
  /\ items_deleted (before_dispatch env fs) = items_deleted fs.
Proof.
  unfold before_dispatch.
  destruct (negb (timer fs)); simpl;
    match goal with |- context [if ?c then _ else _] => destruct c end;
    repeat split.
Qed.

(** X19. Deletions go to the store one at a time.  When the head of the
    Deleted queue is a file that is not locked and that the store knows, a
    tick of the queue handler takes it off the queue, puts an entry without
    cancellable for it at the head of the pool and sends one update to the
    store, which deletes the resource and everything whose container
    starts with the URI of the file followed by a slash (the URI itself
    when it ends in a slash already).  The tick then
    gives up the handler, whatever room the pool has; the answer of the
    store takes the entry out of the pool again. *)
Theorem deletion_waits_for_the_store (MAX : Z) (fuel : nat) (env : Env)
    (fs : TrackerMinerFSPrivate) (f : GFile) (rest : list GFile)
    (Hhead : items_deleted fs = f :: rest)
    (Hunlocked : tracker_file_is_locked env f = false)
    (Hstored : store_exists env f = true) :
  let uri := g_file_get_uri f in
  let slash_uri := if g_str_has_suffix uri "/" then uri else uri +++ "/" in
  exists fs',
    item_queue_handlers_cb MAX fuel env fs = Some (false, fs')
    /\ item_queues_handler_id fs' = None
    /\ items_deleted fs' = rest
    /\ processing_pool fs'
       = {| pd_data := next_data fs; pd_file := f;
            pd_cancellable := None; pd_builder := false |}
         :: processing_pool fs
    /\ trace fs'
       = trace fs
         ++ [BatchUpdate (removal_text uri slash_uri) (next_data fs)]
    /\ g_str_has_suffix slash_uri "/" = true
    /\ g_str_has_prefix slash_uri uri = true
    /\ (forall error,
          processing_pool (sparql_update_cb MAX fs' (next_data fs) error)
          = processing_pool fs).
Proof.
  cbv zeta.
  rewrite item_queue_handlers_cb_unfold. unfold item_queue_get_next_file.
  rewrite Hhead. cbv beta iota zeta. rewrite Hunlocked.
  unfold item_remove, item_query_exists. rewrite Hstored. cbn [negb].
  unfold process_data_new, after_dispatch. cbv beta iota zeta. cbn [negb].
  destruct (before_dispatch_frame env (set_items_deleted rest fs))
    as (_ & P & T & _).
  destruct (before_dispatch_next_data env (set_items_deleted rest fs))
    as (N & D).
  remember (before_dispatch env (set_items_deleted rest fs)) as b eqn:E.
  clear E.
  change (processing_pool (set_items_deleted rest fs))
    with (processing_pool fs) in P.
  change (trace (set_items_deleted rest fs)) with (trace fs) in T.
  change (next_data (set_items_deleted rest fs)) with (next_data fs) in N.
  change (items_deleted (set_items_deleted rest fs)) with rest in D.
  destruct (slash_uri_ends_in_slash (g_file_get_uri f)) as (S1 & S2).
  destruct (g_str_has_suffix (g_file_get_uri f) "/") eqn:Hslash;
    cbn [negb] in *;
    (eexists; split; [reflexivity|]);
    (split; [reflexivity|]); (split; [exact D|]);
    (split; [cbn; rewrite N, P; reflexivity|]);
    (split; [cbn; rewrite N, T; reflexivity|]);
    (split; [exact S1|]); (split; [exact S2|]);
    intros error; unfold sparql_update_cb; rewrite set_up_pool;
    rewrite N;
    (destruct error; [|match goal with
                       | |- context [if ?c then _ else _] => destruct c
                       end]);
    cbn; rewrite Nat.eqb_refl; exact P.
Qed.

Lemma deletion_waits_for_the_store_witness :
  items_deleted
    (monitor_item_deleted_cb 10 env_stored (tracker_miner_fs_init 1)
       file_a false) = [file_a]
  /\ tracker_file_is_locked env_stored file_a = false
  /\ store_exists env_stored file_a = true
  /\ exists fs',
       item_queue_handlers_cb 10 0 env_stored
         (monitor_item_deleted_cb 10 env_stored (tracker_miner_fs_init 1)
            file_a false) = Some (false, fs')
       /\ item_queues_handler_id fs' = None
       /\ map pd_file (processing_pool fs') = [file_a].
Proof.
  split; [reflexivity|]. split; [reflexivity|]. split; [reflexivity|].
  destruct (deletion_waits_for_the_store 10 0 env_stored
              (monitor_item_deleted_cb 10 env_stored (tracker_miner_fs_init 1)
                 file_a false) file_a [] eq_refl eq_refl eq_refl)
    as (fs' & H1 & H2 & _ & H4 & _).
  exists fs'. split; [exact H1|]. split; [exact H2|].
  rewrite H4. reflexivity.
Defined.

Lemma crawler_found_hook found fs :
  let fs1 := fold_left
               (fun fs (l : GFile * bool) =>
                  if negb (snd l)
                  then set_items_created (items_created fs ++ [fst l]) fs
                  else fs) found fs in
  crawl_directories_id fs1 = crawl_directories_id fs
  /\ been_started fs1 = been_started fs
  /\ directories fs1 = directories fs.
Proof.
  revert fs. induction found as [|l found IH]; intros fs; simpl; [auto|].
  destruct (IH (if negb (snd l)
                then set_items_created (items_created fs ++ [fst l]) fs
                else fs)) as (a & b & c).
  rewrite a, b, c. destruct (negb (snd l)); auto.
Qed.

Lemma crawl_directories_start_hook MAX fs :
  been_started fs = true ->
  crawl_directories_id (crawl_directories_start MAX fs) <> None
  /\ been_started (crawl_directories_start MAX fs) = true
  /\ directories (crawl_directories_start MAX fs) = directories fs.
Proof.
  intros H. unfold crawl_directories_start.
  destruct (crawl_directories_id fs) eqn:E; [rewrite E; auto; repeat split;
                                             [discriminate|exact H]|].
  rewrite H. cbn [negb].
  destruct (negb (timer fs)); repeat split; try discriminate; exact H.
Qed.

Lemma crawler_finished_hook MAX fs found interrupted df di ff fi :
  been_started fs = true ->
  let fs' := crawler_finished_cb MAX fs found interrupted df di ff fi in
  crawl_directories_id fs' <> None
  /\ been_started fs' = true
  /\ directories fs' = directories fs
  /\ current_directory fs' = None
  /\ is_crawling fs' = false
  /\ trace fs' = trace fs
  /\ items_created fs'
     = items_created fs ++ map fst (filter (fun l => negb (snd l)) found).
Proof.
  intros Hs. cbv zeta.
  destruct (crawler_found_queues found fs) as (a & _).
  destruct (crawler_found_hook found fs) as (_ & hb & hd).
  cbv zeta in a, hb, hd.
  rewrite crawler_finished_trace.
  unfold crawler_finished_cb.
  match goal with |- context [crawl_directories_start MAX ?s] =>
    remember s as fs2 eqn:E
  end.
  assert (B2 : been_started fs2 = true) by (subst fs2; rewrite <- Hs, <- hb; reflexivity).
  assert (D2 : directories fs2 = directories fs) by (subst fs2; rewrite <- hd; reflexivity).
  assert (C2 : current_directory fs2 = None) by (subst fs2; reflexivity).
  assert (K2 : is_crawling fs2 = false) by (subst fs2; reflexivity).
  assert (I2 : items_created fs2
               = items_created fs
                 ++ map fst (filter (fun l => negb (snd l)) found))
    by (subst fs2; rewrite <- a; reflexivity).
  clear E.
  destruct (crawl_directories_start_hook MAX fs2 B2) as (h1 & h2 & h3).
  destruct (crawl_directories_start_control MAX fs2) as (_ & ck & cd & _).
  destruct (crawl_directories_start_same_queues MAX fs2) as (_ & qb & _).
  rewrite ck, cd, h3, qb.
  repeat split; assumption.
Qed.

Lemma crawl_round MAX fuel env fs d rest found :
  tracker_crawler_start env (dd_file d) (dd_recurse d) = true ->
  been_started fs = true -> current_directory fs = None ->
  crawl_directories_id fs <> None -> directories fs = d :: rest ->
  exists fs',
    run MAX fuel env [CrawlDirectories; CrawlerFinished found false 0 0 0 0] fs
    = Some fs'
    /\ been_started fs' = true /\ current_directory fs' = None
    /\ crawl_directories_id fs' <> None /\ directories fs' = rest
    /\ is_crawling fs' = false
    /\ trace fs' = trace fs ++ [CrawlerStart (dd_file d) (dd_recurse d)]
    /\ items_created fs'
       = items_created fs ++ map fst (filter (fun l => negb (snd l)) found).
Proof.
  intros Hst Hb Hc Hi Hd.
  cbn [run step].
  destruct (crawl_directories_id fs) eqn:Ei; [|congruence].
  unfold crawl_directories_cb. rewrite Hc, Hd, Hst. cbn [snd].
  match goal with |- context [is_crawling ?s] => remember s as fs1 eqn:E end.
  assert (K1 : is_crawling fs1 = true) by (subst fs1; reflexivity).
  assert (B1 : been_started fs1 = true) by (subst fs1; rewrite <- Hb; reflexivity).
  assert (D1 : directories fs1 = rest) by (subst fs1; reflexivity).
  assert (T1 : trace fs1 = trace fs ++ [CrawlerStart (dd_file d) (dd_recurse d)])
    by (subst fs1; reflexivity).
  assert (I1 : items_created fs1 = items_created fs) by (subst fs1; reflexivity).
  clear E. rewrite K1.
  destruct (crawler_finished_hook MAX fs1 found false 0 0 0 0 B1)
    as (a & b & c & e & f & g & h).
  eexists. split; [reflexivity|].
  rewrite c, g, h, D1, T1, I1. repeat split; assumption.
Qed.

(** X20. Directories are crawled one at a time, in the order they were
    added.  In a started miner with the crawl hook installed and no
    directory being crawled, and a crawler that starts on every directory,
    letting the hook run and the crawler finish once for every listed
    directory starts the crawler on the directories in the order of the
    list, and on nothing else; the files found, those marked as unchanged
    left out, are appended to the Created queue crawl after crawl; at the
    end the list is empty and no crawl is running. *)
Theorem directories_are_crawled_in_order (MAX : Z) (fuel : nat) (env : Env)
    (founds : list (list (GFile * bool))) (fs : TrackerMinerFSPrivate)
    (Hstart : forall f r, tracker_crawler_start env f r = true)
    (Hstarted : been_started fs = true)
    (Hcurrent : current_directory fs = None)
    (Hhook : crawl_directories_id fs <> None)
    (Hlen : List.length founds = List.length (directories fs)) :
  exists fs',
    run MAX fuel env (crawl_events founds) fs = Some fs'
    /\ trace fs'
       = trace fs
         ++ map (fun d => CrawlerStart (dd_file d) (dd_recurse d))
                (directories fs)
    /\ items_created fs'
       = items_created fs
         ++ flat_map (fun found =>
                        map fst (filter (fun l => negb (snd l)) found)) founds
    /\ directories fs' = []
    /\ current_directory fs' = None
    /\ (is_crawling fs = false -> is_crawling fs' = false).
Proof.
  revert fs Hstarted Hcurrent Hhook Hlen.
  induction founds as [|found founds IH]; intros fs Hb Hc Hi Hlen.
  - destruct (directories fs) eqn:Hd; [|discriminate].
    exists fs. cbn. rewrite !app_nil_r. repeat split; auto.
  - destruct (directories fs) as [|d rest] eqn:Hd; [discriminate|].
    destruct (crawl_round MAX fuel env fs d rest found (Hstart _ _) Hb Hc Hi Hd)
      as (fs1 & R & b1 & c1 & i1 & d1 & k1 & t1 & q1).
    assert (Hlen1 : List.length founds = List.length (directories fs1))
      by (rewrite d1; simpl in Hlen; lia).
    destruct (IH fs1 b1 c1 i1 Hlen1) as (fs' & R' & H).
    exists fs'. split.
    + cbn [crawl_events flat_map app] in *.
      cbn [run] in R. cbn [run].
      destruct (step MAX fuel env CrawlDirectories fs) as [s1|];
        [|discriminate].
      destruct (step MAX fuel env (CrawlerFinished found false 0 0 0 0) s1)
        as [s2|]; [|discriminate].
      injection R as ->. exact R'.
    + rewrite t1, q1, d1 in H. cbn [map flat_map].
      rewrite <- !app_assoc in H. cbn [app] in H.
      destruct H as (H1 & H2 & H3 & H4 & H5). repeat split; auto.
Qed.

Lemma directories_are_crawled_in_order_witness :
  exists fs',
    run 10 0 env0 (crawl_events [[(file_a, false)]; [(file_b, true)]])
        fs_two_directories = Some fs'
    /\ trace fs' = [CrawlerStart dir_data true; CrawlerStart dir_sub false]
    /\ items_created fs' = [file_a].
Proof.
  assert (Hhook : crawl_directories_id fs_two_directories <> None)
    by (vm_compute; discriminate).
  destruct (directories_are_crawled_in_order 10 0 env0
              [[(file_a, false)]; [(file_b, true)]] fs_two_directories
              (fun _ _ => eq_refl) eq_refl eq_refl Hhook eq_refl)
    as (fs' & R & T & I & _).
  exists fs'. split; [exact R|]. rewrite T, I.
  split; vm_compute; reflexivity.
Defined.

(** X21. A directory added while another is being crawled waits for the
    end of that crawl.  In a started miner with a directory on record as
    being crawled and no crawl hook installed,
    [tracker_miner_fs_add_directory] appends the directory to the list and
    installs the hook; when the hook runs it finds the crawl on record,
    logs a critical message, starts no crawl and removes itself, leaving
    the list as it is.  When the crawler then finishes, the hook is
    installed again with the directory still in the list. *)
Theorem directory_added_during_a_crawl_waits (MAX : Z) (fuel : nat)
    (env : Env) (fs : TrackerMinerFSPrivate) (dd : DirectoryData)
    (file : GFile) (recurse : bool)
    (Hstarted : been_started fs = true)
    (Hcurrent : current_directory fs = Some dd)
    (Hhook : crawl_directories_id fs = None) :
  let added := {| dd_file := file; dd_recurse := recurse |} in
  crawl_directories_id (tracker_miner_fs_add_directory MAX fs file recurse)
  <> None
  /\ exists fs' message,
       run MAX fuel env [AddDirectory file recurse; CrawlDirectories] fs
       = Some fs'
       /\ trace fs' = trace fs ++ [Critical message]
       /\ directories fs' = directories fs ++ [added]
       /\ crawl_directories_id fs' = None
       /\ current_directory fs' = Some dd
       /\ is_crawling fs' = is_crawling fs
       /\ forall found interrupted df di ff fi,
            let fs'' := crawler_finished_cb MAX fs' found interrupted
                          df di ff fi in
            crawl_directories_id fs'' <> None
            /\ current_directory fs'' = None
            /\ directories fs'' = directories fs ++ [added].
Proof.
  cbv zeta.
  remember (set_directories
              (directories fs ++ [{| dd_file := file; dd_recurse := recurse |}])
              fs) as fs0 eqn:E0.
  assert (B0 : been_started fs0 = true) by (subst fs0; exact Hstarted).
  assert (C0 : current_directory fs0 = Some dd) by (subst fs0; exact Hcurrent).
  assert (D0 : directories fs0
               = directories fs ++ [{| dd_file := file; dd_recurse := recurse |}])
    by (subst fs0; reflexivity).
  assert (T0 : trace fs0 = trace fs) by (subst fs0; reflexivity).
  assert (K0 : is_crawling fs0 = is_crawling fs) by (subst fs0; reflexivity).
  destruct (crawl_directories_start_hook MAX fs0 B0) as (h1 & h2 & h3).
  destruct (crawl_directories_start_control MAX fs0) as (_ & ck & cd & _).
  pose proof (crawl_directories_start_trace MAX fs0) as ct.
  unfold tracker_miner_fs_add_directory. rewrite <- E0.
  split; [exact h1|].
  cbn [run step]. unfold tracker_miner_fs_add_directory. rewrite <- E0.
  remember (crawl_directories_start MAX fs0) as fs1 eqn:E1. clear E0 E1.
  destruct (crawl_directories_id fs1) eqn:Ei; [|congruence].
  unfold crawl_directories_cb. rewrite cd, C0. cbn [snd].
  eexists. eexists. split; [reflexivity|].
  split; [cbn; rewrite ct, T0; reflexivity|].
  split; [cbn; rewrite h3, D0; reflexivity|].
  split; [reflexivity|].
  split; [cbn; rewrite cd; exact C0|].
  split; [cbn; rewrite ck; exact K0|].
  intros found interrupted df di ff fi.
  match goal with |- context [crawler_finished_cb MAX ?s] =>
    remember s as fs2 eqn:E2
  end.
  assert (B2 : been_started fs2 = true) by (subst fs2; exact h2).
  assert (D2 : directories fs2
               = directories fs ++ [{| dd_file := file; dd_recurse := recurse |}])
    by (subst fs2; cbn; rewrite h3; exact D0).
  clear E2.
  destruct (crawler_finished_hook MAX fs2 found interrupted df di ff fi B2)
    as (a & _ & c & e & _).
  rewrite c, D2. repeat split; assumption.
Qed.

Lemma directory_added_during_a_crawl_waits_witness :
  been_started fs_crawling = true
  /\ current_directory fs_crawling
     = Some {| dd_file := dir_data; dd_recurse := true |}
  /\ crawl_directories_id fs_crawling = None
  /\ exists fs' message,
       run 10 0 env0 [AddDirectory dir_sub true; CrawlDirectories] fs_crawling
       = Some fs'
       /\ trace fs' = [CrawlerStart dir_data true; Critical message]
       /\ map dd_file (directories fs') = [dir_sub].
Proof.
  split; [reflexivity|]. split; [reflexivity|]. split; [reflexivity|].
  destruct (directory_added_during_a_crawl_waits 10 0 env0 fs_crawling
              {| dd_file := dir_data; dd_recurse := true |} dir_sub true
              eq_refl eq_refl eq_refl)
    as (_ & fs' & message & R & T & D & _).
  exists fs', message. split; [exact R|]. rewrite T, D.
  split; vm_compute; reflexivity.
Defined.

(** ** C10: a created directory is crawled, not queued *)





(** ** C6: what is reported *)

Lemma same_report_refl fs : same_report fs fs.
Proof. repeat split. Qed.

Lemma same_report_trans fs1 fs2 fs3 :
  same_report fs1 fs2 -> same_report fs2 fs3 -> same_report fs1 fs3.
Proof. unfold same_report. intros (a & b & c) (a' & b' & c'). repeat split; congruence. Qed.

Lemma set_up_same_report MAX fs :
  same_report fs (item_queue_handlers_set_up MAX fs).
Proof.
  unfold item_queue_handlers_set_up.
  destruct (item_queues_handler_id fs); [apply same_report_refl|].
  destruct (is_paused fs); [apply same_report_refl|].
  destruct (_ >=? _); [apply same_report_refl|].
  destruct (negb _); repeat split.
Qed.

Lemma crawl_directories_start_same_report MAX fs :
  same_report fs (crawl_directories_start MAX fs).
Proof.
  unfold crawl_directories_start.
  destruct (crawl_directories_id fs); [apply same_report_refl|].
  destruct (negb (been_started fs)); [apply same_report_refl|].
  destruct (negb (timer fs)); repeat split.
Qed.

Lemma crawl_directories_stop_same_report fs :
  same_report fs (crawl_directories_stop fs).
Proof.
  unfold crawl_directories_stop.
  destruct (crawl_directories_id fs); [|apply same_report_refl].
  destruct (current_directory fs); repeat split.
Qed.

Lemma add_directory_same_report MAX fs file recurse :
  same_report fs (tracker_miner_fs_add_directory MAX fs file recurse).
Proof.
  unfold tracker_miner_fs_add_directory.
  eapply same_report_trans; [|apply crawl_directories_start_same_report].
  repeat split.
Qed.

Lemma sparql_update_cb_same_report MAX fs data error :
  same_report fs (sparql_update_cb MAX fs data error).
Proof.
  unfold sparql_update_cb.
  eapply same_report_trans; [|apply set_up_same_report].
  destruct error; [|destruct (been_crawled fs)]; repeat split.
Qed.

Lemma notify_file_same_report MAX env fs file error :
  same_report fs (tracker_miner_fs_notify_file MAX env fs file error).
Proof.
  unfold tracker_miner_fs_notify_file, item_add_or_update_cb.
  destruct (process_data_find fs file); [|repeat split].
  destruct error as [e|]; [|repeat split].
  eapply same_report_trans; [|apply set_up_same_report].
  destruct (e =? G_IO_ERROR_NOT_FOUND); repeat split.
Qed.

Lemma item_add_or_update_same_report MAX env fs file :
  same_report fs (snd (item_add_or_update MAX env fs file)).
Proof.
  unfold item_add_or_update, process_data_new.
  set (fs1 := emit (ProcessFile file) _).
  assert (H1 : same_report fs fs1) by (repeat split).
  set (fs2 := match sync_notify (process_file env file) with
              | Some error => tracker_miner_fs_notify_file MAX env fs1 file error
              | None => fs1
              end).
  assert (H2 : same_report fs fs2).
  { subst fs2. destruct (sync_notify _); [|exact H1].
    eapply same_report_trans; [exact H1|apply notify_file_same_report]. }
  clearbody fs2. destruct (negb _).
  - destruct (process_data_find fs2 file); cbn [snd];
      (eapply same_report_trans; [exact H2|repeat split]).
  - destruct (_ >=? _); exact H2.
Qed.

Lemma item_remove_same_report env fs file :
  same_report fs (snd (item_remove env fs file)).
Proof.
  unfold item_remove, process_data_new.
  destruct (negb (item_query_exists env file)); repeat split.
Qed.

Lemma item_move_same_report MAX fuel env fs file source_file r :
  item_move MAX fuel env fs file source_file = Some r ->
  same_report fs (snd r).
Proof.
  unfold item_move, process_data_new.
  destruct (negb (item_query_exists env source_file)).
  - intros [= <-]. apply item_add_or_update_same_report.
  - destruct (query_display_name env file).
    + destruct (g_main_loop_run _ _ _ _) as [[fs1 move_data]|] eqn:Hrun;
        [|discriminate].
      destruct (g_main_loop_run_frame _ _ _ _ _ _ Hrun) as (log & -> & _).
      intros [= <-]. repeat split.
    + intros [= <-]. apply item_remove_same_report.
Qed.

Lemma next_file_same_report fs queue file source_file fs1 :
  item_queue_get_next_file fs = (queue, file, source_file, fs1) ->
  same_report fs fs1.
Proof.
  unfold item_queue_get_next_file.
  destruct (items_deleted fs); [|intros [= <- <- <- <-]; repeat split].
  destruct (items_created fs); [|intros [= <- <- <- <-]; repeat split].
  destruct (items_updated fs); [|intros [= <- <- <- <-]; repeat split].
  destruct (items_moved fs); intros [= <- <- <- <-]; repeat split.
Qed.

Lemma after_dispatch_same_report fs keep fs3 r :
  same_report fs fs3 ->
  after_dispatch (Some (keep, fs3)) = Some r -> same_report fs (snd r).
Proof.
  intros H. unfold after_dispatch, tracker_miner_commit.
  destruct keep; cbn [negb].
  - destruct (been_crawled fs3); intros [= <-]; cbn [snd];
      (eapply same_report_trans; [exact H|repeat split]).
  - intros [= <-]. cbn [snd].
    eapply same_report_trans; [exact H|repeat split].
Qed.

Lemma monitor_created_same_report MAX env fs file is_directory :
  same_report fs (monitor_item_created_cb MAX env fs file is_directory).
Proof.
  unfold monitor_item_created_cb.
  destruct (should_check_file env file is_directory);
    [|apply same_report_refl].
  destruct is_directory; [apply add_directory_same_report|].
  eapply same_report_trans; [|apply set_up_same_report]. repeat split.
Qed.

Lemma monitor_updated_same_report MAX env fs file is_directory :
  same_report fs (monitor_item_updated_cb MAX env fs file is_directory).
Proof.
  unfold monitor_item_updated_cb.
  destruct (should_check_file env file is_directory);
    [|apply same_report_refl].
  eapply same_report_trans; [|apply set_up_same_report]. repeat split.
Qed.

Lemma monitor_deleted_same_report MAX env fs file is_directory :
  same_report fs (monitor_item_deleted_cb MAX env fs file is_directory).
Proof.
  unfold monitor_item_deleted_cb.
  destruct (should_check_file env file is_directory);
    [|apply same_report_refl].
  eapply same_report_trans; [|apply set_up_same_report]. repeat split.
Qed.

Lemma monitor_moved_same_report MAX env fs file other is_directory monitored :
  same_report fs
    (monitor_item_moved_cb MAX env fs file other is_directory monitored).
Proof.
  unfold monitor_item_moved_cb.
  repeat match goal with
         | |- context [if ?c then _ else _] => destruct c
         end;
    try apply same_report_refl; try apply add_directory_same_report;
    (eapply same_report_trans; [|apply set_up_same_report]);
    repeat split.
Qed.

Lemma crawler_found_same_report found fs :
  same_report fs
    (fold_left
       (fun fs (l : GFile * bool) =>
          if negb (snd l)
          then set_items_created (items_created fs ++ [fst l]) fs
          else fs) found fs).
Proof.
  revert fs. induction found as [|l found IH]; intros fs; simpl;
    [apply same_report_refl|].
  eapply same_report_trans; [|apply IH].
  destruct (negb (snd l)); repeat split.
Qed.

Lemma crawler_finished_same_report MAX fs found interrupted df di ff fi :
  same_report fs (crawler_finished_cb MAX fs found interrupted df di ff fi).
Proof.
  destruct (crawler_found_same_report found fs) as (a & b & c).
  unfold crawler_finished_cb.
  eapply same_report_trans; [|apply crawl_directories_start_same_report].
  split; [|split]; [rewrite <- a|rewrite <- b|rewrite <- c]; reflexivity.
Qed.

Lemma crawl_directories_cb_same_report MAX env fs :
  same_report fs (snd (crawl_directories_cb MAX env fs)).
Proof.
  unfold crawl_directories_cb.
  destruct (current_directory fs); [repeat split|].
  destruct (directories fs) as [|dd rest].
  - cbn [snd].
    eapply same_report_trans; [apply (set_up_same_report MAX)|].
    apply crawl_directories_stop_same_report.
  - cbv zeta. destruct (tracker_crawler_start env _ _); repeat split.
Qed.

Lemma remove_directory_same_report fs file :
  same_report fs (snd (tracker_miner_fs_remove_directory fs file)).
Proof.
  unfold tracker_miner_fs_remove_directory.
  destruct (current_directory fs) as [dd|];
    [destruct (g_file_equal file (dd_file dd)
               || g_file_has_prefix file (dd_file dd))|];
    repeat split.
Qed.

Lemma set_throttle_same_report MAX fs t :
  same_report fs (tracker_miner_fs_set_throttle MAX fs t).
Proof.
  unfold tracker_miner_fs_set_throttle.
  destruct (SFeqb _ _); [apply same_report_refl|].
  destruct (item_queues_handler_id _); destruct (crawl_directories_id _);
    repeat split.
Qed.

Lemma miner_paused_same_report fs : same_report fs (miner_paused fs).
Proof.
  unfold miner_paused. destruct (item_queues_handler_id _); repeat split.
Qed.

Lemma miner_resumed_same_report MAX fs :
  same_report fs (miner_resumed MAX fs).
Proof.
  unfold miner_resumed. destruct (_ || _); [|repeat split].
  eapply same_report_trans; [|apply set_up_same_report]. repeat split.
Qed.

(** What [before_dispatch] reports. *)
Lemma before_dispatch_report env fs :
  progress_reports (before_dispatch env fs)
  = progress_reports fs
    ++ (if time_now env - time_last fs >=? 1
        then [item_queue_get_progress fs] else [])
  /\ time_last (before_dispatch env fs)
     = (if time_now env - time_last fs >=? 1 then time_now env
        else time_last fs)
  /\ is_crawling (before_dispatch env fs) = is_crawling fs
  /\ processing_pool (before_dispatch env fs) = processing_pool fs.
Proof.
  unfold before_dispatch.
  destruct (negb (timer fs)); cbn [time_last set_timer];
    destruct (time_now env - time_last fs >=? 1);
    repeat split; cbn [progress_reports set_timer]; symmetry; apply app_nil_r.
Qed.

Lemma process_stop_report fs :
  progress_reports (process_stop fs) = progress_reports fs ++ [1%Q]
  /\ time_last (process_stop fs) = time_last fs.
Proof.
  unfold process_stop, process_print_stats, tracker_miner_commit.
  destruct (negb (shown_totals fs)); simpl;
    match goal with |- context [if ?c then _ else _] => destruct c end;
    split; reflexivity.
Qed.

(** What a tick of the queue handler reports, and the second it keeps. *)
Lemma tick_report MAX fuel env fs r queue file source_file fs1 :
  item_queue_handlers_cb MAX fuel env fs = Some r ->
  item_queue_get_next_file fs = (queue, file, source_file, fs1) ->
  let locked := match file with
                | Some f => tracker_file_is_locked env f
                | None => false
                end in
  let elapsed := time_now env - time_last fs >=? 1 in
  progress_reports (snd r)
  = progress_reports fs
    ++ (if locked then []
        else (if elapsed then [item_queue_get_progress fs1] else [])
             ++ (if tick_is_idle queue fs then [1%Q] else []))
  /\ time_last (snd r)
     = (if locked then time_last fs
        else if elapsed then time_now env else time_last fs).
Proof.
  intros Ht Hnext. cbv zeta. rewrite item_queue_handlers_cb_unfold in Ht.
  rewrite Hnext in Ht.
  destruct (next_file_same_report _ _ _ _ _ Hnext) as (_ & T1 & R1).
  destruct (next_file_frame _ _ _ _ _ Hnext) as (Pool1 & _).
  destruct (next_file_same_control _ _ _ _ _ Hnext) as (_ & K1 & _).
  destruct (match file with
            | Some f => tracker_file_is_locked env f
            | None => false
            end).
  { injection Ht as <-. cbn [snd]. rewrite app_nil_r. split; assumption. }
  cbv zeta in Ht.
  destruct (before_dispatch_report env fs1) as (R2 & T2 & K2 & Pool2).
  rewrite T1, R1 in R2. rewrite T1 in T2. rewrite K1 in K2.
  rewrite Pool1 in Pool2.
  remember (before_dispatch env fs1) as fs2 eqn:E. clear E.
  assert (Hkeep : forall x,
             same_report fs2 (snd x) ->
             after_dispatch (Some x) = Some r ->
             tick_is_idle queue fs = false ->
             progress_reports (snd r)
             = progress_reports fs
               ++ (if time_now env - time_last fs >=? 1
                   then [item_queue_get_progress fs1] else [])
                  ++ (if tick_is_idle queue fs then [1%Q] else [])
             /\ time_last (snd r)
                = (if time_now env - time_last fs >=? 1
                   then time_now env else time_last fs)).
  { intros [keep fs3] H3 Ha Hidle. cbn [snd] in H3.
    destruct (after_dispatch_same_report fs2 keep fs3 r H3 Ha) as (_ & b & c).
    rewrite b, c, Hidle, app_nil_r. split; assumption. }
  destruct queue.
  - (* QUEUE_NONE *)
    match type of Ht with
    | after_dispatch (Some (false, ?X)) = _ =>
      destruct (after_dispatch_same_report X false X r (same_report_refl X) Ht)
        as (_ & b & c)
    end.
    rewrite b, c. clear b c Ht. unfold tick_is_idle.
    rewrite <- K2, <- Pool2.
    destruct (negb (is_crawling fs2)
              && match processing_pool fs2 with
                 | [] => true
                 | _ :: _ => false
                 end).
    + destruct (process_stop_report fs2) as (a & b).
      rewrite a, b, R2, <- app_assoc. split; [reflexivity|exact T2].
    + rewrite app_nil_r. split; assumption.
  - destruct file as [f|]; [|discriminate].
    apply (Hkeep _ (item_add_or_update_same_report MAX env fs2 f) Ht).
    reflexivity.
  - destruct file as [f|]; [|discriminate].
    apply (Hkeep _ (item_add_or_update_same_report MAX env fs2 f) Ht).
    reflexivity.
  - destruct file as [f|]; [|discriminate].
    apply (Hkeep _ (item_remove_same_report env fs2 f) Ht). reflexivity.
  - destruct file as [f|]; [|discriminate].
    destruct source_file as [s|]; [|discriminate].
    destruct (item_move MAX fuel env fs2 f s) as [x|] eqn:Hm; [|discriminate].
    apply (Hkeep _ (item_move_same_report _ _ _ _ _ _ _ Hm) Ht). reflexivity.
Qed.

Lemma items_pending_length fs :
  items_pending fs = Z.of_nat (List.length (pending_items fs)).
Proof.
  unfold items_pending, pending_items.
  rewrite !length_app, !length_map. lia.
Qed.

Lemma next_file_items fs queue file source_file fs1 :
  item_queue_get_next_file fs = (queue, file, source_file, fs1) ->
  items_total fs1 = items_total fs
  /\ items_pending fs1 = Z.max 0 (items_pending fs - 1).
Proof.
  intros Hnext. split.
  - revert Hnext. unfold item_queue_get_next_file.
    destruct (items_deleted fs); [|intros [= <- <- <- <-]; reflexivity].
    destruct (items_created fs); [|intros [= <- <- <- <-]; reflexivity].
    destruct (items_updated fs); [|intros [= <- <- <- <-]; reflexivity].
    destruct (items_moved fs); intros [= <- <- <- <-]; reflexivity.
  - rewrite !items_pending_length.
    pose proof (next_file_pops_pending_head fs) as Hpop.
    rewrite Hnext in Hpop.
    destruct (pending_items fs) as [|item rest] eqn:Hp.
    + destruct Hpop as (_ & _ & _ & ->). rewrite Hp. reflexivity.
    + destruct Hpop as (_ & ->). cbn [List.length]. lia.
Qed.

(** C6, as the code has it.  Progress is reported at four places.
    [miner_started] reports 0 and [miner_stopped] reports 1, whatever the
    counters.  A tick of the queue handler whose file is not locked
    reports, if a second or more of the wall clock has passed since the
    second the handler keeps in [time_last], the value of
    [item_queue_get_progress], computed after the item of the tick has
    been taken off the queues (one item less is pending, the totals are
    the same); and then, if it found the queues empty, no crawl running
    and the pool empty, it ends the processing and reports 1.  A tick
    whose file is locked reports nothing, and neither does any other
    callback or call.  The value [item_queue_get_progress] computes, with
    [items_total] the files plus the directories found and [items_pending]
    the summed length of the four queues (no sum leaving the range of
    [guint]): the formula's while something is pending and no more is
    pending than was found; 0 when nothing is pending although something
    was found; 1 when nothing was found or more is pending than was found.
    It lies between 0 and 1, and between two states with the same total,
    both with something pending and no more pending than found, it does
    not go down when the number of pending items does not go up. *)
Theorem reported_progress_cases (MAX : Z) (fuel : nat) (env : Env)
    (ev : Event) (fs fs' : TrackerMinerFSPrivate)
    (Hstep : step MAX fuel env ev fs = Some fs') :
  (ev = MinerStarted ->
   progress_reports fs' = progress_reports fs ++ [0%Q])
  /\ (ev = MinerStopped ->
      progress_reports fs' = progress_reports fs ++ [1%Q])
  /\ (ev <> MinerStarted -> ev <> MinerStopped -> ev <> ItemQueueHandlers ->
      progress_reports fs' = progress_reports fs)
  /\ (ev = ItemQueueHandlers ->
      forall queue file source_file fs1,
        item_queue_get_next_file fs = (queue, file, source_file, fs1) ->
        let locked := match file with
                      | Some f => tracker_file_is_locked env f
                      | None => false
                      end in
        let elapsed := time_now env - time_last fs >=? 1 in
        progress_reports fs'
        = progress_reports fs
          ++ (if locked then []
              else (if elapsed then [item_queue_get_progress fs1] else [])
                   ++ (if tick_is_idle queue fs then [1%Q] else []))
        /\ items_total fs1 = items_total fs
        /\ items_pending fs1 = Z.max 0 (items_pending fs - 1))
  /\ (forall s,
        counters_in_range s ->
        (0 < items_pending s <= items_total s ->
         item_queue_get_progress s
         = progress_formula (items_total s) (items_pending s))
        /\ (items_pending s = 0 -> 0 < items_total s ->
            item_queue_get_progress s = 0%Q)
        /\ (items_total s = 0 \/ items_total s < items_pending s ->
            item_queue_get_progress s = 1%Q)
        /\ (0 <= item_queue_get_progress s <= 1)%Q
        /\ (forall s', counters_in_range s' ->
              items_total s' = items_total s ->
              0 < items_pending s' <= items_pending s ->
              items_pending s <= items_total s ->
              (item_queue_get_progress s <= item_queue_get_progress s')%Q)).
Proof.
  split; [|split; [|split; [|split]]].
  - intros ->. cbn [step] in Hstep. injection Hstep as <-.
    unfold miner_started.
    destruct (crawl_directories_start_same_report MAX
                (set_status "Initializing"
                   (g_object_set_progress 0 (set_been_started true fs))))
      as (_ & _ & c).
    rewrite c. reflexivity.
  - intros ->. cbn [step] in Hstep. injection Hstep as <-. reflexivity.
  - intros H1 H2 H3.
    enough (same_report fs fs') as (_ & _ & c) by exact c.
    destruct ev; cbn [step] in Hstep; try congruence.
    + injection Hstep as <-. apply miner_paused_same_report.
    + injection Hstep as <-. apply miner_resumed_same_report.
    + injection Hstep as <-. apply monitor_created_same_report.
    + injection Hstep as <-. apply monitor_updated_same_report.
    + injection Hstep as <-. apply monitor_deleted_same_report.
    + injection Hstep as <-. apply monitor_moved_same_report.
    + destruct (crawl_directories_id fs); [|discriminate].
      injection Hstep as <-. apply crawl_directories_cb_same_report.
    + destruct (is_crawling fs); [|discriminate].
      injection Hstep as <-. apply crawler_finished_same_report.
    + destruct (batch_update_pending fs data); [|discriminate].
      injection Hstep as <-. apply sparql_update_cb_same_report.
    + injection Hstep as <-. apply notify_file_same_report.
    + injection Hstep as <-. apply add_directory_same_report.
    + injection Hstep as <-. apply remove_directory_same_report.
    + injection Hstep as <-. apply set_throttle_same_report.
    + destruct (_ && _); [|discriminate].
      injection Hstep as <-. repeat split.
  - intros -> queue file source_file fs1 Hnext. cbn [step] in Hstep.
    destruct (item_queues_handler_id fs); [|discriminate].
    destruct (item_queue_handlers_cb MAX fuel env fs) as [[keep fs2]|] eqn:Ht;
      [|discriminate].
    injection Hstep as <-.
    destruct (tick_report _ _ _ _ _ _ _ _ _ Ht Hnext) as (a & _).
    destruct (next_file_items _ _ _ _ _ Hnext) as (c & d).
    cbv zeta. cbn [snd] in a. repeat split; assumption.
  - intros s Hs. apply progress_value_cases. exact Hs.
Qed.

Lemma reported_progress_cases_witness :
  exists fs0 fs1,
    run 10 0 (env_at 1)
        [MinerStarted; AddDirectory dir_data true; CrawlDirectories;
         CrawlerFinished [(file_a, false); (file_b, false)] false 0 0 2 0;
         CrawlDirectories] (tracker_miner_fs_init 2)
    = Some fs0
    /\ step 10 0 (env_at 1) ItemQueueHandlers fs0 = Some fs1
    /\ items_total fs0 = 2 /\ items_pending fs0 = 2
    /\ progress_reports fs0 = [0%Q]
    /\ progress_reports fs1 = [0%Q; (1 # 2)%Q].
Proof.
  eexists. eexists. split; [vm_compute; reflexivity|].
  match goal with
  | |- step ?M ?f ?e ?ev ?s = Some ?t /\ _ =>
    assert (H : step M f e ev s = Some t) by (vm_compute; reflexivity);
    assert (Hn : item_queue_get_next_file s
                 = (QUEUE_CREATED, Some file_a, None,
                    set_items_created [file_b] s))
      by (vm_compute; reflexivity);
    destruct (proj1 (proj2 (proj2 (proj2
                (reported_progress_cases M f e ev s _ H)))) eq_refl
                _ _ _ _ Hn) as (P & _)
  end.
  split; [exact H|]. split; [vm_compute; reflexivity|].
  split; [vm_compute; reflexivity|].
  split; [vm_compute; reflexivity|].
  rewrite P. vm_compute. reflexivity.
Defined.

(** ** The second of the last report *)

(** X22.  The second the queue handler keeps in its static [time_last].
    No callback or call other than a tick of the queue handler changes it
    (the callback of a monitored move, which waits for the store before
    it returns, is left aside).  A tick that finds the queues empty, or
    takes a created or an updated item off them, leaves it as it was when
    the file is locked or less than a second has passed since, and else
    sets it to the second of the wall clock: the second at which it has
    reported the progress. *)
Theorem report_second_kept (MAX : Z) (fuel : nat) (env : Env) (ev : Event)
    (fs fs' : TrackerMinerFSPrivate)
    (Hstep : step MAX fuel env ev fs = Some fs') :
  (ev <> ItemQueueHandlers ->
   (forall file other_file is_directory is_source_monitored,
       ev <> MonitorItemMoved file other_file is_directory
                              is_source_monitored) ->
   time_last fs' = time_last fs)
  /\ (ev = ItemQueueHandlers ->
      forall queue file source_file fs1,
        item_queue_get_next_file fs = (queue, file, source_file, fs1) ->
        queue <> QUEUE_DELETED -> queue <> QUEUE_MOVED ->
        let locked := match file with
                      | Some f => tracker_file_is_locked env f
                      | None => false
                      end in
        let elapsed := time_now env - time_last fs >=? 1 in
        time_last fs'
        = (if locked then time_last fs
           else if elapsed then time_now env else time_last fs)).
Proof.
  split.
  - intros H1 H2.
    destruct ev; cbn [step] in Hstep; try congruence.
    + injection Hstep as <-. unfold miner_started.
      apply (crawl_directories_start_same_report MAX
               (set_status "Initializing"
                  (g_object_set_progress 0 (set_been_started true fs)))).
    + injection Hstep as <-. apply miner_paused_same_report.
    + injection Hstep as <-. apply miner_resumed_same_report.
    + injection Hstep as <-. apply monitor_created_same_report.
    + injection Hstep as <-. apply monitor_updated_same_report.
    + injection Hstep as <-. apply monitor_deleted_same_report.
    + destruct (crawl_directories_id fs); [|discriminate].
      injection Hstep as <-. apply crawl_directories_cb_same_report.
    + destruct (is_crawling fs); [|discriminate].
      injection Hstep as <-. apply crawler_finished_same_report.
    + destruct (batch_update_pending fs data); [|discriminate].
      injection Hstep as <-. apply sparql_update_cb_same_report.
    + injection Hstep as <-. apply notify_file_same_report.
    + injection Hstep as <-. apply add_directory_same_report.
    + injection Hstep as <-. apply remove_directory_same_report.
    + injection Hstep as <-. apply set_throttle_same_report.
    + destruct (_ && _); [|discriminate].
      injection Hstep as <-. reflexivity.
    + injection Hstep as <-. reflexivity.
  - intros -> queue file source_file fs1 Hnext _ _. cbn [step] in Hstep.
    destruct (item_queues_handler_id fs); [|discriminate].
    destruct (item_queue_handlers_cb MAX fuel env fs) as [[keep fs2]|] eqn:Ht;
      [|discriminate].
    injection Hstep as <-.
    destruct (tick_report _ _ _ _ _ _ _ _ _ Ht Hnext) as (_ & b).
    exact b.
Qed.

Lemma report_second_kept_witness :
  exists fs0 fs1,
    run 10 0 (env_at 1)
        [MinerStarted; AddDirectory dir_data true; CrawlDirectories;
         CrawlerFinished [(file_a, false); (file_b, false)] false 0 0 2 0;
         CrawlDirectories] (tracker_miner_fs_init 2)
    = Some fs0
    /\ step 10 0 (env_at 1) ItemQueueHandlers fs0 = Some fs1
    /\ time_last fs0 = 0 /\ time_last fs1 = 1.
Proof.
  eexists. eexists. split; [vm_compute; reflexivity|].
  match goal with
  | |- step ?M ?f ?e ?ev ?s = Some ?t /\ _ =>
    assert (H : step M f e ev s = Some t) by (vm_compute; reflexivity);
    assert (Hn : item_queue_get_next_file s
                 = (QUEUE_CREATED, Some file_a, None,
                    set_items_created [file_b] s))
      by (vm_compute; reflexivity);
    pose proof (proj2 (report_second_kept M f e ev s _ H) eq_refl
                  _ _ _ _ Hn ltac:(discriminate) ltac:(discriminate)) as P
  end.
  split; [exact H|]. split; [vm_compute; reflexivity|].
  rewrite P. vm_compute. reflexivity.
Defined.
